(** * Song arrangement to MIDI events: the exporters of songdrummachine

    A shallow embedding of the three MIDI exporters of the repository:

    - [RockForgeExporter]        (midi-exporter.js, first document),
    - [RockForgeExporterRevised] (the revision that tracks the last valid
                                  sequencer for fill sounds),
    - [SongDrumMachineExporter]  (midi-exporter.js, second document).

    JavaScript numbers are modelled by exact numbers: tick counts, note
    numbers and stored velocities by [Z], the fractional amounts (swing,
    humanize amounts, the results of [Math.random()]) by [Q].  [NaN], which
    arises only from reading a velocity row past its end, is [None] in a
    velocity of type [option Z].  An uncaught [TypeError] is [None] in the
    option monad.  A number literal that is no exact double, [0.4], is
    taken at the double it denotes.  The k-th call of [Math.random()] returns [random k]; the
    number of calls made so far is threaded through as state. *)

From Stdlib Require Import ZArith QArith Qround Lqa Ascii String.
From stdpp Require Import base option list gmap strings fin_maps sorting.

Local Open Scope nat_scope.

(** ** JavaScript primitives *)

Module Js.

(** [Math.round]: the nearest integer, halves rounded towards +infinity. *)
Definition Math_round (x : Q) : Z := Qfloor (x + (1 # 2)).

Definition Math_floor (x : Q) : Z := Qfloor x.

(** [x > y] on numbers. *)
Definition gt (x y : Q) : bool := negb (Qle_bool x y).

(** [[...s]]: the characters of a string, one token each. *)
Definition spread (s : string) : list ascii := list_ascii_of_string s.

(** A token, as the one-character string the callbacks receive. *)
Definition tokenString (c : ascii) : string := String c EmptyString.

(** [/^[1-9]$/.test(c)] *)
Definition isFillDigit (c : ascii) : bool :=
  (49 <=? nat_of_ascii c) && (nat_of_ascii c <=? 57).

(** [/^[A-Z]$/.test(c)] *)
Definition isUpperLetter (c : ascii) : bool :=
  (65 <=? nat_of_ascii c) && (nat_of_ascii c <=? 90).

(** [parseInt(c, 10)] on a token that passed [isFillDigit]. *)
Definition parseInt (c : ascii) : nat := nat_of_ascii c - 48.

(** [a[i]] for a number [i]: [None] is [undefined]. *)
Definition index {A} (a : list A) (i : Z) : option A :=
  if (i <? 0)%Z then None else a !! Z.to_nat i.

(** [row[i] = v] on an array of booleans: in range the slot is replaced,
    past the end the array is extended, the holes reading as falsy. *)
Definition arraySet (i : nat) (v : bool) (row : list bool) : list bool :=
  if i <? length row then <[i := v]> row
  else row ++ replicate (i - length row) false ++ [v].

(** The number literal [0.4]: the double nearest to 4/10, which lies a
    little above it. *)
Definition literal_0_4 : Q := 3602879701896397 # 9007199254740992.

(** The property key that an array element gives when it indexes an
    object: the string itself, or "undefined" for a missing element. *)
Definition propertyKey (element : option string) : string :=
  match element with
  | Some s => s
  | None => "undefined"%string
  end.

(** Truthiness of a string: [!s] is [true] exactly on the empty string. *)
Definition truthyString (s : string) : bool :=
  match s with EmptyString => false | String _ _ => true end.

End Js.

(** ** Data model *)

(** One sequencer: [sequencersData[id]]. *)
Record Pattern := {
  name : string;
  grid : gmap string (list bool);
  steps : nat;
  velocities : gmap string (list Z)
}.

(** A note event handed to the MIDI writer.  [velocity = None] is [NaN]. *)
Record Note := {
  pitch : Z;
  duration : string;
  startTick : Z;
  velocity : option Z;
  channel : Z
}.

(** [grid[instrument] && grid[instrument][step]] *)
Definition gridActive (g : gmap string (list bool)) (instrument : string)
    (step : nat) : bool :=
  match g !! instrument with
  | Some row => match row !! step with Some b => b | None => false end
  | None => false
  end.

(** [INSTRUMENT_MIDI_NOTES[instrument]] when it is truthy: a missing entry
    ([undefined]) and the number 0 are both falsy. *)
Definition truthyNote (notes : gmap string Z) (instrument : string)
    : option Z :=
  match notes !! instrument with
  | Some n => if (n =? 0)%Z then None else Some n
  | None => None
  end.

(** [Math.round(stored / 127 * 100)] *)
Definition rescale (stored : Z) : Z :=
  Js.Math_round (inject_Z stored / 127 * 100).

(** [Math.round(row[step] / 127 * 100)]: [NaN] past the end of the row. *)
Definition rescaleAt (row : list Z) (step : nat) : option Z :=
  rescale <$> row !! step.

(** A fresh grid: [fillGrid[instrument] = Array(numSteps).fill(false)] for
    every instrument of the list, each with an array of its own. *)
Definition emptyGrid (instruments : list string) (numSteps : nat)
    : gmap string (list bool) :=
  fold_left (fun g instrument => <[instrument := replicate numSteps false]> g)
    instruments ∅.

(** ** SongDrumMachineExporter *)

Module SongDrumMachineExporter.

Record Config := {
  songStructure : string;
  (** in the order of [Object.entries] *)
  sequencersData : list (string * Pattern);
  bpm : Z;
  INSTRUMENTS : list string;
  INSTRUMENT_MIDI_NOTES : gmap string Z;
  FILL_INSTRUMENTS : list string;
  isHumanizeOn : bool;
  swingAmount : Q;
  timingHumanizeAmount : Q;
  velocityHumanizeAmount : Q
}.

(** The state of the loop over the sections. *)
Record State := {
  track : list (list Note);
  currentTick : Z;
  calls : nat
}.

Inductive Outcome :=
| Alerted (message : string)
| Thrown
| Downloaded (tempo : Z) (final : State).

Section Compiler.

(** [Math.random()], by call number. *)
Variable random : nat -> Q.
(** [MidiWriter.Writer.prototype.getTickDuration('16')], from the MIDI
    writer library. *)
Variable ticksPerStep : Z.
Variable config : Config.

(** Lines 175-183: the fill grid. *)
Definition fillStep (acc : option (gmap string (list bool) * nat))
    (i : nat) : option (gmap string (list bool) * nat) :=
  '(fillGrid, k) ← acc;
  if Js.gt (random k) Js.literal_0_4 then
    let n := inject_Z (Z.of_nat (length (FILL_INSTRUMENTS config))) in
    let randomInstrument :=
      Js.propertyKey
        (Js.index (FILL_INSTRUMENTS config)
           (Js.Math_floor (random (S k) * n))) in
    row ← fillGrid !! randomInstrument;
    Some (<[randomInstrument := Js.arraySet i true row]> fillGrid, S (S k))
  else Some (fillGrid, S k).

Definition generateFill (numSteps : nat) (k : nat)
    : option (gmap string (list bool) * nat) :=
  fold_left fillStep (seq 0 numSteps)
    (Some (emptyGrid (INSTRUMENTS config) numSteps, k)).

(** Line 185. *)
Definition findPattern (sectionIdentifier : ascii)
    : option (string * Pattern) :=
  find (fun entry => String.eqb (name entry.2) (Js.tokenString sectionIdentifier))
    (sequencersData config).

(** Lines 194-202: the look-ahead for a fill that follows. *)
Definition lookAhead (structureArray : list ascii) (index : nat)
    (numSteps : nat) : nat :=
  match structureArray !! (index + 1) with
  | Some nextIdentifier =>
      if Js.isFillDigit nextIdentifier then
        let fillLength := Js.parseInt nextIdentifier in
        if fillLength <=? numSteps then numSteps - fillLength else numSteps
      else numSteps
  | None => numSteps
  end.

(** Lines 212-215. *)
Definition baseVelocity (patternData : option Pattern)
    (instrument : string) (step : nat) : option Z :=
  match patternData with
  | Some p =>
      match velocities p !! instrument with
      | Some row => rescaleAt row step
      | None => Some 100%Z
      end
  | None => Some 100%Z
  end.

(** Lines 221-226: the velocity variation and the calls made so far. *)
Definition velocityVariation (k : nat) : Z * nat :=
  if isHumanizeOn config && Js.gt (velocityHumanizeAmount config) 0 then
    (Js.Math_round (((random k - (1 # 2)) * 2) * 20
                    * velocityHumanizeAmount config), S k)
  else (0%Z, k).

(** Lines 221, 228-231. *)
Definition timingVariation (k : nat) : Z * nat :=
  if isHumanizeOn config && Js.gt (timingHumanizeAmount config) 0 then
    (Js.Math_round (((random k - (1 # 2)) * 2)
                    * (inject_Z ticksPerStep * (1 # 4))
                    * timingHumanizeAmount config), S k)
  else (0%Z, k).

(** Lines 235-238. *)
Definition swingDelay (step : nat) : Z :=
  if Js.gt (swingAmount config) 0 && Nat.odd step then
    Js.Math_round (swingAmount config * 2 * inject_Z ticksPerStep)
  else 0%Z.

(** Line 240. *)
Definition clampVelocity (v : Z) : Z := Z.max 1 (Z.min 100 v).

(** Lines 208-249: the callback of [INSTRUMENTS.forEach]. *)
Definition compileNote (patternData : option Pattern)
    (grid : gmap string (list bool)) (tick : Z) (step : nat)
    (instrument : string) (k : nat) : option Note * nat :=
  if gridActive grid instrument step then
    match truthyNote (INSTRUMENT_MIDI_NOTES config) instrument with
    | None => (None, k)
    | Some midiNote =>
        let base := baseVelocity patternData instrument step in
        let '(dv, k1) := velocityVariation k in
        let '(dt, k2) := timingVariation k1 in
        let tickOffset := (dt + swingDelay step)%Z in
        (Some {| pitch := midiNote;
                 duration := "16";
                 startTick := (tick + Z.of_nat step * ticksPerStep
                               + tickOffset)%Z;
                 velocity := (fun b => clampVelocity (b + dv)) <$> base;
                 channel := 10 |}, k2)
    end
  else (None, k).

(** Lines 206-251: the notes of one step. *)
Definition compileStep (patternData : option Pattern)
    (grid : gmap string (list bool)) (tick : Z) (step : nat) (k : nat)
    : list Note * nat :=
  fold_left
    (fun acc instrument =>
       match compileNote patternData grid tick step instrument acc.2 with
       | (Some n, k') => (acc.1 ++ [n], k')
       | (None, k') => (acc.1, k')
       end)
    (INSTRUMENTS config) ([], k).

(** Lines 253-255: [track.addEvent] unless the batch is empty. *)
Definition addEvent (notes : list Note) (t : list (list Note))
    : list (list Note) :=
  match notes with [] => t | _ => t ++ [notes] end.

Definition stepBody (patternData : option Pattern)
    (grid : gmap string (list bool)) (st : State) (step : nat) : State :=
  let r := compileStep patternData grid (currentTick st) step (calls st) in
  {| track := addEvent r.1 (track st);
     currentTick := currentTick st;
     calls := r.2 |}.

(** Lines 205-257: the steps of one section, then the cursor. *)
Definition compileSection (patternData : option Pattern)
    (grid : gmap string (list bool)) (numSteps : nat) (st : State)
    : State :=
  let st' := fold_left (stepBody patternData grid) (seq 0 numSteps) st in
  {| track := track st';
     currentTick := (currentTick st + Z.of_nat numSteps * ticksPerStep)%Z;
     calls := calls st' |}.

(** Lines 167-258: the callback of [structureArray.forEach]. *)
Definition exportSection (structureArray : list ascii) (st : State)
    (index : nat) (sectionIdentifier : ascii) : option State :=
  if Js.isFillDigit sectionIdentifier then
    let numSteps := Js.parseInt sectionIdentifier in
    '(fillGrid, k) ← generateFill numSteps (calls st);
    Some (compileSection None fillGrid numSteps
            {| track := track st; currentTick := currentTick st;
               calls := k |})
  else
    match findPattern sectionIdentifier with
    | None => Some st
    | Some entry =>
        let patternData := entry.2 in
        Some (compileSection (Some patternData) (grid patternData)
                (lookAhead structureArray index (steps patternData)) st)
    end.

Definition initial : State :=
  {| track := []; currentTick := 0; calls := 0 |}.

(** The loop from [index] on, over the remaining tokens. *)
Fixpoint exportFrom (structureArray : list ascii) (index : nat)
    (rest : list ascii) (st : State) : option State :=
  match rest with
  | [] => Some st
  | sectionIdentifier :: rest' =>
      st' ← exportSection structureArray st index sectionIdentifier;
      exportFrom structureArray (S index) rest' st'
  end.

Definition compileSong : option State :=
  let structureArray := Js.spread (songStructure config) in
  exportFrom structureArray 0 structureArray initial.

(** Lines 137-271. *)
Definition exportSong : Outcome :=
  if negb (Js.truthyString (songStructure config))
     || (length (sequencersData config) =? 0)
  then Alerted "Please define a song structure and have at least one sequencer pattern."
  else
    match compileSong with
    | None => Thrown
    | Some st => Downloaded (bpm config) st
    end.

End Compiler.

End SongDrumMachineExporter.

(** ** RockForgeExporter *)

Module RockForgeExporter.

Record Params := {
  songStructure : string;
  (** in the order of [Object.keys] *)
  sequencersData : list (string * Pattern);
  bpm : Z;
  INSTRUMENTS : list string;
  INSTRUMENT_MIDI_NOTES : gmap string Z;
  FILL_INSTRUMENTS : list string
}.

Record State := {
  track : list (list Note);
  totalTicks : Z;
  calls : nat
}.

Inductive Outcome :=
| Alerted (message : string)
| Caught
| Downloaded (tempo : Z) (final : State).

Definition allInstruments : list string :=
  ["crash1"; "crash2"; "ride"; "china";
   "tom1"; "tom2"; "tom3"; "floor-tom";
   "hi-hat-open"; "hi-hat-closed"; "snare"; "kick"].

Definition ticksPerStep : Z := 128.

(** [sequencersData[key]] *)
Definition sequencer (sequencersData : list (string * Pattern))
    (key : string) : option Pattern :=
  snd <$> find (fun entry => String.eqb entry.1 key) sequencersData.

(** [Object.keys(sequencersData).find(key => sequencersData[key].name === item)] *)
Definition findSequencerId (sequencersData : list (string * Pattern))
    (item : ascii) : option string :=
  find (fun key =>
          match sequencer sequencersData key with
          | Some data => String.eqb (name data) (Js.tokenString item)
          | None => false
          end)
    (map fst sequencersData).

(** An identifier that passes [if (!id) ... return]. *)
Definition truthyId (id : option string) : option string :=
  match id with
  | Some s => if Js.truthyString s then Some s else None
  | None => None
  end.

Section Compiler.

Variable random : nat -> Q.

(** Lines 20-23: one iteration of the loop of [_generateFillPattern]. *)
Definition fillStep (fillInstruments : list string)
    (acc : option (gmap string (list bool) * nat)) (i : nat)
    : option (gmap string (list bool) * nat) :=
  '(fillGrid, k) ← acc;
  let n := inject_Z (Z.of_nat (length fillInstruments)) in
  let randomInstrument :=
    Js.propertyKey
      (Js.index fillInstruments (Js.Math_floor (random k * n))) in
  row ← fillGrid !! randomInstrument;
  Some (<[randomInstrument := Js.arraySet i true row]> fillGrid, S k).

(** Lines 8-26, the same in both revisions. *)
Definition _generateFillPattern (numSteps : nat)
    (fillInstruments : list string) (k : nat)
    : option (gmap string (list bool) * nat) :=
  fold_left (fillStep fillInstruments) (seq 0 numSteps)
    (Some (emptyGrid allInstruments numSteps, k)).

Variable params : Params.

(** The callback of [INSTRUMENTS.forEach]: [None] is the [TypeError] of
    reading a step of a velocity row that does not exist. *)
Definition noteEvent (gridToUse : gmap string (list bool))
    (currentSequencerData : Pattern) (ticks : Z) (step : nat)
    (instrument : string) : option (option Note) :=
  if gridActive gridToUse instrument step then
    match truthyNote (INSTRUMENT_MIDI_NOTES params) instrument with
    | None => Some None
    | Some midiNote =>
        row ← velocities currentSequencerData !! instrument;
        Some (Some {| pitch := midiNote;
                      duration := "16";
                      velocity := rescaleAt row step;
                      startTick := (ticks + Z.of_nat step * ticksPerStep)%Z;
                      channel := 10 |})
    end
  else Some None.

Definition notesForStep (gridToUse : gmap string (list bool))
    (currentSequencerData : Pattern) (ticks : Z) (step : nat)
    : option (list Note) :=
  fold_left
    (fun acc instrument =>
       notes ← acc;
       e ← noteEvent gridToUse currentSequencerData ticks step instrument;
       Some (match e with Some n => notes ++ [n] | None => notes end))
    (INSTRUMENTS params) (Some []).

Definition addEvent (notes : list Note) (t : list (list Note))
    : list (list Note) :=
  match notes with [] => t | _ => t ++ [notes] end.

(** The loop over the steps and the advance of [totalTicks], the same
    in both revisions. *)
Definition compileSteps (gridToUse : gmap string (list bool))
    (currentSequencerData : Pattern) (numSteps : nat) (st : State)
    : option State :=
  t ← fold_left
        (fun acc step =>
           t ← acc;
           notes ← notesForStep gridToUse currentSequencerData
                     (totalTicks st) step;
           Some (addEvent notes t))
        (seq 0 numSteps) (Some (track st));
  Some {| track := t;
          totalTicks := (totalTicks st + Z.of_nat numSteps * ticksPerStep)%Z;
          calls := calls st |}.

(** Lines 59-104: the callback of [songItems.forEach]. *)
Definition exportItem (st : State) (item : ascii) : option State :=
  if Js.isUpperLetter item then
    match truthyId (findSequencerId (sequencersData params) item) with
    | None => Some st
    | Some sequencerId =>
        currentSequencerData ← sequencer (sequencersData params) sequencerId;
        compileSteps (grid currentSequencerData) currentSequencerData
          (steps currentSequencerData) st
    end
  else if Js.isFillDigit item then
    let numSteps := Js.parseInt item in
    '(gridToUse, k) ←
      _generateFillPattern numSteps (FILL_INSTRUMENTS params) (calls st);
    let st := {| track := track st; totalTicks := totalTicks st;
                 calls := k |} in
    match truthyId (head (map fst (sequencersData params))) with
    | None => Some st
    | Some firstSequencerId =>
        currentSequencerData ←
          sequencer (sequencersData params) firstSequencerId;
        compileSteps gridToUse currentSequencerData numSteps st
    end
  else Some st.

Definition initial : State :=
  {| track := []; totalTicks := 0; calls := 0 |}.

Definition compileSong : option State :=
  fold_left (fun acc item => st ← acc; exportItem st item)
    (Js.spread (songStructure params)) (Some initial).

(** Lines 38-118. *)
Definition exportSong (midiWriterDefined : bool) : Outcome :=
  if negb midiWriterDefined then Alerted "MIDI library is not ready yet."
  else if negb (Js.truthyString (songStructure params))
  then Alerted "Please enter a song structure to export."
  else
    match compileSong with
    | None => Caught
    | Some st => Downloaded (bpm params) st
    end.

End Compiler.

End RockForgeExporter.

(** ** RockForgeExporter, revised: fills take their sounds from the last
    valid sequencer *)

Module RockForgeExporterRevised.

Import RockForgeExporter.

Record LoopState := {
  base : State;
  lastValidSequencerId : option string
}.

Section Compiler.

Variable random : nat -> Q.
Variable params : Params.

(** Line 84: [lastValidSequencerId || Object.keys(sequencersData)[0]] *)
Definition sequencerIdForFillSounds (lastValid : option string)
    : option string :=
  match truthyId lastValid with
  | Some id => Some id
  | None => truthyId (head (map fst (sequencersData params)))
  end.

(** Lines 61-117: the callback of [songItems.forEach]. *)
Definition exportItem (ls : LoopState) (item : ascii) : option LoopState :=
  if Js.isUpperLetter item then
    match truthyId (findSequencerId (sequencersData params) item) with
    | None => Some ls
    | Some sequencerId =>
        currentSequencerData ← sequencer (sequencersData params) sequencerId;
        st ← compileSteps params (grid currentSequencerData)
               currentSequencerData (steps currentSequencerData) (base ls);
        Some {| base := st; lastValidSequencerId := Some sequencerId |}
    end
  else if Js.isFillDigit item then
    let numSteps := Js.parseInt item in
    '(gridToUse, k) ←
      _generateFillPattern random numSteps (FILL_INSTRUMENTS params)
        (calls (base ls));
    let st := {| track := track (base ls);
                 totalTicks := totalTicks (base ls);
                 calls := k |} in
    match sequencerIdForFillSounds (lastValidSequencerId ls) with
    | None =>
        Some {| base := st;
                lastValidSequencerId := lastValidSequencerId ls |}
    | Some id =>
        currentSequencerData ← sequencer (sequencersData params) id;
        st' ← compileSteps params gridToUse currentSequencerData numSteps st;
        Some {| base := st';
                lastValidSequencerId := lastValidSequencerId ls |}
    end
  else Some ls.

Definition initial : LoopState :=
  {| base := RockForgeExporter.initial; lastValidSequencerId := None |}.

Definition compileSong : option LoopState :=
  fold_left (fun acc item => ls ← acc; exportItem ls item)
    (Js.spread (songStructure params)) (Some initial).

(** Lines 37-131. *)
Definition exportSong (midiWriterDefined : bool) : Outcome :=
  if negb midiWriterDefined then Alerted "MIDI library is not ready yet."
  else if negb (Js.truthyString (songStructure params))
  then Alerted "Please enter a song structure to export."
  else
    match compileSong with
    | None => Caught
    | Some ls => Downloaded (bpm params) (base ls)
    end.

End Compiler.

End RockForgeExporterRevised.

(** ** Vocabulary of the statements *)

(** The contract on [Math.random()]: a number in [0, 1). *)
Definition unitInterval (random : nat -> Q) : Prop :=
  forall k, (0 <= random k)%Q /\ (random k < 1)%Q.

(** The input contract of the exporter: the ranges of the three amounts. *)
Definition inputContract (config : SongDrumMachineExporter.Config) : Prop :=
  ((0 <= SongDrumMachineExporter.swingAmount config)%Q
   /\ (SongDrumMachineExporter.swingAmount config <= 1 # 4)%Q)
  /\ ((0 <= SongDrumMachineExporter.timingHumanizeAmount config)%Q
      /\ (SongDrumMachineExporter.timingHumanizeAmount config <= 1)%Q)
  /\ ((0 <= SongDrumMachineExporter.velocityHumanizeAmount config)%Q
      /\ (SongDrumMachineExporter.velocityHumanizeAmount config <= 1)%Q).

(** The state of a fill grid of [n] steps over [catalog] once the steps
    below [m] have been drawn from [fill]. *)
Record fillInv (catalog fill : list string) (n m : nat)
    (g : gmap string (list bool)) : Prop := {
  inv_rows : forall i, i ∈ catalog ->
               exists row, g !! i = Some row /\ length row = n;
  inv_length : forall i row, g !! i = Some row -> length row = n;
  inv_domain : forall i s, gridActive g i s = true -> i ∈ fill /\ s < m;
  inv_single : forall i j s,
                 gridActive g i s = true -> gridActive g j s = true -> i = j
}.

(** Every step below [m] has a struck instrument. *)
Definition struckBelow (m : nat) (g : gmap string (list bool)) : Prop :=
  forall s, s < m -> exists i, gridActive g i s = true.

(** The least the timing variation can be. *)
Definition timingFloor (ticksPerStep : Z)
    (config : SongDrumMachineExporter.Config) : Z :=
  Js.Math_round (- (inject_Z ticksPerStep * (1 # 4))
                 * SongDrumMachineExporter.timingHumanizeAmount config).


(** The same input with another instrument-to-note mapping. *)
Definition withNotes (config : SongDrumMachineExporter.Config)
    (midiNotes : gmap string Z) : SongDrumMachineExporter.Config :=
  {| SongDrumMachineExporter.songStructure :=
       SongDrumMachineExporter.songStructure config;
     SongDrumMachineExporter.sequencersData :=
       SongDrumMachineExporter.sequencersData config;
     SongDrumMachineExporter.bpm := SongDrumMachineExporter.bpm config;
     SongDrumMachineExporter.INSTRUMENTS :=
       SongDrumMachineExporter.INSTRUMENTS config;
     SongDrumMachineExporter.INSTRUMENT_MIDI_NOTES := midiNotes;
     SongDrumMachineExporter.FILL_INSTRUMENTS :=
       SongDrumMachineExporter.FILL_INSTRUMENTS config;
     SongDrumMachineExporter.isHumanizeOn :=
       SongDrumMachineExporter.isHumanizeOn config;
     SongDrumMachineExporter.swingAmount :=
       SongDrumMachineExporter.swingAmount config;
     SongDrumMachineExporter.timingHumanizeAmount :=
       SongDrumMachineExporter.timingHumanizeAmount config;
     SongDrumMachineExporter.velocityHumanizeAmount :=
       SongDrumMachineExporter.velocityHumanizeAmount config |}.

Definition withNotesRF (params : RockForgeExporter.Params)
    (midiNotes : gmap string Z) : RockForgeExporter.Params :=
  {| RockForgeExporter.songStructure := RockForgeExporter.songStructure params;
     RockForgeExporter.sequencersData :=
       RockForgeExporter.sequencersData params;
     RockForgeExporter.bpm := RockForgeExporter.bpm params;
     RockForgeExporter.INSTRUMENTS := RockForgeExporter.INSTRUMENTS params;
     RockForgeExporter.INSTRUMENT_MIDI_NOTES := midiNotes;
     RockForgeExporter.FILL_INSTRUMENTS :=
       RockForgeExporter.FILL_INSTRUMENTS params |}.

(** Following the spec's words: a token that resolves to a named pattern,
    with the identifier of the pattern. *)
Definition resolves (params : RockForgeExporter.Params) (c : ascii)
    : option string :=
  if Js.isUpperLetter c then
    RockForgeExporter.truthyId
      (RockForgeExporter.findSequencerId
         (RockForgeExporter.sequencersData params) c)
  else None.

(** Following the spec's words: the most recently resolved named pattern
    of the tokens compiled so far. *)
Definition mostRecentlyResolved (params : RockForgeExporter.Params)
    (compiled : list ascii) : option string :=
  fold_left
    (fun last c =>
       match resolves params c with Some id => Some id | None => last end)
    compiled None.

(** Following the spec's words: the first-declared pattern. *)
Definition firstDeclared (params : RockForgeExporter.Params) : option string :=
  RockForgeExporter.truthyId
    (head (map fst (RockForgeExporter.sequencersData params))).

(** Following the spec's words: the current sound source, which falls back
    to the first-declared pattern. *)
Definition currentSoundSource (params : RockForgeExporter.Params)
    (compiled : list ascii) : option string :=
  match mostRecentlyResolved params compiled with
  | Some id => Some id
  | None => firstDeclared params
  end.

(** The revised loop, over the tokens compiled so far. *)
Definition revisedRun (random : nat -> Q) (params : RockForgeExporter.Params)
    (compiled : list ascii) (ls : RockForgeExporterRevised.LoopState)
    : option RockForgeExporterRevised.LoopState :=
  fold_left
    (fun acc item =>
       acc ≫= fun ls =>
         RockForgeExporterRevised.exportItem random params ls item)
    compiled (Some ls).

(** The pitch an instrument sounds with at a step of a grid: none unless
    the grid marks the instrument there and its note is truthy. *)
Definition pitchAt (midiNotes : gmap string Z) (g : gmap string (list bool))
    (step : nat) (instrument : string) : option Z :=
  if gridActive g instrument step then truthyNote midiNotes instrument
  else None.

(** The instruments of the list that sound at a step, in the order of the
    list. *)
Definition soundingInstruments (midiNotes : gmap string Z)
    (instruments : list string) (g : gmap string (list bool)) (step : nat)
    : list string :=
  filter (fun instrument => is_Some (pitchAt midiNotes g step instrument))
    instruments.

(** The steps below [numSteps] at which some instrument sounds, in
    ascending order. *)
Definition soundingSteps (midiNotes : gmap string Z)
    (instruments : list string) (g : gmap string (list bool))
    (numSteps : nat) : list nat :=
  filter (fun step => soundingInstruments midiNotes instruments g step <> [])
    (seq 0 numSteps).

(** [r] is the integer nearest to [stored / 127 * 100], a half rounded up:
    [stored / 127 * 100 - 1/2 < r <= stored / 127 * 100 + 1/2], cleared of
    fractions. *)
Definition nearestPercent (stored r : Z) : Prop :=
  (200 * stored - 127 < 254 * r <= 200 * stored + 127)%Z.


(** A note of a RockForge fill that borrows from [source]: it has the
    pitch of [instrument] and starts at the step of the fill, and its
    velocity is the entry of the velocity row of [source] for that very
    instrument at that very step, rescaled to the nearest percent of 127;
    past the end of the row it is NaN. *)
Definition borrowsAt (params : RockForgeExporter.Params) (source : Pattern)
    (ticks : Z) (step : nat) (instrument : string) (note : Note) : Prop :=
  truthyNote (RockForgeExporter.INSTRUMENT_MIDI_NOTES params) instrument
    = Some (pitch note)
  /\ startTick note = (ticks + Z.of_nat step * 128)%Z
  /\ exists row,
       velocities source !! instrument = Some row
       /\ (forall stored,
             row !! step = Some stored ->
             exists r, nearestPercent stored r /\ velocity note = Some r)
       /\ (row !! step = None -> velocity note = None).

(** The batches of a RockForge fill over the grid [g] that borrows from
    [source]: one batch for every sounding step of the grid, in the order of
    the steps, and in it one borrowing note for every sounding instrument,
    in the order of [INSTRUMENTS]. *)
Definition fillBorrows (params : RockForgeExporter.Params)
    (g : gmap string (list bool)) (source : Pattern) (ticks : Z)
    (numSteps : nat) (new : list (list Note)) : Prop :=
  Forall2
    (fun step batch =>
       Forall2 (borrowsAt params source ticks step)
         (soundingInstruments (RockForgeExporter.INSTRUMENT_MIDI_NOTES params)
            (RockForgeExporter.INSTRUMENTS params) g step)
         batch)
    (soundingSteps (RockForgeExporter.INSTRUMENT_MIDI_NOTES params)
       (RockForgeExporter.INSTRUMENTS params) g numSteps)
    new.

(** ** Example inputs *)

Module Examples.

Import SongDrumMachineExporter.

Definition constant (q : Q) : nat -> Q := fun _ => q.

Definition patternA : Pattern :=
  {| name := "A";
     grid := {[ "kick" := [true; false; true; true];
                "snare" := [false; true; false; true] ]};
     steps := 4;
     velocities := {[ "kick" := [127; 0; 64; 100]%Z;
                      "snare" := [64; 80; 3; 64]%Z ]} |}.

Definition patternB : Pattern :=
  {| name := "B";
     grid := {[ "kick" := [false; false]; "snare" := [true; true] ]};
     steps := 2;
     velocities := {[ "kick" := [90; 90]%Z; "snare" := [80; 127]%Z ]} |}.

Definition notes : gmap string Z := {[ "kick" := 36%Z; "snare" := 38%Z ]}.

Definition song (structure : string) (patterns : list (string * Pattern))
    (humanize : bool) (swing : Q) : Config :=
  {| songStructure := structure;
     sequencersData := patterns;
     bpm := 120;
     INSTRUMENTS := ["kick"; "snare"];
     INSTRUMENT_MIDI_NOTES := notes;
     FILL_INSTRUMENTS := ["snare"];
     isHumanizeOn := humanize;
     swingAmount := swing;
     timingHumanizeAmount := 1;
     velocityHumanizeAmount := 1 |}.

Definition rockForge (structure : string)
    (patterns : list (string * Pattern)) (midiNotes : gmap string Z)
    : RockForgeExporter.Params :=
  {| RockForgeExporter.songStructure := structure;
     RockForgeExporter.sequencersData := patterns;
     RockForgeExporter.bpm := 120;
     RockForgeExporter.INSTRUMENTS := ["kick"; "snare"];
     RockForgeExporter.INSTRUMENT_MIDI_NOTES := midiNotes;
     RockForgeExporter.FILL_INSTRUMENTS := ["snare"] |}.

End Examples.

(** ** Vocabulary of the further properties *)

(** What [exportSection] hands to [compileSection]: a fill grid of 1 to 9
    steps with no pattern data, or a pattern of [sequencersData] with its
    own grid and no more steps than it declares. *)
Inductive sectionInput (random : nat -> Q)
    (config : SongDrumMachineExporter.Config)
    : option Pattern -> gmap string (list bool) -> nat -> Prop :=
| fillInput (numSteps k k' : nat) (g : gmap string (list bool)) :
    1 <= numSteps <= 9 ->
    SongDrumMachineExporter.generateFill random config numSteps k
      = Some (g, k') ->
    sectionInput random config None g numSteps
| patternInput (entry : string * Pattern) (numSteps : nat) :
    entry ∈ SongDrumMachineExporter.sequencersData config ->
    numSteps <= steps entry.2 ->
    sectionInput random config (Some entry.2) (grid entry.2) numSteps.

(** Every velocity row of every pattern reaches the pattern's last step. *)
Definition velocityRowsCover (sequencersData : list (string * Pattern))
    : Prop :=
  forall entry instrument row,
    entry ∈ sequencersData ->
    velocities entry.2 !! instrument = Some row ->
    steps entry.2 <= length row.

(** Every stored velocity of every pattern lies in 0..127. *)
Definition velocitiesInRange (sequencersData : list (string * Pattern))
    : Prop :=
  forall entry instrument row v,
    entry ∈ sequencersData ->
    velocities entry.2 !! instrument = Some row -> v ∈ row ->
    (0 <= v <= 127)%Z.

(** Every pattern has a velocity row for every instrument of the list. *)
Definition velocityRowsFor (instruments : list string)
    (sequencersData : list (string * Pattern)) : Prop :=
  forall entry instrument,
    entry ∈ sequencersData -> instrument ∈ instruments ->
    is_Some (velocities entry.2 !! instrument).

(** The steps one token of the SongDrumMachine arrangement is compiled
    over. *)
Definition sectionSteps (config : SongDrumMachineExporter.Config)
    (structureArray : list ascii) (index : nat) (c : ascii) : nat :=
  if Js.isFillDigit c then Js.parseInt c
  else
    match SongDrumMachineExporter.findPattern config c with
    | Some entry =>
        SongDrumMachineExporter.lookAhead structureArray index
          (steps entry.2)
    | None => 0
    end.

Fixpoint totalSteps (config : SongDrumMachineExporter.Config)
    (structureArray : list ascii) (index : nat) (rest : list ascii) : nat :=
  match rest with
  | [] => 0
  | c :: rest' =>
      sectionSteps config structureArray index c
      + totalSteps config structureArray (S index) rest'
  end.

(** A batch of notes that all start at [tick]. *)
Definition batchAt (tick : Z) (batch : list Note) : Prop :=
  batch <> [] /\ Forall (fun n => startTick n = tick) batch.

(** A track whose batches start at the ticks of [ticks], one after the
    other. *)
Definition trackAt (ticks : list Z) (t : list (list Note)) : Prop :=
  Forall2 batchAt ticks t.

(** A track whose batches start at strictly increasing ticks, all of them
    multiples of 128 from 0 up to, and not including, [bound]. *)
Definition orderedTrack (bound : Z) (t : list (list Note)) : Prop :=
  exists ticks,
    trackAt ticks t
    /\ StronglySorted Z.lt ticks
    /\ Forall (fun x => (0 <= x < bound)%Z /\ (128 | x)%Z) ticks.

(** The note of an instrument at a step when nothing is humanized: none
    unless the grid marks the instrument there and its note is truthy. *)
Definition plainNote (ticksPerStep : Z)
    (config : SongDrumMachineExporter.Config) (patternData : option Pattern)
    (g : gmap string (list bool)) (tick : Z) (step : nat)
    (instrument : string) : option Note :=
  if gridActive g instrument step then
    midiNote ←
      truthyNote (SongDrumMachineExporter.INSTRUMENT_MIDI_NOTES config)
        instrument;
    Some {| pitch := midiNote;
            duration := "16";
            startTick :=
              (tick + Z.of_nat step * ticksPerStep
               + SongDrumMachineExporter.swingDelay ticksPerStep config step)%Z;
            velocity :=
              SongDrumMachineExporter.clampVelocity
                <$> SongDrumMachineExporter.baseVelocity patternData
                      instrument step;
            channel := 10 |}
  else None.

(** Inputs of the further examples. *)
Definition patternC : Pattern :=
  {| name := "C";
     grid := {[ "kick" := [true; true]; "snare" := [false; true] ]};
     steps := 2;
     velocities := {[ "kick" := [0; 127]%Z ]} |}.

Definition patternD : Pattern :=
  {| name := "D";
     grid := {[ "kick" := [true; false]; "snare" := [false; true] ]};
     steps := 2;
     velocities := {[ "kick" := [0; 5]%Z; "snare" := [9; 127]%Z ]} |}.

Definition songWith (structure : string)
    (patterns : list (string * Pattern)) (fillInstruments : list string)
    (humanize : bool) (swing amount : Q) : SongDrumMachineExporter.Config :=
  {| SongDrumMachineExporter.songStructure := structure;
     SongDrumMachineExporter.sequencersData := patterns;
     SongDrumMachineExporter.bpm := 120;
     SongDrumMachineExporter.INSTRUMENTS := ["kick"; "snare"];
     SongDrumMachineExporter.INSTRUMENT_MIDI_NOTES := Examples.notes;
     SongDrumMachineExporter.FILL_INSTRUMENTS := fillInstruments;
     SongDrumMachineExporter.isHumanizeOn := humanize;
     SongDrumMachineExporter.swingAmount := swing;
     SongDrumMachineExporter.timingHumanizeAmount := amount;
     SongDrumMachineExporter.velocityHumanizeAmount := amount |}.

Definition rockForgeWith (structure : string)
    (patterns : list (string * Pattern)) (fillInstruments : list string)
    : RockForgeExporter.Params :=
  {| RockForgeExporter.songStructure := structure;
     RockForgeExporter.sequencersData := patterns;
     RockForgeExporter.bpm := 120;
     RockForgeExporter.INSTRUMENTS := ["kick"; "snare"];
     RockForgeExporter.INSTRUMENT_MIDI_NOTES := Examples.notes;
     RockForgeExporter.FILL_INSTRUMENTS := fillInstruments |}.

(** ** Facts about the primitives *)

Section Primitives.

Lemma gt_spec (x y : Q) : Js.gt x y = true <-> (y < x)%Q.
Proof.
  unfold Js.gt. rewrite negb_true_iff, <- not_true_iff_false, Qle_bool_iff.
  split; [apply Qnot_le_lt | apply Qlt_not_le].
Qed.

Lemma gt_false (x y : Q) : Js.gt x y = false <-> (x <= y)%Q.
Proof. unfold Js.gt. rewrite negb_false_iff. apply Qle_bool_iff. Qed.

Lemma Math_round_mono (x y : Q) :
  (x <= y)%Q -> (Js.Math_round x <= Js.Math_round y)%Z.
Proof. intros H. apply Qfloor_resp_le. lra. Qed.

Lemma Math_round_nonneg (x : Q) : (0 <= x)%Q -> (0 <= Js.Math_round x)%Z.
Proof. intros H. apply (Math_round_mono 0 x H). Qed.

Lemma rescale_mono (v w : Z) : (v <= w)%Z -> (rescale v <= rescale w)%Z.
Proof.
  intros H. apply Math_round_mono. rewrite Zle_Qle in H.
  unfold Qdiv.
  apply Qmult_le_compat_r; [apply Qmult_le_compat_r |];
    [assumption | discriminate ..].
Qed.

(** [Math.floor(Math.random() * a.length)] is an index of [a]. *)
Lemma random_index {A} (a : list A) (r : Q) :
  (0 <= r)%Q -> (r < 1)%Q -> a <> [] ->
  exists x, Js.index a (Js.Math_floor (r * inject_Z (Z.of_nat (length a))))
            = Some x /\ x ∈ a.
Proof.
  intros Hr0 Hr1 Ha.
  set (n := Z.of_nat (length a)).
  assert (Hn : (0 < n)%Z) by (destruct a; [done | subst n; simpl; lia]).
  assert (HnQ : (0 < inject_Z n)%Q) by (rewrite Zlt_Qlt in Hn; exact Hn).
  set (q := (r * inject_Z n)%Q).
  assert (Hq0 : (0 <= q)%Q) by (subst q; nra).
  assert (Hq1 : (q < inject_Z n)%Q) by (subst q; nra).
  assert (Hf0 : (0 <= Qfloor q)%Z) by (apply (Qfloor_resp_le 0 q Hq0)).
  assert (Hf1 : (Qfloor q < n)%Z).
  { pose proof (Qfloor_le q) as Hle.
    rewrite Zlt_Qlt. lra. }
  unfold Js.index, Js.Math_floor. fold n. fold q.
  destruct (Z.ltb_spec (Qfloor q) 0) as [Hneg | _]; [lia |].
  destruct (lookup_lt_is_Some_2 a (Z.to_nat (Qfloor q))) as [x Hx].
  { subst n. lia. }
  exists x. split; [exact Hx |]. apply list_elem_of_lookup. eauto.
Qed.

Lemma isFillDigit_not_upper (c : ascii) :
  Js.isFillDigit c = true -> Js.isUpperLetter c = false.
Proof.
  unfold Js.isFillDigit, Js.isUpperLetter.
  rewrite andb_true_iff, andb_false_iff, !Nat.leb_le, !Nat.leb_gt. lia.
Qed.

End Primitives.

(** ** Fill grids *)

Section FillGrids.

Lemma emptyGrid_fold (l : list string) (n : nat)
    (g : gmap string (list bool)) (i : string) :
  fold_left (fun g instrument => <[instrument := replicate n false]> g) l g
    !! i
  = if decide (i ∈ l) then Some (replicate n false) else g !! i.
Proof.
  revert g. induction l as [| a l IH]; intros g; cbn [fold_left].
  - rewrite decide_False; [done | apply not_elem_of_nil].
  - rewrite IH. destruct (decide (i ∈ l)) as [Hl | Hl].
    + rewrite decide_True; [done | by right].
    + destruct (decide (a = i)) as [-> | Hne].
      * rewrite lookup_insert_eq, decide_True; [done | by left].
      * rewrite lookup_insert_ne by done.
        rewrite decide_False; [done |].
        intros [-> | H]%elem_of_cons; done.
Qed.

Lemma emptyGrid_lookup (l : list string) (n : nat) (i : string) :
  emptyGrid l n !! i
  = if decide (i ∈ l) then Some (replicate n false) else None.
Proof. unfold emptyGrid. by rewrite emptyGrid_fold, lookup_empty. Qed.

Lemma gridActive_emptyGrid (l : list string) (n : nat) (i : string)
    (s : nat) :
  gridActive (emptyGrid l n) i s = false.
Proof.
  unfold gridActive. rewrite emptyGrid_lookup.
  case_decide; [| done].
  destruct (replicate n false !! s) as [b |] eqn:E; [| done].
  by apply lookup_replicate in E as [-> _].
Qed.

Lemma arraySet_inside (m : nat) (row : list bool) :
  m < length row -> Js.arraySet m true row = <[m := true]> row.
Proof.
  intros H. unfold Js.arraySet.
  destruct (Nat.ltb_spec m (length row)); [done | lia].
Qed.

(** Striking instrument [r] at step [m]. *)
Lemma gridActive_strike (g : gmap string (list bool)) (r : string)
    (row : list bool) (m : nat) (i : string) (s : nat) :
  g !! r = Some row -> m < length row ->
  gridActive (<[r := Js.arraySet m true row]> g) i s
  = bool_decide (i = r /\ s = m) || gridActive g i s.
Proof.
  intros Hr Hm. rewrite arraySet_inside by done. unfold gridActive.
  destruct (decide (i = r)) as [-> | Hne].
  - rewrite lookup_insert_eq, Hr.
    destruct (decide (s = m)) as [-> | Hs].
    + rewrite list_lookup_insert_eq by done.
      by rewrite bool_decide_eq_true_2.
    + rewrite list_lookup_insert_ne by done.
      rewrite bool_decide_eq_false_2; [done | tauto].
  - rewrite lookup_insert_ne by done.
    rewrite bool_decide_eq_false_2; [done | tauto].
Qed.

Lemma fillInv_empty (catalog fill : list string) (n : nat) :
  fillInv catalog fill n 0 (emptyGrid catalog n).
Proof.
  split.
  - intros i Hi. exists (replicate n false).
    rewrite emptyGrid_lookup, decide_True by done.
    by rewrite length_replicate.
  - intros i row. rewrite emptyGrid_lookup.
    case_decide; [| done]. intros [= <-]. by rewrite length_replicate.
  - intros i s. by rewrite gridActive_emptyGrid.
  - intros i j s. by rewrite gridActive_emptyGrid.
Qed.

Lemma fillInv_skip (catalog fill : list string) (n m : nat)
    (g : gmap string (list bool)) :
  fillInv catalog fill n m g -> fillInv catalog fill n (S m) g.
Proof.
  intros [H1 H2 H3 H4]. split; try done.
  intros i s Ha. destruct (H3 i s Ha). split; [done | lia].
Qed.

Lemma fillInv_strike (catalog fill : list string) (n m : nat)
    (g : gmap string (list bool)) (r : string) (row : list bool) :
  fillInv catalog fill n m g -> m < n -> r ∈ fill -> g !! r = Some row ->
  fillInv catalog fill n (S m) (<[r := Js.arraySet m true row]> g).
Proof.
  intros [H1 H2 H3 H4] Hm Hr Hrow.
  assert (Hlen : length row = n) by eauto.
  assert (Hin : m < length row) by lia.
  split.
  - intros i Hi. destruct (decide (i = r)) as [-> | Hne].
    + rewrite lookup_insert_eq. eexists; split; [done |].
      by rewrite arraySet_inside, length_insert.
    + rewrite lookup_insert_ne by done. by apply H1.
  - intros i row'. destruct (decide (i = r)) as [-> | Hne].
    + rewrite lookup_insert_eq. intros [= <-].
      by rewrite arraySet_inside, length_insert.
    + rewrite lookup_insert_ne by done. apply H2.
  - intros i s. rewrite gridActive_strike by done.
    intros [Hb | Ha]%orb_true_iff.
    + apply bool_decide_eq_true in Hb as [-> ->]. split; [done | lia].
    + destruct (H3 i s Ha). split; [done | lia].
  - intros i j s. rewrite !gridActive_strike by done.
    intros [Hi | Hi]%orb_true_iff [Hj | Hj]%orb_true_iff.
    + apply bool_decide_eq_true in Hi as [-> _].
      by apply bool_decide_eq_true in Hj as [-> _].
    + apply bool_decide_eq_true in Hi as [_ ->].
      destruct (H3 j m Hj). lia.
    + apply bool_decide_eq_true in Hj as [_ ->].
      destruct (H3 i m Hi). lia.
    + eauto.
Qed.

Lemma struckBelow_strike (m : nat) (g : gmap string (list bool))
    (r : string) (row : list bool) :
  struckBelow m g -> g !! r = Some row -> m < length row ->
  struckBelow (S m) (<[r := Js.arraySet m true row]> g).
Proof.
  intros H Hr Hm s Hs. destruct (decide (s = m)) as [-> | Hne].
  - exists r. rewrite gridActive_strike by done.
    by rewrite bool_decide_eq_true_2.
  - destruct (H s ltac:(lia)) as [i Hi]. exists i.
    rewrite gridActive_strike by done. rewrite Hi. apply orb_true_r.
Qed.

End FillGrids.

Section Generators.

Variable random : nat -> Q.
Hypothesis random_unit : unitInterval random.

(** The loop of [_generateFillPattern], up to step [m]. *)
Lemma RockForge_fill_loop (fill : list string) (n k m : nat) :
  fill <> [] -> fill ⊆ RockForgeExporter.allInstruments -> m <= n ->
  exists g,
    fold_left (RockForgeExporter.fillStep random fill) (seq 0 m)
      (Some (emptyGrid RockForgeExporter.allInstruments n, k))
    = Some (g, k + m)
    /\ fillInv RockForgeExporter.allInstruments fill n m g
    /\ struckBelow m g.
Proof.
  intros Hne Hsub. induction m as [| m IH]; intros Hm.
  - exists (emptyGrid RockForgeExporter.allInstruments n).
    rewrite Nat.add_0_r. split; [done |].
    split; [apply fillInv_empty | intros s Hs; lia].
  - destruct IH as (g & Hg & Hinv & Hall); [lia |].
    rewrite seq_S, fold_left_app, Hg. cbn [fold_left Nat.add].
    unfold RockForgeExporter.fillStep. cbn [mbind option_bind].
    destruct (random_unit (k + m)) as [H0 H1].
    destruct (random_index fill (random (k + m)) H0 H1 Hne) as (r & -> & Hr).
    cbn [mbind option_bind Js.propertyKey].
    destruct (inv_rows _ _ _ _ _ Hinv r (Hsub r Hr)) as (row & Hrow & Hlen).
    rewrite Hrow. cbn [mbind option_bind].
    eexists. split; [by rewrite Nat.add_succ_r |].
    split; [apply fillInv_strike; [done | lia | done | done] |].
    apply struckBelow_strike; [done | done | lia].
Qed.

(** The fill loop of the SongDrumMachine exporter, up to step [m]. *)
Lemma SongDrumMachine_fill_loop (config : SongDrumMachineExporter.Config)
    (n k m : nat) :
  SongDrumMachineExporter.FILL_INSTRUMENTS config <> [] ->
  SongDrumMachineExporter.FILL_INSTRUMENTS config
    ⊆ SongDrumMachineExporter.INSTRUMENTS config ->
  m <= n ->
  exists g k',
    fold_left (SongDrumMachineExporter.fillStep random config) (seq 0 m)
      (Some (emptyGrid (SongDrumMachineExporter.INSTRUMENTS config) n, k))
    = Some (g, k')
    /\ fillInv (SongDrumMachineExporter.INSTRUMENTS config)
         (SongDrumMachineExporter.FILL_INSTRUMENTS config) n m g.
Proof.
  intros Hne Hsub. induction m as [| m IH]; intros Hm.
  - eexists _, _. split; [done | apply fillInv_empty].
  - destruct IH as (g & k' & Hg & Hinv); [lia |].
    rewrite seq_S, fold_left_app, Hg. cbn [fold_left Nat.add].
    unfold SongDrumMachineExporter.fillStep. cbn [mbind option_bind].
    destruct (Js.gt (random k') Js.literal_0_4).
    + destruct (random_unit (S k')) as [H0 H1].
      destruct (random_index _ (random (S k')) H0 H1 Hne) as (r & -> & Hr).
      cbn [mbind option_bind Js.propertyKey].
      destruct (inv_rows _ _ _ _ _ Hinv r (Hsub r Hr)) as (row & Hrow & Hlen).
      rewrite Hrow. cbn [mbind option_bind].
      eexists _, _. split; [done |].
      apply fillInv_strike; [done | lia | done | done].
    + eexists _, _. split; [done | by apply fillInv_skip].
Qed.

Lemma generateFill_returns (config : SongDrumMachineExporter.Config)
    (n k : nat) :
  SongDrumMachineExporter.FILL_INSTRUMENTS config <> [] ->
  SongDrumMachineExporter.FILL_INSTRUMENTS config
    ⊆ SongDrumMachineExporter.INSTRUMENTS config ->
  exists g k',
    SongDrumMachineExporter.generateFill random config n k = Some (g, k')
    /\ fillInv (SongDrumMachineExporter.INSTRUMENTS config)
         (SongDrumMachineExporter.FILL_INSTRUMENTS config) n n g.
Proof.
  intros Hne Hsub.
  by apply SongDrumMachine_fill_loop.
Qed.

End Generators.

(** C9.  Both fill generators return, for a requested length [n] and a
    non-empty fill subset of their catalog (the twelve fixed instruments for
    RockForge, [INSTRUMENTS] for SongDrumMachine), a grid that gives every
    instrument of the catalog a row of exactly [n] booleans ([inv_rows]),
    marks at most one instrument at each step ([inv_single]), and only
    instruments of the fill subset, at steps below [n] ([inv_domain]).  The
    RockForge generator marks an instrument at every step below [n]. *)
Theorem fill_grid_shape (random : nat -> Q) (n k : nat) :
  unitInterval random ->
  (forall fill,
     fill <> [] -> fill ⊆ RockForgeExporter.allInstruments ->
     exists g k',
       RockForgeExporter._generateFillPattern random n fill k = Some (g, k')
       /\ fillInv RockForgeExporter.allInstruments fill n n g
       /\ struckBelow n g)
  /\ (forall config,
        SongDrumMachineExporter.FILL_INSTRUMENTS config <> [] ->
        SongDrumMachineExporter.FILL_INSTRUMENTS config
          ⊆ SongDrumMachineExporter.INSTRUMENTS config ->
        exists g k',
          SongDrumMachineExporter.generateFill random config n k = Some (g, k')
          /\ fillInv (SongDrumMachineExporter.INSTRUMENTS config)
               (SongDrumMachineExporter.FILL_INSTRUMENTS config) n n g).
Proof.
  intros Hunit. split.
  - intros fill Hne Hsub.
    destruct (RockForge_fill_loop random Hunit fill n k n Hne Hsub (le_n n))
      as (g & Hg & Hinv & Hall).
    by exists g, (k + n).
  - intros config Hne Hsub. by apply generateFill_returns.
Qed.

(** ** The SongDrumMachine exporter, note by note *)

Section SongDrumMachineNotes.

Import SongDrumMachineExporter.

Variable random : nat -> Q.
Variable ticksPerStep : Z.
Variable config : Config.

Lemma velocityVariation_off (k : nat) :
  isHumanizeOn config = false ->
  velocityVariation random config k = (0%Z, k).
Proof. intros H. unfold velocityVariation. by rewrite H. Qed.

Lemma timingVariation_off (k : nat) :
  isHumanizeOn config = false ->
  timingVariation random ticksPerStep config k = (0%Z, k).
Proof. intros H. unfold timingVariation. by rewrite H. Qed.

Lemma swingDelay_on (step : nat) :
  (0 < swingAmount config)%Q -> Nat.Odd step ->
  swingDelay ticksPerStep config step
  = Js.Math_round (swingAmount config * 2 * inject_Z ticksPerStep).
Proof.
  intros Hs Ho. unfold swingDelay.
  apply gt_spec in Hs. apply Nat.odd_spec in Ho. by rewrite Hs, Ho.
Qed.

Lemma swingDelay_off (step : nat) :
  ~ ((0 < swingAmount config)%Q /\ Nat.Odd step) ->
  swingDelay ticksPerStep config step = 0%Z.
Proof.
  intros H. unfold swingDelay.
  destruct (Js.gt (swingAmount config) 0) eqn:Hs; [| done].
  destruct (Nat.odd step) eqn:Ho; [| done].
  exfalso. apply H. split; [by apply gt_spec | by apply Nat.odd_spec].
Qed.

(** What a note of [compileNote] looks like. *)
Lemma compileNote_Some (patternData : option Pattern)
    (g : gmap string (list bool)) (tick : Z) (step : nat)
    (instrument : string) (k k' : nat) (n : Note) :
  compileNote random ticksPerStep config patternData g tick step
    instrument k = (Some n, k') ->
  let dv := velocityVariation random config k in
  let dt := timingVariation random ticksPerStep config dv.2 in
  gridActive g instrument step = true
  /\ truthyNote (INSTRUMENT_MIDI_NOTES config) instrument = Some (pitch n)
  /\ startTick n = (tick + Z.of_nat step * ticksPerStep
                    + (dt.1 + swingDelay ticksPerStep config step))%Z
  /\ velocity n = (fun b => clampVelocity (b + dv.1))
                    <$> baseVelocity patternData instrument step
  /\ duration n = "16"%string /\ channel n = 10%Z
  /\ k' = dt.2.
Proof.
  unfold compileNote.
  destruct (gridActive g instrument step); [| done].
  destruct (truthyNote (INSTRUMENT_MIDI_NOTES config) instrument); [| done].
  destruct (velocityVariation random config k) as [dv k1].
  destruct (timingVariation random ticksPerStep config k1) as [dt k2] eqn:E.
  intros [= <- <-]. cbn [fst snd]. rewrite E. by cbn.
Qed.

End SongDrumMachineNotes.

(** ** The SongDrumMachine exporter, section by section *)

Section SongDrumMachineSections.

Import SongDrumMachineExporter.

Variable random : nat -> Q.
Variable ticksPerStep : Z.
Variable config : Config.

Lemma addEvent_Forall (P : Note -> Prop) (notes : list Note)
    (t : list (list Note)) :
  Forall P notes -> Forall (Forall P) t -> Forall (Forall P) (addEvent notes t).
Proof.
  intros Hn Ht. destruct notes; [done |].
  apply Forall_app. split; [done | by constructor].
Qed.

(** The notes of a step all come out of [compileNote]. *)
Lemma compileStep_Forall (P : Note -> Prop) (patternData : option Pattern)
    (g : gmap string (list bool)) (tick : Z) (step k : nat) :
  (forall instrument k0 k1 n,
     compileNote random ticksPerStep config patternData g tick step
       instrument k0 = (Some n, k1) -> P n) ->
  Forall P (compileStep random ticksPerStep config patternData g tick
              step k).1.
Proof.
  intros HP. unfold compileStep.
  assert (H : Forall P (([], k) : list Note * nat).1) by constructor.
  revert H. generalize (([], k) : list Note * nat).
  induction (INSTRUMENTS config) as [| i l IH]; intros acc Hacc; [done |].
  cbn [fold_left]. apply IH.
  destruct (compileNote random ticksPerStep config patternData g tick step
              i acc.2) as [[n |] k1] eqn:E; [| done].
  cbn [fst]. apply Forall_app. split; [done |].
  constructor; [by eapply HP | constructor].
Qed.

Lemma steps_currentTick (patternData : option Pattern)
    (g : gmap string (list bool)) (l : list nat) (st : State) :
  currentTick (fold_left (stepBody random ticksPerStep config patternData g)
                 l st)
  = currentTick st.
Proof.
  revert st. induction l as [| s l IH]; intros st; [done |].
  cbn [fold_left]. by rewrite IH.
Qed.

Lemma steps_Forall (P : Note -> Prop) (patternData : option Pattern)
    (g : gmap string (list bool)) (l : list nat) (st : State) :
  (forall step instrument k0 k1 n,
     compileNote random ticksPerStep config patternData g (currentTick st)
       step instrument k0 = (Some n, k1) -> P n) ->
  Forall (Forall P) (track st) ->
  Forall (Forall P)
    (track (fold_left (stepBody random ticksPerStep config patternData g)
              l st)).
Proof.
  revert st. induction l as [| s l IH]; intros st HP Ht; [done |].
  cbn [fold_left]. apply IH.
  - exact HP.
  - cbn [track stepBody]. apply addEvent_Forall; [| done].
    apply compileStep_Forall. intros. by eapply HP.
Qed.

Lemma compileSection_currentTick (patternData : option Pattern)
    (g : gmap string (list bool)) (numSteps : nat) (st : State) :
  currentTick (compileSection random ticksPerStep config patternData g
                 numSteps st)
  = (currentTick st + Z.of_nat numSteps * ticksPerStep)%Z.
Proof. done. Qed.

Lemma compileSection_Forall (P : Note -> Prop)
    (patternData : option Pattern) (g : gmap string (list bool))
    (numSteps : nat) (st : State) :
  (forall step instrument k0 k1 n,
     compileNote random ticksPerStep config patternData g (currentTick st)
       step instrument k0 = (Some n, k1) -> P n) ->
  Forall (Forall P) (track st) ->
  Forall (Forall P)
    (track (compileSection random ticksPerStep config patternData g
              numSteps st)).
Proof. intros HP Ht. cbn [compileSection track]. by apply steps_Forall. Qed.

(** Notes keep a property [P] that [compileNote] gives them at every
    cursor position satisfying [J], when [J] holds at 0 and is kept by
    the advance of the cursor. *)
Section Lifting.

Variable J : Z -> Prop.
Variable P : Note -> Prop.
Hypothesis J_advance :
  forall t n, J t -> J (t + Z.of_nat n * ticksPerStep)%Z.
Hypothesis P_note :
  forall patternData g tick step instrument k0 k1 n,
    J tick ->
    compileNote random ticksPerStep config patternData g tick step
      instrument k0 = (Some n, k1) -> P n.

Lemma exportSection_Forall (structureArray : list ascii) (st st' : State)
    (index : nat) (c : ascii) :
  J (currentTick st) -> Forall (Forall P) (track st) ->
  exportSection random ticksPerStep config structureArray st index c
    = Some st' ->
  J (currentTick st') /\ Forall (Forall P) (track st').
Proof.
  intros HJ Ht. unfold exportSection.
  destruct (Js.isFillDigit c).
  - destruct (generateFill random config (Js.parseInt c) (calls st))
      as [[g k] |]; [| done].
    cbn [mbind option_bind]. intros [= <-]. split.
    + rewrite compileSection_currentTick. by apply J_advance.
    + apply compileSection_Forall; [| done].
      intros. by eapply P_note.
  - destruct (findPattern config c) as [entry |].
    + intros [= <-]. split.
      * rewrite compileSection_currentTick. by apply J_advance.
      * apply compileSection_Forall; [| done].
        intros. by eapply P_note.
    + by intros [= <-].
Qed.

Lemma exportFrom_Forall (structureArray rest : list ascii) (index : nat)
    (st st' : State) :
  J (currentTick st) -> Forall (Forall P) (track st) ->
  exportFrom random ticksPerStep config structureArray index rest st
    = Some st' ->
  J (currentTick st') /\ Forall (Forall P) (track st').
Proof.
  revert index st. induction rest as [| c rest IH]; intros index st HJ Ht.
  - by intros [= <-].
  - cbn [exportFrom].
    destruct (exportSection random ticksPerStep config structureArray st
                index c) as [st1 |] eqn:E; [| done].
    cbn [mbind option_bind].
    destruct (exportSection_Forall _ _ _ _ _ HJ Ht E) as [HJ1 Ht1].
    by apply IH.
Qed.

Lemma compileSong_Forall (st : State) :
  J 0%Z ->
  compileSong random ticksPerStep config = Some st ->
  J (currentTick st) /\ Forall (Forall P) (track st).
Proof.
  intros HJ0. unfold compileSong.
  apply exportFrom_Forall; [done | constructor].
Qed.

End Lifting.

(** Every note of the exported track was made by [compileNote]. *)
Lemma compileSong_provenance (st : State) :
  compileSong random ticksPerStep config = Some st ->
  Forall (Forall (fun n =>
            exists patternData g tick step instrument k0 k1,
              compileNote random ticksPerStep config patternData g tick step
                instrument k0 = (Some n, k1)))
    (track st).
Proof.
  intros Hsong.
  refine (proj2 (compileSong_Forall (fun _ => True) _ _ _ st I Hsong)).
  - done.
  - intros patternData g tick step instrument k0 k1 n _ Hn.
    by exists patternData, g, tick, step, instrument, k0, k1.
Qed.

End SongDrumMachineSections.

Lemma constant_unitInterval (q : Q) :
  (0 <= q)%Q -> (q < 1)%Q -> unitInterval (Examples.constant q).
Proof. intros H0 H1 k. by split. Qed.

Lemma truthyNote_Some (midiNotes : gmap string Z) (instrument : string)
    (m : Z) :
  truthyNote midiNotes instrument = Some m ->
  midiNotes !! instrument = Some m /\ m <> 0%Z.
Proof.
  unfold truthyNote. destruct (midiNotes !! instrument) as [n |]; [| done].
  destruct (Z.eqb_spec n 0); [done |]. by intros [= <-].
Qed.

Lemma fold_left_bind_None {A B} (f : A -> B -> option A) (l : list B) :
  fold_left (fun acc x => acc ≫= fun a => f a x) l None = None.
Proof. induction l as [| x l IH]; [done | exact IH]. Qed.

Lemma rescale_div (stored : Z) :
  rescale stored = ((200 * stored + 127) / 254)%Z.
Proof.
  unfold rescale, Js.Math_round.
  rewrite (Qfloor_comp (inject_Z stored / 127 * 100 + (1 # 2))
             ((200 * stored + 127) # 254)).
  - reflexivity.
  - unfold Qeq, Qdiv, Qmult, Qplus, Qinv, inject_Z. cbn [Qnum Qden].
    change (Z.pos (1 * 127 * 1)) with 127%Z.
    change (Z.pos (1 * 127 * 1 * 2)) with 254%Z. lia.
Qed.

Lemma rescale_nearest (stored : Z) : nearestPercent stored (rescale stored).
Proof.
  unfold nearestPercent. rewrite rescale_div.
  pose proof (Z.div_mod (200 * stored + 127) 254 ltac:(lia)) as Hdiv.
  pose proof (Z.mod_pos_bound (200 * stored + 127) 254 ltac:(lia)) as Hmod.
  lia.
Qed.

Lemma nearestPercent_unique (stored r1 r2 : Z) :
  nearestPercent stored r1 -> nearestPercent stored r2 -> r1 = r2.
Proof. unfold nearestPercent. lia. Qed.

Lemma pitchAt_Some (midiNotes : gmap string Z) (g : gmap string (list bool))
    (step : nat) (instrument : string) (m : Z) :
  pitchAt midiNotes g step instrument = Some m <->
  gridActive g instrument step = true
  /\ truthyNote midiNotes instrument = Some m.
Proof.
  unfold pitchAt. destruct (gridActive g instrument step).
  - split; [by intros H | by intros [_ H]].
  - split; [done | by intros [H _]].
Qed.

(** The SongDrumMachine loops, batch by batch. *)
Section SongDrumMachineExact.

Import SongDrumMachineExporter.

Variable random : nat -> Q.
Variable ticksPerStep : Z.
Variable config : Config.






End SongDrumMachineExact.

(** A subset test that computes on explicit lists. *)
Lemma subseteq_decide (l1 l2 : list string) :
  bool_decide (Forall (fun x => x ∈ l2) l1) = true -> l1 ⊆ l2.
Proof.
  intros H%bool_decide_eq_true x Hx.
  rewrite Forall_forall in H. by apply H.
Qed.

(** ** The claims on the SongDrumMachine exporter *)

Section SongDrumMachineClaims.

Import SongDrumMachineExporter.

(** C2.  The base velocity of a note whose pattern has a velocity row for
    the instrument is [rescale] of the stored entry at the step, and
    [rescale v] is the integer nearest to v / 127 * 100, a half rounded up;
    [rescale] sends 127 to 100, sends 0 to a value the final clamp raises to
    1, stays within 0..100 on 0..127 and is monotonic; the clamp leaves
    1..100 as it is, raises what is below to 1 and lowers what is above to
    100.  The velocity of the note that [compileNote] emits for the entry is
    the clamp of that nearest integer plus the velocity variation, which is
    0 with the humanize toggle off: then a stored 127 gives velocity 100 and
    a stored 0 gives velocity 1.  With no pattern bound, or no velocity row
    for the instrument, the base velocity is the default 100, and so is the
    velocity of the note with the toggle off. *)
Theorem velocity_rescaling (p : Pattern) (instrument : string)
    (row : list Z) (step : nat) (v w : Z) :
  velocities p !! instrument = Some row -> row !! step = Some v ->
  (0 <= v <= 127)%Z -> (v <= w <= 127)%Z ->
  baseVelocity (Some p) instrument step = Some (rescale v)
  /\ rescale 127 = 100%Z
  /\ clampVelocity (rescale 0) = 1%Z
  /\ (0 <= rescale v <= 100)%Z
  /\ (rescale v <= rescale w)%Z
  /\ baseVelocity None instrument step = Some 100%Z
  /\ nearestPercent v (rescale v)
  /\ (forall x,
        ((x < 1)%Z -> clampVelocity x = 1%Z)
        /\ ((1 <= x <= 100)%Z -> clampVelocity x = x)
        /\ ((100 < x)%Z -> clampVelocity x = 100%Z))
  /\ (forall random ticksPerStep config g tick k k' n,
        compileNote random ticksPerStep config (Some p) g tick step
          instrument k = (Some n, k') ->
        exists r,
          nearestPercent v r
          /\ velocity n
             = Some (Z.max 1
                       (Z.min 100 (r + (velocityVariation random config k).1)))
          /\ (isHumanizeOn config = false ->
              velocity n = Some (Z.max 1 r)
              /\ (v = 127%Z -> velocity n = Some 100%Z)
              /\ (v = 0%Z -> velocity n = Some 1%Z)))
  /\ (forall random ticksPerStep config patternData g tick k k' n,
        patternData = None
        \/ (exists q,
              patternData = Some q /\ velocities q !! instrument = None) ->
        isHumanizeOn config = false ->
        compileNote random ticksPerStep config patternData g tick step
          instrument k = (Some n, k') ->
        velocity n = Some 100%Z).
Proof.
  intros Hrow Hv Hrange Hw.
  assert (H0 : rescale 0 = 0%Z) by reflexivity.
  assert (H127 : rescale 127 = 100%Z) by reflexivity.
  assert (Hbase : baseVelocity (Some p) instrument step = Some (rescale v)).
  { unfold baseVelocity, rescaleAt. by rewrite Hrow, Hv. }
  assert (Hin : (0 <= rescale v <= 100)%Z).
  { split.
    - rewrite <- H0. apply rescale_mono. lia.
    - rewrite <- H127. apply rescale_mono. lia. }
  split_and!.
  - exact Hbase.
  - exact H127.
  - rewrite H0. reflexivity.
  - apply Hin.
  - apply Hin.
  - apply rescale_mono. lia.
  - reflexivity.
  - apply rescale_nearest.
  - intros x. unfold clampVelocity. split_and!; lia.
  - intros random ticksPerStep config g tick k k' n Hn.
    destruct (compileNote_Some _ _ _ _ _ _ _ _ _ _ _ Hn)
      as (_ & _ & _ & Hvel & _).
    rewrite Hbase in Hvel.
    change (velocity n
            = Some (clampVelocity
                      (rescale v + (velocityVariation random config k).1)))
      in Hvel.
    exists (rescale v). split_and!.
    + apply rescale_nearest.
    + exact Hvel.
    + intros Hoff. rewrite velocityVariation_off in Hvel by done.
      cbn [fst] in Hvel. rewrite Z.add_0_r in Hvel.
      unfold clampVelocity in Hvel.
      split_and!.
      * rewrite Hvel. f_equal. lia.
      * intros ->. by rewrite Hvel, H127.
      * intros ->. by rewrite Hvel, H0.
  - intros random ticksPerStep config patternData g tick k k' n Hpd Hoff Hn.
    destruct (compileNote_Some _ _ _ _ _ _ _ _ _ _ _ Hn)
      as (_ & _ & _ & Hvel & _).
    rewrite velocityVariation_off in Hvel by done.
    assert (Hdefault : baseVelocity patternData instrument step
                       = Some 100%Z).
    { destruct Hpd as [-> | (q & -> & Hq)]; [done |].
      unfold baseVelocity. by rewrite Hq. }
    by rewrite Hvel, Hdefault.
Qed.

Lemma velocity_rescaling_witness :
  let config := Examples.song "A" [("seq-1", Examples.patternA)] false 0 in
  baseVelocity (Some Examples.patternA) "snare" 1 = Some 63%Z
  /\ rescale 80 = 63%Z
  /\ nearestPercent 80 63
  /\ clampVelocity (rescale 0) = 1%Z
  /\ (rescale 80 <= rescale 100)%Z
  /\ exists n,
       compileNote (Examples.constant (9 # 10)) 128 config
         (Some Examples.patternA) (grid Examples.patternA) 0 1 "snare" 0
       = (Some n, 0)
       /\ velocity n = Some 63%Z.
Proof.
  intros config.
  destruct (velocity_rescaling Examples.patternA "snare"
              [64; 80; 3; 64]%Z 1 80 100)
    as (Hbase & _ & Hzero & _ & Hmono & _ & Hnear & _ & Hnote & _).
  - reflexivity.
  - reflexivity.
  - lia.
  - lia.
  - assert (H63 : rescale 80 = 63%Z).
    { apply (nearestPercent_unique 80); [exact Hnear |].
      unfold nearestPercent. lia. }
    rewrite H63 in Hbase, Hnear.
    split; [exact Hbase |]. split; [exact H63 |]. split; [exact Hnear |].
    split; [exact Hzero |]. split; [exact Hmono |].
    eassert (E : compileNote (Examples.constant (9 # 10)) 128 config
                   (Some Examples.patternA) (grid Examples.patternA) 0 1
                   "snare" 0 = (Some _, 0)) by (vm_compute; reflexivity).
    eexists. split; [exact E |].
    destruct (Hnote _ _ _ _ _ _ _ _ E) as (r & Hr & _ & Hoff).
    destruct (Hoff eq_refl) as (Hvel & _).
    rewrite Hvel. f_equal.
    rewrite (nearestPercent_unique 80 r 63 Hr Hnear). reflexivity.
Defined.

(** C3.  The start tick of every compiled note is the section base tick
    plus step times ticksPerStep plus the humanization timing offset, plus
    [Math.round(swingAmount * 2 * ticksPerStep)] exactly when swingAmount is
    positive and the step is odd; with the humanize toggle off the
    humanization offset is zero, so the swing offset is all that is added. *)
Theorem swing_offset (random : nat -> Q) (ticksPerStep : Z) (config : Config)
    (patternData : option Pattern) (g : gmap string (list bool)) (tick : Z)
    (step : nat) (instrument : string) (k k' : nat) (n : Note) :
  compileNote random ticksPerStep config patternData g tick step instrument k
    = (Some n, k') ->
  let human :=
    (timingVariation random ticksPerStep config
       (velocityVariation random config k).2).1 in
  ((0 < swingAmount config)%Q /\ Nat.Odd step ->
   startTick n
   = (tick + Z.of_nat step * ticksPerStep + human
      + Js.Math_round (swingAmount config * 2 * inject_Z ticksPerStep))%Z)
  /\ (~ ((0 < swingAmount config)%Q /\ Nat.Odd step) ->
      startTick n = (tick + Z.of_nat step * ticksPerStep + human)%Z)
  /\ (isHumanizeOn config = false -> human = 0%Z).
Proof.
  intros Hn human.
  destruct (compileNote_Some _ _ _ _ _ _ _ _ _ _ _ Hn)
    as (_ & _ & Hstart & _).
  fold human in Hstart. split_and!.
  - intros [Hs Ho]. rewrite Hstart, swingDelay_on by done. lia.
  - intros Hno. rewrite Hstart, swingDelay_off by done. lia.
  - intros Hoff. subst human.
    by rewrite velocityVariation_off, timingVariation_off.
Qed.

(** C4.  With the humanize toggle off, whatever the configured amounts,
    the velocity and timing variations are zero and draw no random number;
    the velocity of the note is the clamped base velocity and its start
    tick is the section base tick plus step times ticksPerStep plus the
    swing delay of the step. *)
Theorem humanize_off (random : nat -> Q) (ticksPerStep : Z) (config : Config)
    (patternData : option Pattern) (g : gmap string (list bool)) (tick : Z)
    (step : nat) (instrument : string) (k k' : nat) (n : Note) :
  isHumanizeOn config = false ->
  compileNote random ticksPerStep config patternData g tick step instrument k
    = (Some n, k') ->
  velocityVariation random config k = (0%Z, k)
  /\ timingVariation random ticksPerStep config k = (0%Z, k)
  /\ velocity n = clampVelocity <$> baseVelocity patternData instrument step
  /\ startTick n = (tick + Z.of_nat step * ticksPerStep
                    + swingDelay ticksPerStep config step)%Z
  /\ k' = k.
Proof.
  intros Hoff Hn.
  destruct (compileNote_Some _ _ _ _ _ _ _ _ _ _ _ Hn)
    as (_ & _ & Hstart & Hvel & _ & _ & Hk).
  rewrite velocityVariation_off in Hstart, Hvel, Hk by done.
  cbn [fst snd] in Hstart, Hvel, Hk.
  rewrite timingVariation_off in Hstart, Hk by done.
  cbn [fst snd] in Hstart, Hk.
  split_and!.
  - by apply velocityVariation_off.
  - by apply timingVariation_off.
  - rewrite Hvel. destruct (baseVelocity patternData instrument step); [| done].
    cbn. by rewrite Z.add_0_r.
  - rewrite Hstart. lia.
  - done.
Qed.

Lemma swing_offset_witness :
  let config := Examples.song "A" [("seq-1", Examples.patternA)] false (1 # 10) in
  let n := {| pitch := 38; duration := "16"; startTick := 154;
              velocity := Some 63%Z; channel := 10 |} in
  compileNote (Examples.constant (9 # 10)) 128 config (Some Examples.patternA)
    (grid Examples.patternA) 0 1 "snare" 0 = (Some n, 0)
  /\ startTick n
     = (0 + Z.of_nat 1 * 128 + 0
        + Js.Math_round ((1 # 10) * 2 * inject_Z 128))%Z.
Proof.
  intros config n.
  assert (H : compileNote (Examples.constant (9 # 10)) 128 config
                (Some Examples.patternA) (grid Examples.patternA) 0 1
                "snare" 0 = (Some n, 0)) by (vm_compute; reflexivity).
  split; [exact H |].
  destruct (swing_offset _ _ _ _ _ _ _ _ _ _ _ H) as (Hodd & _ & _).
  apply Hodd. split; [reflexivity | exists 0; reflexivity].
Defined.

Lemma humanize_off_witness :
  let config := Examples.song "A" [("seq-1", Examples.patternA)] false (1 # 10) in
  let n := {| pitch := 36; duration := "16"; startTick := 256;
              velocity := Some 50%Z; channel := 10 |} in
  isHumanizeOn config = false
  /\ compileNote (Examples.constant (9 # 10)) 128 config
       (Some Examples.patternA) (grid Examples.patternA) 0 2 "kick" 7
     = (Some n, 7)
  /\ velocity n
     = clampVelocity <$> baseVelocity (Some Examples.patternA) "kick" 2
  /\ startTick n = (0 + Z.of_nat 2 * 128 + swingDelay 128 config 2)%Z.
Proof.
  intros config n.
  assert (H : compileNote (Examples.constant (9 # 10)) 128 config
                (Some Examples.patternA) (grid Examples.patternA) 0 2
                "kick" 7 = (Some n, 7)) by (vm_compute; reflexivity).
  split; [reflexivity |]. split; [exact H |].
  destruct (humanize_off (Examples.constant (9 # 10)) 128 config
              (Some Examples.patternA) (grid Examples.patternA) 0 2 "kick"
              7 7 n eq_refl H)
    as (_ & _ & Hvel & Hstart & _).
  by split.
Defined.

(** C7.  When the song structure is empty or there is no sequencer, the
    export alerts once with the message of line 152 and returns: no track is
    built, no section is compiled and nothing is downloaded. *)
Theorem empty_input_aborts (random : nat -> Q) (ticksPerStep : Z)
    (config : Config) :
  songStructure config = EmptyString \/ sequencersData config = [] ->
  exportSong random ticksPerStep config
  = Alerted "Please define a song structure and have at least one sequencer pattern."
  /\ (forall tempo final,
        exportSong random ticksPerStep config <> Downloaded tempo final)
  /\ exportSong random ticksPerStep config <> Thrown.
Proof.
  intros H.
  assert (E : exportSong random ticksPerStep config
              = Alerted "Please define a song structure and have at least one sequencer pattern.").
  { unfold exportSong. destruct H as [-> | ->]; [done |].
    by rewrite orb_true_r. }
  rewrite E. by split_and!.
Qed.

Lemma empty_input_aborts_witness :
  let config := Examples.song "" [("seq-1", Examples.patternA)] true (1 # 10) in
  (songStructure config = EmptyString \/ sequencersData config = [])
  /\ exportSong (Examples.constant (9 # 10)) 128 config
     = Alerted "Please define a song structure and have at least one sequencer pattern.".
Proof.
  intros config.
  assert (H : songStructure config = EmptyString \/ sequencersData config = [])
    by (left; reflexivity).
  split; [exact H |].
  exact (proj1 (empty_input_aborts (Examples.constant (9 # 10)) 128 config H)).
Defined.

(** The loop over a concatenation of tokens. *)
Lemma exportFrom_app (random : nat -> Q) (ticksPerStep : Z) (config : Config)
    (structureArray pre post : list ascii) (index : nat) (st : State) :
  exportFrom random ticksPerStep config structureArray index (pre ++ post) st
  = exportFrom random ticksPerStep config structureArray index pre st
      ≫= exportFrom random ticksPerStep config structureArray
            (index + length pre) post.
Proof.
  revert index st. induction pre as [| c pre IH]; intros index st.
  - cbn. by rewrite Nat.add_0_r.
  - cbn [app exportFrom length].
    destruct (exportSection random ticksPerStep config structureArray st
                index c) as [st1 |]; [| done].
    cbn [mbind option_bind]. rewrite IH.
    by replace (S index + length pre) with (index + S (length pre)) by lia.
Qed.

(** C6.  A token that is not a digit 1-9 and names no pattern leaves the
    loop state as it is: no event, no tick.  Hence in any arrangement the
    tokens after it are compiled from exactly the state in which the tokens
    before it ended. *)
Theorem unknown_token_skipped (random : nat -> Q) (ticksPerStep : Z)
    (config : Config) (structureArray pre post : list ascii) (index : nat)
    (c : ascii) (st : State) :
  Js.isFillDigit c = false -> findPattern config c = None ->
  exportSection random ticksPerStep config structureArray st index c = Some st
  /\ exportFrom random ticksPerStep config structureArray index
       (pre ++ c :: post) st
     = exportFrom random ticksPerStep config structureArray index pre st
         ≫= exportFrom random ticksPerStep config structureArray
               (S (index + length pre)) post.
Proof.
  intros Hd Hf.
  assert (Hskip : forall st0 i,
            exportSection random ticksPerStep config structureArray st0 i c
            = Some st0).
  { intros st0 i. unfold exportSection. by rewrite Hd, Hf. }
  split; [apply Hskip |].
  rewrite exportFrom_app.
  destruct (exportFrom random ticksPerStep config structureArray index pre st)
    as [st1 |]; [| done].
  cbn [mbind option_bind exportFrom]. by rewrite Hskip.
Qed.

Lemma unknown_token_skipped_witness :
  let config := Examples.song "AXB"
                  [("seq-1", Examples.patternA); ("seq-2", Examples.patternB)]
                  false 0 in
  let st := {| track := []; currentTick := 512; calls := 0 |} in
  Js.isFillDigit "X" = false /\ findPattern config "X" = None
  /\ exportSection (Examples.constant (9 # 10)) 128 config
       (Js.spread "AXB") st 1 "X" = Some st.
Proof.
  intros config st.
  assert (Hd : Js.isFillDigit "X" = false) by reflexivity.
  assert (Hf : findPattern config "X" = None) by reflexivity.
  split; [exact Hd |]. split; [exact Hf |].
  exact (proj1 (unknown_token_skipped (Examples.constant (9 # 10)) 128 config
                  (Js.spread "AXB") [] [] 1 "X" st Hd Hf)).
Defined.

(** "AXB" with patterns A (4 steps) and B (2 steps): B starts at the tick
    where A ends, and the export is the one of "AB". *)
Example AXB_contiguous :
  let patterns := [("seq-1", Examples.patternA); ("seq-2", Examples.patternB)] in
  compileSong (Examples.constant (9 # 10)) 128
    (Examples.song "AXB" patterns false 0)
  = compileSong (Examples.constant (9 # 10)) 128
      (Examples.song "AB" patterns false 0)
  /\ (currentTick <$> compileSong (Examples.constant (9 # 10)) 128
                        (Examples.song "AXB" patterns false 0))
     = Some ((4 + 2) * 128)%Z.
Proof. split; vm_compute; reflexivity. Qed.



Lemma swingDelay_nonneg (ticksPerStep : Z) (config : Config) (step : nat) :
  (0 <= ticksPerStep)%Z -> (0 <= swingDelay ticksPerStep config step)%Z.
Proof.
  intros Ht. unfold swingDelay.
  destruct (Js.gt (swingAmount config) 0) eqn:Hs; [| done].
  destruct (Nat.odd step); [| done]. cbn [andb].
  apply Math_round_nonneg. apply gt_spec in Hs.
  rewrite Zle_Qle in Ht. change (inject_Z 0) with 0%Q in Ht. nra.
Qed.

Lemma timingFloor_nonpos (ticksPerStep : Z) (config : Config) :
  (0 <= ticksPerStep)%Z -> (0 <= timingHumanizeAmount config)%Q ->
  (timingFloor ticksPerStep config <= 0)%Z.
Proof.
  intros Ht Ha. unfold timingFloor.
  rewrite Zle_Qle in Ht. change (inject_Z 0) with 0%Q in Ht.
  apply (Math_round_mono _ 0). nra.
Qed.

Lemma timingVariation_lower (random : nat -> Q) (ticksPerStep : Z)
    (config : Config) (k : nat) :
  unitInterval random -> (0 <= ticksPerStep)%Z ->
  (0 <= timingHumanizeAmount config)%Q ->
  (timingFloor ticksPerStep config
   <= (timingVariation random ticksPerStep config k).1)%Z.
Proof.
  intros Hunit Ht Ha. unfold timingVariation.
  destruct (isHumanizeOn config && Js.gt (timingHumanizeAmount config) 0).
  - cbn [fst]. unfold timingFloor. apply Math_round_mono.
    destruct (Hunit k) as [Hr _].
    rewrite Zle_Qle in Ht. change (inject_Z 0) with 0%Q in Ht.
    set (T := (inject_Z ticksPerStep * (1 # 4))%Q).
    assert (HT : (0 <= T)%Q) by (subst T; lra).
    assert (HTa : (0 <= T * timingHumanizeAmount config)%Q) by nra.
    nra.
  - cbn [fst]. by apply timingFloor_nonpos.
Qed.





Lemma fill_grid_shape_witness :
  let random := Examples.constant (9 # 10) in
  let config := Examples.song "3" [("seq-1", Examples.patternA)] false 0 in
  unitInterval random
  /\ (exists g k',
        RockForgeExporter._generateFillPattern random 3 ["snare"; "tom1"] 0
        = Some (g, k')
        /\ fillInv RockForgeExporter.allInstruments ["snare"; "tom1"] 3 3 g
        /\ struckBelow 3 g)
  /\ (exists g k',
        generateFill random config 3 0 = Some (g, k')
        /\ fillInv (INSTRUMENTS config) (FILL_INSTRUMENTS config) 3 3 g).
Proof.
  intros random config.
  assert (Hunit : unitInterval random)
    by (apply constant_unitInterval; [discriminate | reflexivity]).
  destruct (fill_grid_shape random 3 0 Hunit) as [Hrock Hsong].
  split; [exact Hunit |]. split.
  - apply Hrock; [discriminate |].
    apply subseteq_decide. vm_compute. reflexivity.
  - apply Hsong; [discriminate |].
    apply subseteq_decide. vm_compute. reflexivity.
Defined.

End SongDrumMachineClaims.

(** ** The note mapping *)

Lemma fold_left_ext_eq {A B} (f g : A -> B -> A) (l : list B) (a : A) :
  (forall x y, f x y = g x y) -> fold_left f l a = fold_left g l a.
Proof.
  intros H. revert a. induction l as [| b l IH]; intros a; [done |].
  cbn [fold_left]. by rewrite H, IH.
Qed.

Lemma truthyNote_zero (midiNotes : gmap string Z) (i : string) :
  midiNotes !! i = Some 0%Z -> truthyNote midiNotes i = None.
Proof. intros H. unfold truthyNote. by rewrite H. Qed.

Lemma truthyNote_delete_zero (midiNotes : gmap string Z) (i j : string) :
  midiNotes !! i = Some 0%Z ->
  truthyNote (delete i midiNotes) j = truthyNote midiNotes j.
Proof.
  intros H. unfold truthyNote. destruct (decide (i = j)) as [<- | Hne].
  - by rewrite lookup_delete_eq, H.
  - by rewrite lookup_delete_ne.
Qed.

Section NotesSongDrumMachine.

Import SongDrumMachineExporter.

Variable random : nat -> Q.
Variable ticksPerStep : Z.
Variable config : Config.
Variables notes1 notes2 : gmap string Z.
Hypothesis same_truthy : forall j, truthyNote notes1 j = truthyNote notes2 j.

Lemma compileNote_notes (patternData : option Pattern)
    (g : gmap string (list bool)) (tick : Z) (step : nat)
    (instrument : string) (k : nat) :
  compileNote random ticksPerStep (withNotes config notes1) patternData g
    tick step instrument k
  = compileNote random ticksPerStep (withNotes config notes2) patternData g
      tick step instrument k.
Proof.
  unfold compileNote. cbn [INSTRUMENT_MIDI_NOTES withNotes].
  by rewrite same_truthy.
Qed.

Lemma compileStep_notes (patternData : option Pattern)
    (g : gmap string (list bool)) (tick : Z) (step k : nat) :
  compileStep random ticksPerStep (withNotes config notes1) patternData g
    tick step k
  = compileStep random ticksPerStep (withNotes config notes2) patternData g
      tick step k.
Proof.
  unfold compileStep. cbn [INSTRUMENTS withNotes].
  apply fold_left_ext_eq. intros acc i. by rewrite compileNote_notes.
Qed.

Lemma compileSection_notes (patternData : option Pattern)
    (g : gmap string (list bool)) (numSteps : nat) (st : State) :
  compileSection random ticksPerStep (withNotes config notes1) patternData g
    numSteps st
  = compileSection random ticksPerStep (withNotes config notes2) patternData
      g numSteps st.
Proof.
  unfold compileSection.
  rewrite (fold_left_ext_eq
             (stepBody random ticksPerStep (withNotes config notes1)
                patternData g)
             (stepBody random ticksPerStep (withNotes config notes2)
                patternData g)); [done |].
  intros s step. unfold stepBody. by rewrite compileStep_notes.
Qed.

Lemma exportSection_notes (structureArray : list ascii) (st : State)
    (index : nat) (c : ascii) :
  exportSection random ticksPerStep (withNotes config notes1) structureArray
    st index c
  = exportSection random ticksPerStep (withNotes config notes2)
      structureArray st index c.
Proof.
  unfold exportSection.
  change (generateFill random (withNotes config notes1))
    with (generateFill random (withNotes config notes2)).
  change (findPattern (withNotes config notes1))
    with (findPattern (withNotes config notes2)).
  destruct (Js.isFillDigit c).
  - destruct (generateFill random (withNotes config notes2) (Js.parseInt c)
                (calls st)) as [[g k] |]; [| done].
    cbn [mbind option_bind]. by rewrite compileSection_notes.
  - destruct (findPattern (withNotes config notes2) c); [| done].
    by rewrite compileSection_notes.
Qed.

Lemma exportFrom_notes (structureArray rest : list ascii) (index : nat)
    (st : State) :
  exportFrom random ticksPerStep (withNotes config notes1) structureArray
    index rest st
  = exportFrom random ticksPerStep (withNotes config notes2) structureArray
      index rest st.
Proof.
  revert index st. induction rest as [| c rest IH]; intros index st; [done |].
  cbn [exportFrom]. rewrite exportSection_notes.
  destruct (exportSection random ticksPerStep (withNotes config notes2)
              structureArray st index c); [| done].
  cbn [mbind option_bind]. apply IH.
Qed.

Lemma exportSong_notes :
  exportSong random ticksPerStep (withNotes config notes1)
  = exportSong random ticksPerStep (withNotes config notes2).
Proof.
  unfold exportSong, compileSong. cbn [songStructure sequencersData bpm withNotes].
  by rewrite exportFrom_notes.
Qed.

End NotesSongDrumMachine.

Lemma withNotes_same (config : SongDrumMachineExporter.Config) :
  withNotes config (SongDrumMachineExporter.INSTRUMENT_MIDI_NOTES config)
  = config.
Proof. by destruct config. Qed.

Lemma withNotesRF_same (params : RockForgeExporter.Params) :
  withNotesRF params (RockForgeExporter.INSTRUMENT_MIDI_NOTES params) = params.
Proof. by destruct params. Qed.

Section NotesRockForge.

Import RockForgeExporter.

Variable random : nat -> Q.
Variable params : Params.
Variables notes1 notes2 : gmap string Z.
Hypothesis same_truthy : forall j, truthyNote notes1 j = truthyNote notes2 j.

Lemma noteEvent_notes (g : gmap string (list bool)) (data : Pattern)
    (ticks : Z) (step : nat) (instrument : string) :
  noteEvent (withNotesRF params notes1) g data ticks step instrument
  = noteEvent (withNotesRF params notes2) g data ticks step instrument.
Proof.
  unfold noteEvent. cbn [INSTRUMENT_MIDI_NOTES withNotesRF].
  by rewrite same_truthy.
Qed.

Lemma notesForStep_notes (g : gmap string (list bool)) (data : Pattern)
    (ticks : Z) (step : nat) :
  notesForStep (withNotesRF params notes1) g data ticks step
  = notesForStep (withNotesRF params notes2) g data ticks step.
Proof.
  unfold notesForStep. cbn [INSTRUMENTS withNotesRF].
  apply fold_left_ext_eq. intros acc i. by rewrite noteEvent_notes.
Qed.

Lemma compileSteps_notes (g : gmap string (list bool)) (data : Pattern)
    (numSteps : nat) (st : State) :
  compileSteps (withNotesRF params notes1) g data numSteps st
  = compileSteps (withNotesRF params notes2) g data numSteps st.
Proof.
  unfold compileSteps. f_equal.
  apply fold_left_ext_eq. intros acc step. by rewrite notesForStep_notes.
Qed.

Lemma exportItem_notes (st : State) (item : ascii) :
  exportItem random (withNotesRF params notes1) st item
  = exportItem random (withNotesRF params notes2) st item.
Proof.
  unfold exportItem. cbn [sequencersData FILL_INSTRUMENTS withNotesRF].
  destruct (Js.isUpperLetter item).
  - destruct (truthyId (findSequencerId (sequencersData params) item));
      [| done].
    destruct (sequencer (sequencersData params) s); [| done].
    cbn [mbind option_bind]. apply compileSteps_notes.
  - destruct (Js.isFillDigit item); [| done].
    destruct (_generateFillPattern random (Js.parseInt item)
                (FILL_INSTRUMENTS params) (calls st)) as [[g k] |]; [| done].
    cbn [mbind option_bind].
    destruct (truthyId (head (map fst (sequencersData params)))); [| done].
    destruct (sequencer (sequencersData params) s); [| done].
    cbn [mbind option_bind]. apply compileSteps_notes.
Qed.

Lemma RockForge_exportSong_notes (midiWriterDefined : bool) :
  exportSong random (withNotesRF params notes1) midiWriterDefined
  = exportSong random (withNotesRF params notes2) midiWriterDefined.
Proof.
  unfold exportSong, compileSong. cbn [songStructure bpm withNotesRF].
  rewrite (fold_left_ext_eq
             (fun acc item =>
                acc ≫= fun st =>
                  exportItem random (withNotesRF params notes1) st item)
             (fun acc item =>
                acc ≫= fun st =>
                  exportItem random (withNotesRF params notes2) st item));
    [done |].
  intros [st |] item; [| done]. cbn [mbind option_bind].
  apply exportItem_notes.
Qed.

Lemma Revised_exportItem_notes (ls : RockForgeExporterRevised.LoopState)
    (item : ascii) :
  RockForgeExporterRevised.exportItem random (withNotesRF params notes1)
    ls item
  = RockForgeExporterRevised.exportItem random (withNotesRF params notes2)
      ls item.
Proof.
  unfold RockForgeExporterRevised.exportItem,
    RockForgeExporterRevised.sequencerIdForFillSounds.
  cbn [sequencersData FILL_INSTRUMENTS withNotesRF].
  destruct (Js.isUpperLetter item).
  - destruct (truthyId (findSequencerId (sequencersData params) item));
      [| done].
    destruct (sequencer (sequencersData params) s); [| done].
    cbn [mbind option_bind]. by rewrite compileSteps_notes.
  - destruct (Js.isFillDigit item); [| done].
    destruct (_generateFillPattern random (Js.parseInt item)
                (FILL_INSTRUMENTS params)
                (calls (RockForgeExporterRevised.base ls)))
      as [[g k] |]; [| done].
    cbn [mbind option_bind].
    destruct (match truthyId (RockForgeExporterRevised.lastValidSequencerId ls)
              with
              | Some id => Some id
              | None => truthyId (head (map fst (sequencersData params)))
              end); [| done].
    destruct (sequencer (sequencersData params) s); [| done].
    cbn [mbind option_bind]. by rewrite compileSteps_notes.
Qed.

Lemma Revised_exportSong_notes (midiWriterDefined : bool) :
  RockForgeExporterRevised.exportSong random (withNotesRF params notes1)
    midiWriterDefined
  = RockForgeExporterRevised.exportSong random (withNotesRF params notes2)
      midiWriterDefined.
Proof.
  unfold RockForgeExporterRevised.exportSong,
    RockForgeExporterRevised.compileSong.
  cbn [songStructure bpm withNotesRF].
  rewrite (fold_left_ext_eq
             (fun acc item =>
                acc ≫= fun ls =>
                  RockForgeExporterRevised.exportItem random
                    (withNotesRF params notes1) ls item)
             (fun acc item =>
                acc ≫= fun ls =>
                  RockForgeExporterRevised.exportItem random
                    (withNotesRF params notes2) ls item));
    [done |].
  intros [ls |] item; [| done]. cbn [mbind option_bind].
  apply Revised_exportItem_notes.
Qed.

End NotesRockForge.

(** C10.  In each of the three exporters, an instrument mapped to note
    number 0 gets no event, whatever the grid says: the callback of
    [INSTRUMENTS.forEach] emits nothing for it, and the whole export is the
    one of the same input with the entry deleted from the mapping. *)
Theorem note_zero_excluded (random : nat -> Q) (i : string) :
  (forall ticksPerStep config,
     SongDrumMachineExporter.INSTRUMENT_MIDI_NOTES config !! i = Some 0%Z ->
     (forall patternData g tick step k,
        SongDrumMachineExporter.compileNote random ticksPerStep config
          patternData g tick step i k = (None, k))
     /\ SongDrumMachineExporter.exportSong random ticksPerStep config
        = SongDrumMachineExporter.exportSong random ticksPerStep
            (withNotes config
               (delete i (SongDrumMachineExporter.INSTRUMENT_MIDI_NOTES
                            config))))
  /\ (forall params midiWriterDefined,
        RockForgeExporter.INSTRUMENT_MIDI_NOTES params !! i = Some 0%Z ->
        (forall g data ticks step,
           RockForgeExporter.noteEvent params g data ticks step i = Some None)
        /\ RockForgeExporter.exportSong random params midiWriterDefined
           = RockForgeExporter.exportSong random
               (withNotesRF params
                  (delete i (RockForgeExporter.INSTRUMENT_MIDI_NOTES params)))
               midiWriterDefined
        /\ RockForgeExporterRevised.exportSong random params midiWriterDefined
           = RockForgeExporterRevised.exportSong random
               (withNotesRF params
                  (delete i (RockForgeExporter.INSTRUMENT_MIDI_NOTES params)))
               midiWriterDefined).
Proof.
  split.
  - intros ticksPerStep config Hzero. split.
    + intros patternData g tick step k.
      unfold SongDrumMachineExporter.compileNote.
      rewrite (truthyNote_zero _ _ Hzero). by destruct (gridActive g i step).
    + rewrite <- (withNotes_same config) at 1.
      apply exportSong_notes. intros j. symmetry.
      by apply truthyNote_delete_zero.
  - intros params midiWriterDefined Hzero. split_and!.
    + intros g data ticks step. unfold RockForgeExporter.noteEvent.
      rewrite (truthyNote_zero _ _ Hzero). by destruct (gridActive g i step).
    + rewrite <- (withNotesRF_same params) at 1.
      apply RockForge_exportSong_notes. intros j. symmetry.
      by apply truthyNote_delete_zero.
    + rewrite <- (withNotesRF_same params) at 1.
      apply Revised_exportSong_notes. intros j. symmetry.
      by apply truthyNote_delete_zero.
Qed.

Lemma note_zero_excluded_witness :
  let config :=
    withNotes (Examples.song "A" [("seq-1", Examples.patternA)] false 0)
      {[ "kick" := 0%Z; "snare" := 38%Z ]} in
  SongDrumMachineExporter.INSTRUMENT_MIDI_NOTES config !! "kick" = Some 0%Z
  /\ SongDrumMachineExporter.compileNote (Examples.constant (9 # 10)) 128
       config (Some Examples.patternA) (grid Examples.patternA) 0 0 "kick" 0
     = (None, 0)
  /\ SongDrumMachineExporter.exportSong (Examples.constant (9 # 10)) 128 config
     = SongDrumMachineExporter.exportSong (Examples.constant (9 # 10)) 128
         (withNotes config
            (delete "kick"
               (SongDrumMachineExporter.INSTRUMENT_MIDI_NOTES config))).
Proof.
  intros config.
  assert (Hzero : SongDrumMachineExporter.INSTRUMENT_MIDI_NOTES config
                    !! "kick" = Some 0%Z) by reflexivity.
  destruct (note_zero_excluded (Examples.constant (9 # 10)) "kick")
    as [Hsong _].
  destruct (Hsong 128%Z config Hzero) as [Hnote Hexport].
  split; [exact Hzero |]. split; [apply Hnote | exact Hexport].
Defined.

(** ** The sound source of a fill *)

Section SoundSource.

Import RockForgeExporter.

Variable random : nat -> Q.
Variable params : Params.

Lemma truthyId_idem (id : option string) :
  truthyId (truthyId id) = truthyId id.
Proof.
  destruct id as [s |]; [| done]. cbn.
  destruct (Js.truthyString s) eqn:E; [| done]. cbn. by rewrite E.
Qed.

Lemma resolves_truthy (c : ascii) :
  truthyId (resolves params c) = resolves params c.
Proof.
  unfold resolves. destruct (Js.isUpperLetter c); [| done].
  apply truthyId_idem.
Qed.

Lemma mostRecentlyResolved_truthy (compiled : list ascii) :
  truthyId (mostRecentlyResolved params compiled)
  = mostRecentlyResolved params compiled.
Proof.
  unfold mostRecentlyResolved.
  assert (H : truthyId None = None) by done.
  revert H. generalize (@None string).
  induction compiled as [| c l IH]; intros last Hlast; [done |].
  cbn [fold_left]. apply IH.
  destruct (resolves params c) eqn:E; [| done].
  rewrite <- E. apply resolves_truthy.
Qed.

Lemma noteEvent_silent (g : gmap string (list bool)) (source : Pattern)
    (ticks : Z) (step : nat) (instrument : string) :
  pitchAt (INSTRUMENT_MIDI_NOTES params) g step instrument = None ->
  noteEvent params g source ticks step instrument = Some None.
Proof.
  unfold pitchAt, noteEvent.
  destruct (gridActive g instrument step); [| done]. by intros ->.
Qed.

(** The note of a sounding instrument borrows the entry of the source's
    row for that instrument at that step. *)
Lemma noteEvent_sounds (g : gmap string (list bool)) (source : Pattern)
    (ticks : Z) (step : nat) (instrument : string) (m : Z)
    (e : option Note) :
  pitchAt (INSTRUMENT_MIDI_NOTES params) g step instrument = Some m ->
  noteEvent params g source ticks step instrument = Some e ->
  exists n, e = Some n /\ borrowsAt params source ticks step instrument n.
Proof.
  intros [Hactive Hnote]%pitchAt_Some. unfold noteEvent.
  rewrite Hactive, Hnote.
  destruct (velocities source !! instrument) as [row |] eqn:Hrow; [| done].
  cbn [mbind option_bind]. intros [= <-].
  eexists. split; [reflexivity |].
  unfold borrowsAt. cbn [pitch startTick velocity]. split_and!.
  - exact Hnote.
  - reflexivity.
  - exists row. split_and!; [exact Hrow | |].
    + intros stored Hstored. exists (rescale stored).
      split; [apply rescale_nearest |].
      unfold rescaleAt. by rewrite Hstored.
    + intros Hpast. unfold rescaleAt. by rewrite Hpast.
Qed.

(** The notes of a step: one per sounding instrument, in order. *)
Lemma notesForStep_exact (g : gmap string (list bool)) (source : Pattern)
    (ticks : Z) (step : nat) (notes : list Note) :
  notesForStep params g source ticks step = Some notes ->
  Forall2 (borrowsAt params source ticks step)
    (soundingInstruments (INSTRUMENT_MIDI_NOTES params) (INSTRUMENTS params)
       g step)
    notes.
Proof.
  unfold notesForStep, soundingInstruments.
  set (body := fun (acc : option (list Note)) (instrument : string) =>
                 acc ≫= fun collected =>
                   noteEvent params g source ticks step instrument ≫=
                     fun e => Some (match e with
                                    | Some n => collected ++ [n]
                                    | None => collected
                                    end)).
  set (sounds := fun instrument : string =>
                   is_Some (pitchAt (INSTRUMENT_MIDI_NOTES params) g step
                              instrument)).
  assert (Hloop : forall l done acc,
            Forall2 (borrowsAt params source ticks step) done acc ->
            fold_left body l (Some acc) = Some notes ->
            Forall2 (borrowsAt params source ticks step)
              (done ++ filter sounds l) notes).
  { induction l as [| i l IH]; intros done acc Hacc.
    - cbn. intros [= <-]. by rewrite app_nil_r.
    - cbn [fold_left]. unfold body at 2. cbn [mbind option_bind].
      destruct (noteEvent params g source ticks step i) as [e |] eqn:E.
      + cbn [mbind option_bind].
        destruct (pitchAt (INSTRUMENT_MIDI_NOTES params) g step i)
          as [m |] eqn:Hp.
        * destruct (noteEvent_sounds _ _ _ _ _ _ _ Hp E) as (n & -> & Hn).
          rewrite filter_cons_True by (by exists m).
          replace (done ++ i :: filter sounds l)
            with ((done ++ [i]) ++ filter sounds l)
            by (by rewrite <- app_assoc).
          apply IH. apply Forall2_app; [done |].
          constructor; [exact Hn | constructor].
        * rewrite (noteEvent_silent _ _ _ _ _ Hp) in E. injection E as <-.
          rewrite filter_cons_False
            by (unfold sounds; rewrite Hp; by intros [? ?]).
          by apply IH.
      + cbn [mbind option_bind]. intros Hnone. exfalso. revert Hnone.
        clear. induction l as [| j l IHl]; [done | exact IHl]. }
  apply (Hloop (INSTRUMENTS params) [] []). constructor.
Qed.

(** The batches of the steps: one per sounding step, in order, and the
    advance of the cursor. *)
Lemma compileSteps_exact (g : gmap string (list bool)) (source : Pattern)
    (numSteps : nat) (st st' : State) :
  compileSteps params g source numSteps st = Some st' ->
  exists new,
    track st' = track st ++ new
    /\ fillBorrows params g source (totalTicks st) numSteps new
    /\ totalTicks st'
       = (totalTicks st + Z.of_nat numSteps * ticksPerStep)%Z
    /\ calls st' = calls st.
Proof.
  unfold compileSteps, fillBorrows, soundingSteps.
  set (body := fun (acc : option (list (list Note))) (step : nat) =>
                 acc ≫= fun t =>
                   notesForStep params g source (totalTicks st) step ≫=
                     fun notes => Some (addEvent notes t)).
  set (batch := fun (step : nat) (notes : list Note) =>
                  Forall2 (borrowsAt params source (totalTicks st) step)
                    (soundingInstruments (INSTRUMENT_MIDI_NOTES params)
                       (INSTRUMENTS params) g step)
                    notes).
  set (sounding := fun step : nat =>
                     soundingInstruments (INSTRUMENT_MIDI_NOTES params)
                       (INSTRUMENTS params) g step <> []).
  assert (Hloop : forall l t0 t,
            fold_left body l (Some t0) = Some t ->
            exists new,
              t = t0 ++ new /\ Forall2 batch (filter sounding l) new).
  { induction l as [| step l IH]; intros t0 t.
    - intros [= <-]. exists []. rewrite app_nil_r. split; [done | constructor].
    - cbn [fold_left]. unfold body at 2. cbn [mbind option_bind].
      destruct (notesForStep params g source (totalTicks st) step)
        as [notes |] eqn:E.
      + cbn [mbind option_bind]. intros Hrest.
        destruct (IH _ _ Hrest) as (new & -> & Hnew).
        apply notesForStep_exact in E.
        destruct notes as [| n notes]; cbn [addEvent].
        * apply Forall2_nil_inv_r in E.
          exists new. split; [done |].
          rewrite filter_cons_False by (unfold sounding; rewrite E; by intros H).
          exact Hnew.
        * exists ((n :: notes) :: new). split.
          -- by rewrite <- app_assoc.
          -- rewrite filter_cons_True.
             ++ by constructor.
             ++ unfold sounding. intros Hnil. rewrite Hnil in E.
                by apply Forall2_nil_inv_l in E.
      + cbn [mbind option_bind]. intros Hnone. exfalso. revert Hnone.
        clear. induction l as [| j l IHl]; [done | exact IHl]. }
  destruct (fold_left body (seq 0 numSteps) (Some (track st)))
    as [t |] eqn:E; [| done].
  cbn [mbind option_bind]. intros [= <-]. cbn [track totalTicks calls].
  destruct (Hloop (seq 0 numSteps) (track st) t E) as (new & -> & Hnew).
  by exists new.
Qed.

End SoundSource.

Section FillBinding.

Import RockForgeExporter.

Variable random : nat -> Q.
Variable params : Params.

Lemma revised_exportItem_last (ls ls' : RockForgeExporterRevised.LoopState)
    (c : ascii) :
  RockForgeExporterRevised.exportItem random params ls c = Some ls' ->
  RockForgeExporterRevised.lastValidSequencerId ls'
  = match resolves params c with
    | Some id => Some id
    | None => RockForgeExporterRevised.lastValidSequencerId ls
    end.
Proof.
  unfold RockForgeExporterRevised.exportItem, resolves.
  destruct (Js.isUpperLetter c).
  - destruct (truthyId (findSequencerId (sequencersData params) c)) as [id |].
    + destruct (sequencer (sequencersData params) id) as [data |]; [| done].
      cbn [mbind option_bind].
      destruct (compileSteps params (grid data) data (steps data)
                  (RockForgeExporterRevised.base ls)); [| done].
      cbn [mbind option_bind]. by intros [= <-].
    + by intros [= <-].
  - destruct (Js.isFillDigit c); [| by intros [= <-]].
    destruct (_generateFillPattern random (Js.parseInt c)
                (FILL_INSTRUMENTS params)
                (calls (RockForgeExporterRevised.base ls)))
      as [[g k] |]; [| done].
    cbn [mbind option_bind].
    destruct (RockForgeExporterRevised.sequencerIdForFillSounds params
                (RockForgeExporterRevised.lastValidSequencerId ls))
      as [id |]; [| by intros [= <-]].
    destruct (sequencer (sequencersData params) id) as [data |]; [| done].
    cbn [mbind option_bind].
    destruct (compileSteps params g data (Js.parseInt c) _); [| done].
    cbn [mbind option_bind]. by intros [= <-].
Qed.

Lemma revisedRun_last (compiled : list ascii)
    (ls0 ls : RockForgeExporterRevised.LoopState) :
  revisedRun random params compiled ls0 = Some ls ->
  RockForgeExporterRevised.lastValidSequencerId ls
  = fold_left
      (fun last c =>
         match resolves params c with Some id => Some id | None => last end)
      compiled (RockForgeExporterRevised.lastValidSequencerId ls0).
Proof.
  unfold revisedRun. revert ls0.
  induction compiled as [| c l IH]; intros ls0.
  - by intros [= <-].
  - cbn [fold_left mbind option_bind].
    destruct (RockForgeExporterRevised.exportItem random params ls0 c)
      as [ls1 |] eqn:E.
    + intros H. rewrite (IH _ H). by rewrite (revised_exportItem_last _ _ _ E).
    + intros Hnone. exfalso. revert Hnone.
      clear. induction l as [| j l IHl]; [done | exact IHl].
Qed.

(** The revised exporter keeps the most recently resolved pattern, and
    its fills take it, or else the first-declared one, as their source. *)
Lemma revised_source (compiled : list ascii)
    (ls : RockForgeExporterRevised.LoopState) :
  revisedRun random params compiled RockForgeExporterRevised.initial
    = Some ls ->
  RockForgeExporterRevised.lastValidSequencerId ls
  = mostRecentlyResolved params compiled
  /\ RockForgeExporterRevised.sequencerIdForFillSounds params
       (RockForgeExporterRevised.lastValidSequencerId ls)
     = currentSoundSource params compiled.
Proof.
  intros Hrun. apply revisedRun_last in Hrun. cbn in Hrun.
  fold (mostRecentlyResolved params compiled) in Hrun.
  split; [exact Hrun |].
  unfold RockForgeExporterRevised.sequencerIdForFillSounds, currentSoundSource.
  rewrite Hrun, mostRecentlyResolved_truthy. reflexivity.
Qed.

Lemma revised_fill (d : ascii) (ls ls' : RockForgeExporterRevised.LoopState) :
  Js.isFillDigit d = true ->
  RockForgeExporterRevised.exportItem random params ls d = Some ls' ->
  exists fillGrid,
    _generateFillPattern random (Js.parseInt d) (FILL_INSTRUMENTS params)
      (calls (RockForgeExporterRevised.base ls))
    = Some (fillGrid, calls (RockForgeExporterRevised.base ls'))
    /\ match RockForgeExporterRevised.sequencerIdForFillSounds params
               (RockForgeExporterRevised.lastValidSequencerId ls) with
       | Some id =>
           exists source new,
             sequencer (sequencersData params) id = Some source
             /\ track (RockForgeExporterRevised.base ls')
                = track (RockForgeExporterRevised.base ls) ++ new
             /\ fillBorrows params fillGrid source
                  (totalTicks (RockForgeExporterRevised.base ls))
                  (Js.parseInt d) new
             /\ totalTicks (RockForgeExporterRevised.base ls')
                = (totalTicks (RockForgeExporterRevised.base ls)
                   + Z.of_nat (Js.parseInt d) * 128)%Z
       | None =>
           track (RockForgeExporterRevised.base ls')
           = track (RockForgeExporterRevised.base ls)
           /\ totalTicks (RockForgeExporterRevised.base ls')
              = totalTicks (RockForgeExporterRevised.base ls)
       end.
Proof.
  intros Hd. unfold RockForgeExporterRevised.exportItem.
  rewrite (isFillDigit_not_upper _ Hd), Hd.
  destruct (_generateFillPattern random (Js.parseInt d)
              (FILL_INSTRUMENTS params)
              (calls (RockForgeExporterRevised.base ls)))
    as [[g k] |]; [| done].
  cbn [mbind option_bind].
  destruct (RockForgeExporterRevised.sequencerIdForFillSounds params
              (RockForgeExporterRevised.lastValidSequencerId ls)) as [id |].
  - destruct (sequencer (sequencersData params) id) as [data |]; [| done].
    cbn [mbind option_bind].
    destruct (compileSteps params g data (Js.parseInt d) _) as [st1 |] eqn:E;
      [| done].
    cbn [mbind option_bind]. intros [= <-].
    destruct (compileSteps_exact _ _ _ _ _ _ E)
      as (new & Ht & Hnew & Hticks & Hcalls).
    cbn [track totalTicks calls RockForgeExporterRevised.base] in *.
    exists g. rewrite Hcalls. split; [reflexivity |].
    exists data, new. by split_and!.
  - intros [= <-]. exists g. by split_and!.
Qed.

(** The first RockForge exporter takes the first-declared pattern for
    every fill. *)
Lemma first_fill (d : ascii) (st st' : State) :
  Js.isFillDigit d = true ->
  exportItem random params st d = Some st' ->
  exists fillGrid,
    _generateFillPattern random (Js.parseInt d) (FILL_INSTRUMENTS params)
      (calls st)
    = Some (fillGrid, calls st')
    /\ match firstDeclared params with
       | Some id =>
           exists source new,
             sequencer (sequencersData params) id = Some source
             /\ track st' = track st ++ new
             /\ fillBorrows params fillGrid source (totalTicks st)
                  (Js.parseInt d) new
       | None => track st' = track st /\ totalTicks st' = totalTicks st
       end.
Proof.
  intros Hd. unfold exportItem, firstDeclared.
  rewrite (isFillDigit_not_upper _ Hd), Hd.
  destruct (_generateFillPattern random (Js.parseInt d)
              (FILL_INSTRUMENTS params) (calls st)) as [[g k] |]; [| done].
  cbn [mbind option_bind].
  destruct (truthyId (head (map fst (sequencersData params)))) as [id |].
  - destruct (sequencer (sequencersData params) id) as [data |]; [| done].
    cbn [mbind option_bind]. intros E.
    destruct (compileSteps_exact _ _ _ _ _ _ E)
      as (new & Ht & Hnew & _ & Hcalls).
    cbn [track totalTicks calls] in *.
    exists g. rewrite Hcalls. split; [reflexivity |].
    exists data, new. by split_and!.
  - intros [= <-]. exists g. by split_and!.
Qed.

End FillBinding.

(** C5 as stated fails.  Given patterns {A} and the arrangement "1A", the
    SongDrumMachine exporter gives the fill's strike (the snare at tick 0) the default
    velocity 100: A's velocity table holds 64 there, which rescales to 50. *)
Lemma fill_not_bound_to_pattern :
  let config := Examples.song "1A" [("seq-1", Examples.patternA)] false 0 in
  exists st n row,
    SongDrumMachineExporter.compileSong (Examples.constant (9 # 10)) 128 config
    = Some st
    /\ head (SongDrumMachineExporter.track st) = Some [n]
    /\ pitch n = 38%Z /\ startTick n = 0%Z
    /\ velocity n = Some 100%Z
    /\ velocities Examples.patternA !! "snare" = Some row
    /\ rescaleAt row 0 = Some 50%Z
    /\ velocity n <> rescaleAt row 0.
Proof.
  intros config.
  eassert (E : SongDrumMachineExporter.compileSong
                 (Examples.constant (9 # 10)) 128 config = Some _)
    by (vm_compute; reflexivity).
  eexists _, _, [64; 80; 3; 64]%Z. split; [exact E |].
  split; [reflexivity |]. by split_and!.
Qed.

(** C5, amended.  In the revised RockForge exporter every fill borrows
    its velocities positionally from the velocity table of the most recently
    resolved named pattern of the tokens compiled so far, or of the
    first-declared pattern when there is none: the fill adds one batch for
    every sounding step of its grid, in the order of the steps, and in it one
    note for every sounding instrument, in the order of [INSTRUMENTS]; the
    note has the pitch of that instrument and starts at that step, and its
    velocity is the entry of the source's row for that very instrument at
    that very step, rescaled to the nearest percent of 127 (NaN past the end
    of the row).  The fill is skipped when no pattern exists.  The
    SongDrumMachine exporter binds a fill to no pattern: its section is
    compiled without pattern data, and the notes of such a section have the
    default base velocity 100. *)
Theorem fill_sound_source (random : nat -> Q) (d : ascii) :
  Js.isFillDigit d = true ->
  (forall params compiled ls ls',
     revisedRun random params compiled RockForgeExporterRevised.initial
       = Some ls ->
     RockForgeExporterRevised.exportItem random params ls d = Some ls' ->
     RockForgeExporterRevised.lastValidSequencerId ls
       = mostRecentlyResolved params compiled
     /\ exists fillGrid,
          RockForgeExporter._generateFillPattern random (Js.parseInt d)
            (RockForgeExporter.FILL_INSTRUMENTS params)
            (RockForgeExporter.calls (RockForgeExporterRevised.base ls))
          = Some (fillGrid,
                  RockForgeExporter.calls (RockForgeExporterRevised.base ls'))
          /\ match currentSoundSource params compiled with
             | Some id =>
                 exists source new,
                   RockForgeExporter.sequencer
                     (RockForgeExporter.sequencersData params) id
                   = Some source
                   /\ RockForgeExporter.track
                        (RockForgeExporterRevised.base ls')
                      = RockForgeExporter.track
                          (RockForgeExporterRevised.base ls) ++ new
                   /\ fillBorrows params fillGrid source
                        (RockForgeExporter.totalTicks
                           (RockForgeExporterRevised.base ls))
                        (Js.parseInt d) new
                   /\ RockForgeExporter.totalTicks
                        (RockForgeExporterRevised.base ls')
                      = (RockForgeExporter.totalTicks
                           (RockForgeExporterRevised.base ls)
                         + Z.of_nat (Js.parseInt d) * 128)%Z
             | None =>
                 RockForgeExporter.track (RockForgeExporterRevised.base ls')
                 = RockForgeExporter.track (RockForgeExporterRevised.base ls)
                 /\ RockForgeExporter.totalTicks
                      (RockForgeExporterRevised.base ls')
                    = RockForgeExporter.totalTicks
                        (RockForgeExporterRevised.base ls)
             end)
  /\ (forall ticksPerStep config structureArray st index,
        SongDrumMachineExporter.exportSection random ticksPerStep config
          structureArray st index d
        = SongDrumMachineExporter.generateFill random config (Js.parseInt d)
            (SongDrumMachineExporter.calls st)
            ≫= fun r =>
                 Some (SongDrumMachineExporter.compileSection random
                         ticksPerStep config None r.1 (Js.parseInt d)
                         {| SongDrumMachineExporter.track :=
                              SongDrumMachineExporter.track st;
                            SongDrumMachineExporter.currentTick :=
                              SongDrumMachineExporter.currentTick st;
                            SongDrumMachineExporter.calls := r.2 |}))
  /\ (forall ticksPerStep config g tick step instrument k k' n,
        SongDrumMachineExporter.compileNote random ticksPerStep config None
          g tick step instrument k = (Some n, k') ->
        velocity n
        = Some (SongDrumMachineExporter.clampVelocity
                  (100 + (SongDrumMachineExporter.velocityVariation random
                            config k).1))
        /\ (SongDrumMachineExporter.isHumanizeOn config = false ->
            velocity n = Some 100%Z)).
Proof.
  intros Hd. split_and!.
  - intros params compiled ls ls' Hrun Hitem.
    destruct (revised_source random params compiled ls Hrun) as [Hlast Hsrc].
    split; [exact Hlast |].
    rewrite <- Hsrc. by apply (revised_fill random params d).
  - intros ticksPerStep config structureArray st index.
    unfold SongDrumMachineExporter.exportSection. rewrite Hd.
    by destruct (SongDrumMachineExporter.generateFill random config
                   (Js.parseInt d) (SongDrumMachineExporter.calls st))
      as [[g k] |].
  - intros ticksPerStep config g tick step instrument k k' n Hn.
    destruct (compileNote_Some _ _ _ _ _ _ _ _ _ _ _ Hn)
      as (_ & _ & _ & Hvel & _).
    cbn in Hvel. split; [exact Hvel |].
    intros Hoff. rewrite Hvel.
    by rewrite velocityVariation_off.
Qed.

Lemma fill_sound_source_witness :
  let random := Examples.constant (9 # 10) in
  let params := Examples.rockForge "AB1"
                  [("seq-1", Examples.patternA); ("seq-2", Examples.patternB)]
                  Examples.notes in
  Js.isFillDigit "1" = true
  /\ currentSoundSource params (Js.spread "AB") = Some "seq-2"%string
  /\ exists ls ls' n,
       revisedRun random params (Js.spread "AB")
         RockForgeExporterRevised.initial = Some ls
       /\ RockForgeExporterRevised.exportItem random params ls "1" = Some ls'
       /\ RockForgeExporter.track (RockForgeExporterRevised.base ls')
          = RockForgeExporter.track (RockForgeExporterRevised.base ls)
            ++ [[n]]
       /\ borrowsAt params Examples.patternB (6 * 128) 0 "snare" n
       /\ pitch n = 38%Z
       /\ startTick n = (6 * 128)%Z
       /\ velocity n = Some 63%Z.
Proof.
  intros random params.
  assert (Hd : Js.isFillDigit "1" = true) by reflexivity.
  assert (Hcur : currentSoundSource params (Js.spread "AB")
                 = Some "seq-2"%string) by reflexivity.
  split; [exact Hd |]. split; [exact Hcur |].
  eassert (Hrun : revisedRun random params (Js.spread "AB")
                    RockForgeExporterRevised.initial = Some _)
    by (vm_compute; reflexivity).
  match type of Hrun with
  | _ = Some ?ls =>
      eassert (E : RockForgeExporterRevised.exportItem random params ls "1"
                   = Some _)
        by (vm_compute; reflexivity)
  end.
  destruct (fill_sound_source random "1" Hd) as [Hrevised _].
  destruct (Hrevised params _ _ _ Hrun E) as (_ & fillGrid & Hgrid & Hsource).
  rewrite Hcur in Hsource.
  destruct Hsource as (source & new & Hsrc & Htrack & Hnew & _).
  injection Hsrc as <-.
  assert (Hg : fillGrid
               = (default (∅, 0)
                    (RockForgeExporter._generateFillPattern random 1
                       ["snare"%string] 0)).1).
  { change (RockForgeExporter._generateFillPattern random 1
              ["snare"%string] 0 = Some (fillGrid, 1)) in Hgrid.
    by rewrite Hgrid. }
  rewrite Hg in Hnew. clear Hg Hgrid.
  unfold fillBorrows in Hnew.
  change (Js.parseInt "1") with 1 in Hnew.
  change (RockForgeExporter.INSTRUMENTS params)
    with ["kick"%string; "snare"%string] in Hnew.
  change (RockForgeExporter.INSTRUMENT_MIDI_NOTES params)
    with Examples.notes in Hnew.
  match type of Hnew with
  | context [soundingSteps _ _ ?g _] =>
      assert (Hinstruments : soundingInstruments Examples.notes
                               ["kick"%string; "snare"%string] g 0
                             = ["snare"%string])
  end.
  { unfold soundingInstruments.
    rewrite filter_cons_False, filter_cons_True; [reflexivity | |].
    - exists 38%Z. vm_compute. reflexivity.
    - intros [m Hm]. vm_compute in Hm. discriminate. }
  match type of Hnew with
  | context [soundingSteps _ _ ?g _] =>
      assert (Hsteps : soundingSteps Examples.notes
                         ["kick"%string; "snare"%string] g 1 = [0])
  end.
  { unfold soundingSteps. cbn [seq].
    rewrite filter_cons_True; [reflexivity |].
    rewrite Hinstruments. discriminate. }
  rewrite Hsteps in Hnew.
  apply Forall2_cons_inv_l in Hnew as (batch & rest & Hbatch & Hrest & ->).
  apply Forall2_nil_inv_l in Hrest as ->.
  rewrite Hinstruments in Hbatch.
  apply Forall2_cons_inv_l in Hbatch as (n & others & Hn & Hothers & ->).
  apply Forall2_nil_inv_l in Hothers as ->.
  eexists _, _, n. split; [exact Hrun |]. split; [exact E |].
  split; [exact Htrack |]. split; [exact Hn |].
  destruct Hn as (Hpitch & Hstart & row & Hrow & Hstored & _).
  injection Hpitch as <-. split; [reflexivity |].
  split; [exact Hstart |].
  injection Hrow as <-.
  destruct (Hstored 80%Z eq_refl) as (r & Hr & ->).
  f_equal. unfold nearestPercent in Hr. lia.
Defined.

(** Given patterns {A}, the revised RockForge exporter gives the fill of
    "1A" the velocity that A's table holds for the struck instrument at the
    fill's step: 64 for the snare at step 0, which rescales to 50. *)
Example revised_1A_bound_to_A :
  let params := Examples.rockForge "1A" [("seq-1", Examples.patternA)]
                  Examples.notes in
  exists ls n,
    RockForgeExporterRevised.compileSong (Examples.constant (9 # 10)) params
    = Some ls
    /\ head (RockForgeExporter.track (RockForgeExporterRevised.base ls))
       = Some [n]
    /\ pitch n = 38%Z /\ startTick n = 0%Z /\ velocity n = Some 50%Z.
Proof.
  intros params.
  eassert (E : RockForgeExporterRevised.compileSong
                 (Examples.constant (9 # 10)) params = Some _)
    by (vm_compute; reflexivity).
  eexists _, _. split; [exact E |]. split; [reflexivity |]. by split_and!.
Qed.

(** ** Further properties: the SongDrumMachine exporter *)

Lemma isFillDigit_parseInt (c : ascii) :
  Js.isFillDigit c = true -> 1 <= Js.parseInt c <= 9.
Proof.
  unfold Js.isFillDigit, Js.parseInt.
  rewrite andb_true_iff, !Nat.leb_le. lia.
Qed.

Section SongDrumMachineBatches.

Import SongDrumMachineExporter.

Variable random : nat -> Q.
Variable ticksPerStep : Z.
Variable config : Config.

Lemma findPattern_elem_of (c : ascii) (entry : string * Pattern) :
  findPattern config c = Some entry ->
  entry ∈ sequencersData config
  /\ name entry.2 = Js.tokenString c.
Proof.
  unfold findPattern. intros H. apply find_some in H as [Hin Heq].
  split; [by apply list_elem_of_In | by apply String.eqb_eq].
Qed.

Lemma lookAhead_le (structureArray : list ascii) (index numSteps : nat) :
  lookAhead structureArray index numSteps <= numSteps.
Proof.
  unfold lookAhead.
  destruct (structureArray !! (index + 1)) as [d |]; [| done].
  destruct (Js.isFillDigit d); [| done].
  destruct (Nat.leb_spec (Js.parseInt d) numSteps); lia.
Qed.

Lemma addEvent_app (notes : list Note) (t : list (list Note)) :
  addEvent notes t = t ++ match notes with [] => [] | _ => [notes] end.
Proof. destruct notes; [by rewrite app_nil_r | done]. Qed.

(** Batches keep a property [B] that the non-empty results of
    [compileStep] have, on the inputs [exportSection] makes. *)
Section BatchLifting.

Variable J : Z -> Prop.
Variable B : list Note -> Prop.
Hypothesis J_advance :
  forall t n, J t -> J (t + Z.of_nat n * ticksPerStep)%Z.
Hypothesis B_batch :
  forall patternData g numSteps tick step k,
    J tick -> sectionInput random config patternData g numSteps ->
    step < numSteps ->
    (compileStep random ticksPerStep config patternData g tick step k).1
      <> [] ->
    B (compileStep random ticksPerStep config patternData g tick step k).1.

Lemma steps_batches (patternData : option Pattern)
    (g : gmap string (list bool)) (numSteps : nat) (l : list nat)
    (st : State) :
  sectionInput random config patternData g numSteps ->
  Forall (fun step => step < numSteps) l ->
  J (currentTick st) -> Forall B (track st) ->
  Forall B
    (track (fold_left (stepBody random ticksPerStep config patternData g)
              l st)).
Proof.
  intros Hin. revert st. induction l as [| s l IH]; intros st Hl HJ Ht;
    [done |].
  apply Forall_cons in Hl as [Hs Hl].
  cbn [fold_left]. apply IH; [done | done |].
  cbn [track stepBody]. rewrite addEvent_app. apply Forall_app.
  split; [done |].
  destruct (compileStep random ticksPerStep config patternData g
              (currentTick st) s (calls st)).1 as [| n notes] eqn:E;
    [constructor |].
  constructor; [| constructor]. rewrite <- E.
  apply (B_batch _ _ numSteps); [done | done | done |]. by rewrite E.
Qed.

Lemma compileSection_batches (patternData : option Pattern)
    (g : gmap string (list bool)) (numSteps : nat) (st : State) :
  sectionInput random config patternData g numSteps ->
  J (currentTick st) -> Forall B (track st) ->
  Forall B
    (track (compileSection random ticksPerStep config patternData g
              numSteps st)).
Proof.
  intros Hin HJ Ht. cbn [compileSection track].
  apply (steps_batches _ _ numSteps); [done | | done | done].
  apply Forall_forall. intros step Hstep. apply elem_of_seq in Hstep. lia.
Qed.

Lemma exportSection_batches (structureArray : list ascii) (st st' : State)
    (index : nat) (c : ascii) :
  J (currentTick st) -> Forall B (track st) ->
  exportSection random ticksPerStep config structureArray st index c
    = Some st' ->
  J (currentTick st') /\ Forall B (track st').
Proof.
  intros HJ Ht. unfold exportSection.
  destruct (Js.isFillDigit c) eqn:Hd.
  - destruct (generateFill random config (Js.parseInt c) (calls st))
      as [[g k] |] eqn:Hg; [| done].
    cbn [mbind option_bind]. intros [= <-]. split.
    + rewrite compileSection_currentTick. by apply J_advance.
    + apply compileSection_batches; [| done | done].
      eapply fillInput; [by apply isFillDigit_parseInt | exact Hg].
  - destruct (findPattern config c) as [entry |] eqn:Hf.
    + intros [= <-]. split.
      * rewrite compileSection_currentTick. by apply J_advance.
      * apply compileSection_batches; [| done | done].
        apply patternInput; [by apply (findPattern_elem_of c) |].
        apply lookAhead_le.
    + by intros [= <-].
Qed.

Lemma exportFrom_batches (structureArray rest : list ascii) (index : nat)
    (st st' : State) :
  J (currentTick st) -> Forall B (track st) ->
  exportFrom random ticksPerStep config structureArray index rest st
    = Some st' ->
  J (currentTick st') /\ Forall B (track st').
Proof.
  revert index st. induction rest as [| c rest IH]; intros index st HJ Ht.
  - by intros [= <-].
  - cbn [exportFrom].
    destruct (exportSection random ticksPerStep config structureArray st
                index c) as [st1 |] eqn:E; [| done].
    cbn [mbind option_bind].
    destruct (exportSection_batches _ _ _ _ _ HJ Ht E) as [HJ1 Ht1].
    by apply IH.
Qed.

Lemma compileSong_batches (st : State) :
  J 0%Z ->
  compileSong random ticksPerStep config = Some st ->
  J (currentTick st) /\ Forall B (track st).
Proof.
  intros HJ0. unfold compileSong.
  apply exportFrom_batches; [done | constructor].
Qed.

End BatchLifting.

(** The notes of a step, with the instruments they come from. *)
Lemma compileStep_instruments (P : Note -> Prop)
    (patternData : option Pattern) (g : gmap string (list bool)) (tick : Z)
    (step k : nat) :
  (forall instrument k0 k1 n,
     instrument ∈ INSTRUMENTS config ->
     compileNote random ticksPerStep config patternData g tick step
       instrument k0 = (Some n, k1) -> P n) ->
  Forall P (compileStep random ticksPerStep config patternData g tick
              step k).1.
Proof.
  unfold compileStep.
  set (body := fun (acc : list Note * nat) (instrument : string) =>
                 match compileNote random ticksPerStep config patternData g
                         tick step instrument acc.2 with
                 | (Some n, k') => (acc.1 ++ [n], k')
                 | (None, k') => (acc.1, k')
                 end).
  assert (Hloop : forall l acc,
            (forall instrument k0 k1 n,
               instrument ∈ l ->
               compileNote random ticksPerStep config patternData g tick
                 step instrument k0 = (Some n, k1) -> P n) ->
            Forall P acc.1 -> Forall P (fold_left body l acc).1).
  { induction l as [| i l IH]; intros acc HP Hacc; [done |].
    cbn [fold_left]. apply IH.
    - intros instrument k0 k1 n Hin. apply HP. by right.
    - unfold body.
      destruct (compileNote random ticksPerStep config patternData g tick
                  step i acc.2) as [[n |] k1] eqn:E; [| done].
      cbn [fst]. apply Forall_app. split; [done |].
      constructor; [| constructor]. eapply HP; [by left | exact E]. }
  intros HP. apply Hloop; [exact HP | constructor].
Qed.

Lemma compileStep_length (patternData : option Pattern)
    (g : gmap string (list bool)) (tick : Z) (step k : nat) :
  length (compileStep random ticksPerStep config patternData g tick step k).1
  <= length (INSTRUMENTS config).
Proof.
  unfold compileStep.
  set (body := fun (acc : list Note * nat) (instrument : string) =>
                 match compileNote random ticksPerStep config patternData g
                         tick step instrument acc.2 with
                 | (Some n, k') => (acc.1 ++ [n], k')
                 | (None, k') => (acc.1, k')
                 end).
  assert (Hloop : forall l acc,
            length (fold_left body l acc).1 <= length acc.1 + length l).
  { induction l as [| i l IH]; intros acc; cbn [fold_left length]; [lia |].
    etrans; [apply IH |]. unfold body.
    destruct (compileNote random ticksPerStep config patternData g tick
                step i acc.2) as [[n |] k1]; cbn [fst].
    - rewrite length_app. cbn. lia.
    - lia. }
  apply (Hloop (INSTRUMENTS config) ([], k)).
Qed.

End SongDrumMachineBatches.

Lemma clampVelocity_range (v : Z) :
  (1 <= SongDrumMachineExporter.clampVelocity v <= 100)%Z.
Proof. unfold SongDrumMachineExporter.clampVelocity. lia. Qed.

(** X1.  Every batch the SongDrumMachine exporter adds to the track is
    non-empty and holds at most one note per entry of [INSTRUMENTS]. *)
Theorem batches_nonempty_bounded (random : nat -> Q) (ticksPerStep : Z)
    (config : SongDrumMachineExporter.Config)
    (st : SongDrumMachineExporter.State) :
  SongDrumMachineExporter.compileSong random ticksPerStep config = Some st ->
  Forall (fun batch =>
            batch <> []
            /\ length batch
               <= length (SongDrumMachineExporter.INSTRUMENTS config))
    (SongDrumMachineExporter.track st).
Proof.
  intros Hsong.
  refine (proj2 (compileSong_batches random ticksPerStep config
                   (fun _ => True) _ _ _ st I Hsong)).
  - done.
  - intros patternData g numSteps tick step k _ _ _ Hne.
    split; [exact Hne | apply compileStep_length].
Qed.

Lemma batches_nonempty_bounded_witness :
  let config := Examples.song "A2" [("seq-1", Examples.patternA)] true (1 # 10) in
  exists st,
    SongDrumMachineExporter.compileSong (Examples.constant (9 # 10)) 128 config
    = Some st
    /\ length (SongDrumMachineExporter.track st) = 4
    /\ Forall (fun batch => batch <> [] /\ length batch <= 2)
         (SongDrumMachineExporter.track st).
Proof.
  intros config.
  eassert (E : SongDrumMachineExporter.compileSong
                 (Examples.constant (9 # 10)) 128 config = Some _)
    by (vm_compute; reflexivity).
  eexists. split; [exact E |]. split; [reflexivity |].
  exact (batches_nonempty_bounded (Examples.constant (9 # 10)) 128 config
           _ E).
Defined.

(** X2.  Every note of the exported track is on channel 10, lasts a 16th,
    and has as pitch the non-zero note number that [INSTRUMENT_MIDI_NOTES]
    gives to an instrument of [INSTRUMENTS]. *)
Theorem exported_note_shape (random : nat -> Q) (ticksPerStep : Z)
    (config : SongDrumMachineExporter.Config)
    (st : SongDrumMachineExporter.State) :
  SongDrumMachineExporter.compileSong random ticksPerStep config = Some st ->
  Forall (Forall (fun n =>
            channel n = 10%Z /\ duration n = "16"%string
            /\ pitch n <> 0%Z
            /\ exists instrument,
                 instrument ∈ SongDrumMachineExporter.INSTRUMENTS config
                 /\ SongDrumMachineExporter.INSTRUMENT_MIDI_NOTES config
                      !! instrument = Some (pitch n)))
    (SongDrumMachineExporter.track st).
Proof.
  intros Hsong.
  refine (proj2 (compileSong_batches random ticksPerStep config
                   (fun _ => True) _ _ _ st I Hsong)).
  - done.
  - intros patternData g numSteps tick step k _ _ _ _.
    apply compileStep_instruments.
    intros instrument k0 k1 n Hin Hn.
    destruct (compileNote_Some _ _ _ _ _ _ _ _ _ _ _ Hn)
      as (_ & Hpitch & _ & _ & Hdur & Hch & _).
    apply truthyNote_Some in Hpitch as [Hlookup Hnz].
    split_and!; [done | done | done |]. by exists instrument.
Qed.

Lemma exported_note_shape_witness :
  let config := Examples.song "A2" [("seq-1", Examples.patternA)] true (1 # 10) in
  exists st,
    SongDrumMachineExporter.compileSong (Examples.constant (9 # 10)) 128 config
    = Some st
    /\ Forall (Forall (fun n => channel n = 10%Z /\ pitch n <> 0%Z))
         (SongDrumMachineExporter.track st).
Proof.
  intros config.
  eassert (E : SongDrumMachineExporter.compileSong
                 (Examples.constant (9 # 10)) 128 config = Some _)
    by (vm_compute; reflexivity).
  eexists. split; [exact E |].
  eapply Forall_impl;
    [exact (exported_note_shape (Examples.constant (9 # 10)) 128 config _ E) |].
  intros batch Hbatch. eapply Forall_impl; [exact Hbatch |].
  intros n (Hch & _ & Hnz & _). by split.
Defined.

(** X3.  A velocity of the exported track that is a number lies in
    1..100; when every velocity row of every pattern reaches the pattern's
    last step, every velocity is a number. *)
Theorem exported_velocity_range (random : nat -> Q) (ticksPerStep : Z)
    (config : SongDrumMachineExporter.Config)
    (st : SongDrumMachineExporter.State) :
  SongDrumMachineExporter.compileSong random ticksPerStep config = Some st ->
  Forall (Forall (fun n =>
            (forall v, velocity n = Some v -> (1 <= v <= 100)%Z)
            /\ (velocityRowsCover
                  (SongDrumMachineExporter.sequencersData config) ->
                is_Some (velocity n))))
    (SongDrumMachineExporter.track st).
Proof.
  intros Hsong.
  refine (proj2 (compileSong_batches random ticksPerStep config
                   (fun _ => True) _ _ _ st I Hsong)).
  - done.
  - intros patternData g numSteps tick step k _ Hinput Hstep _.
    apply compileStep_instruments.
    intros instrument k0 k1 n Hin Hn.
    destruct (compileNote_Some _ _ _ _ _ _ _ _ _ _ _ Hn)
      as (_ & _ & _ & Hvel & _).
    split.
    + intros v Hv. rewrite Hvel in Hv.
      destruct (SongDrumMachineExporter.baseVelocity patternData instrument
                  step); [| done].
      injection Hv as <-. apply clampVelocity_range.
    + intros Hcover. rewrite Hvel.
      apply fmap_is_Some.
      destruct Hinput as [numSteps k2 k3 g Hrange Hg | entry numSteps Hentry Hle].
      * done.
      * unfold SongDrumMachineExporter.baseVelocity.
        destruct (velocities entry.2 !! instrument) as [row |] eqn:Hrow;
          [| done].
        unfold rescaleAt. apply fmap_is_Some. apply lookup_lt_is_Some.
        pose proof (Hcover entry instrument row Hentry Hrow). lia.
Qed.

Lemma exported_velocity_range_witness :
  let patterns := [("seq-1", Examples.patternA)] in
  let config := Examples.song "A2" patterns true (1 # 10) in
  exists st,
    SongDrumMachineExporter.compileSong (Examples.constant (9 # 10)) 128 config
    = Some st
    /\ velocityRowsCover patterns
    /\ Forall (Forall (fun n =>
                 exists v, velocity n = Some v /\ (1 <= v <= 100)%Z))
         (SongDrumMachineExporter.track st).
Proof.
  intros patterns config.
  eassert (E : SongDrumMachineExporter.compileSong
                 (Examples.constant (9 # 10)) 128 config = Some _)
    by (vm_compute; reflexivity).
  assert (Hcover : velocityRowsCover patterns).
  { intros entry instrument row Hentry.
    apply list_elem_of_singleton in Hentry as ->. cbn [snd].
    intros Hrow.
    destruct (decide (instrument = "kick")) as [-> | Hk].
    { vm_compute in Hrow. injection Hrow as <-. vm_compute. lia. }
    destruct (decide (instrument = "snare")) as [-> | Hs].
    { vm_compute in Hrow. injection Hrow as <-. vm_compute. lia. }
    unfold Examples.patternA in Hrow. cbn [velocities] in Hrow.
    rewrite lookup_insert_ne in Hrow by done.
    rewrite lookup_singleton_ne in Hrow by done. done. }
  eexists. split; [exact E |]. split; [exact Hcover |].
  eapply Forall_impl;
    [exact (exported_velocity_range (Examples.constant (9 # 10)) 128 config
              _ E) |].
  intros batch Hbatch. eapply Forall_impl; [exact Hbatch |].
  intros n [Hrange Hnum]. destruct (Hnum Hcover) as [v Hv].
  exists v. split; [exact Hv | by apply Hrange].
Defined.

Section SongDrumMachineRuns.

Import SongDrumMachineExporter.

Variable random : nat -> Q.
Variable ticksPerStep : Z.
Variable config : Config.

Lemma velocityVariation_calls (k : nat) :
  k <= (velocityVariation random config k).2 <= S k.
Proof.
  unfold velocityVariation.
  destruct (isHumanizeOn config && Js.gt (velocityHumanizeAmount config) 0);
    cbn [snd]; lia.
Qed.

Lemma timingVariation_calls (k : nat) :
  k <= (timingVariation random ticksPerStep config k).2 <= S k.
Proof.
  unfold timingVariation.
  destruct (isHumanizeOn config && Js.gt (timingHumanizeAmount config) 0);
    cbn [snd]; lia.
Qed.

Lemma compileNote_calls (patternData : option Pattern)
    (g : gmap string (list bool)) (tick : Z) (step : nat)
    (instrument : string) (k : nat) :
  k <= (compileNote random ticksPerStep config patternData g tick step
          instrument k).2 <= k + 2.
Proof.
  unfold compileNote.
  destruct (gridActive g instrument step); [| cbn [snd]; lia].
  destruct (truthyNote (INSTRUMENT_MIDI_NOTES config) instrument);
    [| cbn [snd]; lia].
  pose proof (velocityVariation_calls k) as Hv.
  destruct (velocityVariation random config k) as [dv k1]. cbn [snd] in Hv.
  pose proof (timingVariation_calls k1) as Ht.
  destruct (timingVariation random ticksPerStep config k1) as [dt k2].
  cbn [snd] in Ht |- *. lia.
Qed.

Lemma compileStep_calls (patternData : option Pattern)
    (g : gmap string (list bool)) (tick : Z) (step k : nat) :
  k <= (compileStep random ticksPerStep config patternData g tick step k).2.
Proof.
  unfold compileStep.
  set (body := fun (acc : list Note * nat) (instrument : string) =>
                 match compileNote random ticksPerStep config patternData g
                         tick step instrument acc.2 with
                 | (Some n, k') => (acc.1 ++ [n], k')
                 | (None, k') => (acc.1, k')
                 end).
  assert (Hloop : forall l acc, acc.2 <= (fold_left body l acc).2).
  { induction l as [| i l IH]; intros acc; cbn [fold_left]; [lia |].
    etrans; [| apply IH]. unfold body.
    pose proof (compileNote_calls patternData g tick step i acc.2) as H.
    destruct (compileNote random ticksPerStep config patternData g tick
                step i acc.2) as [[n |] k1]; cbn [snd] in H |- *; lia. }
  apply (Hloop (INSTRUMENTS config) ([], k)).
Qed.

Lemma steps_grow (patternData : option Pattern)
    (g : gmap string (list bool)) (l : list nat) (st : State) :
  track st `prefix_of`
    track (fold_left (stepBody random ticksPerStep config patternData g) l st)
  /\ calls st
     <= calls (fold_left (stepBody random ticksPerStep config patternData g)
                 l st).
Proof.
  revert st. induction l as [| s l IH]; intros st; cbn [fold_left]; [done |].
  destruct (IH (stepBody random ticksPerStep config patternData g st s))
    as [Ht Hc].
  split.
  - etrans; [| exact Ht]. cbn [stepBody track]. rewrite addEvent_app.
    by apply prefix_app_r.
  - etrans; [| exact Hc]. cbn [stepBody calls]. apply compileStep_calls.
Qed.

Lemma fillStep_calls (acc : option (gmap string (list bool) * nat))
    (i : nat) (g g' : gmap string (list bool)) (k k' : nat) :
  fillStep random config (Some (g, k)) i = Some (g', k') -> k <= k'.
Proof.
  unfold fillStep. cbn [mbind option_bind].
  destruct (Js.gt (random k) Js.literal_0_4); [| intros [= _ <-]; lia].
  cbn zeta. destruct (g !! _); [| done]. cbn [mbind option_bind].
  intros [= _ <-]. lia.
Qed.

Lemma fillStep_None (l : list nat) :
  fold_left (fillStep random config) l None = None.
Proof. induction l as [| i l IH]; [done | exact IH]. Qed.

Lemma generateFill_calls (numSteps k k' : nat)
    (g : gmap string (list bool)) :
  generateFill random config numSteps k = Some (g, k') -> k <= k'.
Proof.
  unfold generateFill.
  generalize (emptyGrid (INSTRUMENTS config) numSteps).
  generalize (seq 0 numSteps). intros l. revert k.
  induction l as [| i l IH]; intros k g0.
  - intros [= _ <-]. lia.
  - cbn [fold_left].
    destruct (fillStep random config (Some (g0, k)) i) as [[g1 k1] |] eqn:E.
    + intros H. apply IH in H.
      apply (fillStep_calls (Some (g0, k))) in E. lia.
    + by rewrite fillStep_None.
Qed.

(** One token: the cursor advances by the steps of the section, earlier
    batches stay, and the count of random draws does not go down. *)
Lemma exportSection_grow (structureArray : list ascii) (st st' : State)
    (index : nat) (c : ascii) :
  exportSection random ticksPerStep config structureArray st index c
    = Some st' ->
  currentTick st'
  = (currentTick st
     + Z.of_nat (sectionSteps config structureArray index c) * ticksPerStep)%Z
  /\ track st `prefix_of` track st'
  /\ calls st <= calls st'.
Proof.
  unfold exportSection, sectionSteps.
  destruct (Js.isFillDigit c).
  - destruct (generateFill random config (Js.parseInt c) (calls st))
      as [[g k] |] eqn:Hg; [| done].
    cbn [mbind option_bind]. intros [= <-].
    apply generateFill_calls in Hg.
    cbn [compileSection currentTick track calls].
    destruct (steps_grow None g (seq 0 (Js.parseInt c))
                {| track := track st; currentTick := currentTick st;
                   calls := k |}) as [Ht Hc].
    cbn [track calls] in Ht, Hc. split_and!; [done | done | lia].
  - destruct (findPattern config c) as [entry |].
    + intros [= <-]. cbn [compileSection currentTick track calls].
      destruct (steps_grow (Some entry.2) (grid entry.2)
                  (seq 0 (lookAhead structureArray index (steps entry.2)))
                  st) as [Ht Hc].
      by split_and!.
    + intros [= <-]. split_and!; [lia | done | done].
Qed.

Lemma exportFrom_grow (structureArray rest : list ascii) (index : nat)
    (st st' : State) :
  exportFrom random ticksPerStep config structureArray index rest st
    = Some st' ->
  currentTick st'
  = (currentTick st
     + Z.of_nat (totalSteps config structureArray index rest)
       * ticksPerStep)%Z
  /\ track st `prefix_of` track st'
  /\ calls st <= calls st'.
Proof.
  revert index st. induction rest as [| c rest IH]; intros index st.
  - intros [= <-]. cbn [totalSteps]. split_and!; [lia | done | done].
  - cbn [exportFrom totalSteps].
    destruct (exportSection random ticksPerStep config structureArray st
                index c) as [st1 |] eqn:E; [| done].
    cbn [mbind option_bind]. intros Hrest.
    destruct (exportSection_grow _ _ _ _ _ E) as (Hc1 & Ht1 & Hk1).
    destruct (IH _ _ Hrest) as (Hc2 & Ht2 & Hk2).
    split_and!.
    + rewrite Hc2, Hc1, Nat2Z.inj_add. ring.
    + by etrans.
    + lia.
Qed.

End SongDrumMachineRuns.

(** X4.  The final cursor of the SongDrumMachine exporter is ticksPerStep
    times the number of steps compiled: the digit of every fill, the
    (shortened) step count of every found pattern, nothing for an unknown
    token; it depends neither on the grids nor on [Math.random()] nor on
    the humanize settings. *)
Theorem final_cursor_total (random : nat -> Q) (ticksPerStep : Z)
    (config : SongDrumMachineExporter.Config)
    (st : SongDrumMachineExporter.State) :
  SongDrumMachineExporter.compileSong random ticksPerStep config = Some st ->
  let structureArray :=
    Js.spread (SongDrumMachineExporter.songStructure config) in
  SongDrumMachineExporter.currentTick st
  = (Z.of_nat (totalSteps config structureArray 0 structureArray)
     * ticksPerStep)%Z.
Proof.
  intros Hsong structureArray.
  destruct (exportFrom_grow random ticksPerStep config _ _ _ _ _ Hsong)
    as (Hc & _ & _).
  rewrite Hc. cbn [SongDrumMachineExporter.initial
                     SongDrumMachineExporter.currentTick].
  fold structureArray. ring.
Qed.

Lemma final_cursor_total_witness :
  let patterns := [("seq-1", Examples.patternA); ("seq-2", Examples.patternB)] in
  let config := Examples.song "A3XB9" patterns true (1 # 10) in
  exists st,
    SongDrumMachineExporter.compileSong (Examples.constant (9 # 10)) 128 config
    = Some st
    /\ SongDrumMachineExporter.currentTick st
       = (Z.of_nat (1 + 3 + 0 + 2 + 9) * 128)%Z.
Proof.
  intros patterns config.
  eassert (E : SongDrumMachineExporter.compileSong
                 (Examples.constant (9 # 10)) 128 config = Some _)
    by (vm_compute; reflexivity).
  eexists. split; [exact E |].
  exact (final_cursor_total (Examples.constant (9 # 10)) 128 config _ E).
Defined.

(** X5.  While the SongDrumMachine exporter runs over the tokens, the
    batches already on the track stay as they are (the track only grows at
    its end), the count of random draws never goes down and, for a
    non-negative ticksPerStep, neither does the cursor. *)
Theorem track_append_only (random : nat -> Q) (ticksPerStep : Z)
    (config : SongDrumMachineExporter.Config)
    (structureArray rest : list ascii) (index : nat)
    (st st' : SongDrumMachineExporter.State) :
  SongDrumMachineExporter.exportFrom random ticksPerStep config
    structureArray index rest st = Some st' ->
  SongDrumMachineExporter.track st
    `prefix_of` SongDrumMachineExporter.track st'
  /\ SongDrumMachineExporter.calls st <= SongDrumMachineExporter.calls st'
  /\ ((0 <= ticksPerStep)%Z ->
      (SongDrumMachineExporter.currentTick st
       <= SongDrumMachineExporter.currentTick st')%Z).
Proof.
  intros Hrun.
  destruct (exportFrom_grow random ticksPerStep config _ _ _ _ _ Hrun)
    as (Hc & Ht & Hk).
  split_and!; [done | done |]. intros Hpos. rewrite Hc. nia.
Qed.

Lemma track_append_only_witness :
  let config := Examples.song "A2" [("seq-1", Examples.patternA)] true (1 # 10) in
  let st := {| SongDrumMachineExporter.track := [[]];
               SongDrumMachineExporter.currentTick := 7;
               SongDrumMachineExporter.calls := 3 |} in
  exists st',
    SongDrumMachineExporter.exportFrom (Examples.constant (9 # 10)) 128 config
      (Js.spread "A2") 0 (Js.spread "A2") st = Some st'
    /\ [[]] `prefix_of` SongDrumMachineExporter.track st'
    /\ 3 <= SongDrumMachineExporter.calls st'.
Proof.
  intros config st.
  eassert (E : SongDrumMachineExporter.exportFrom
                 (Examples.constant (9 # 10)) 128 config (Js.spread "A2") 0
                 (Js.spread "A2") st = Some _)
    by (vm_compute; reflexivity).
  eexists. split; [exact E |].
  destruct (track_append_only (Examples.constant (9 # 10)) 128 config
              _ _ _ _ _ E) as (Ht & Hk & _).
  split; [exact Ht | exact Hk].
Defined.

Section SongDrumMachineTotal.

Import SongDrumMachineExporter.

Variable random : nat -> Q.
Variable ticksPerStep : Z.
Variable config : Config.

Lemma exportFrom_returns (structureArray rest : list ascii) (index : nat)
    (st : State) :
  unitInterval random ->
  FILL_INSTRUMENTS config <> [] ->
  FILL_INSTRUMENTS config ⊆ INSTRUMENTS config ->
  is_Some (exportFrom random ticksPerStep config structureArray index rest st).
Proof.
  intros Hunit Hne Hsub. revert index st.
  induction rest as [| c rest IH]; intros index st; [done |].
  cbn [exportFrom].
  assert (Hc : is_Some (exportSection random ticksPerStep config
                          structureArray st index c)).
  { unfold exportSection. destruct (Js.isFillDigit c).
    - destruct (generateFill_returns random Hunit config (Js.parseInt c)
                  (calls st) Hne Hsub) as (g & k & -> & _).
      done.
    - by destruct (findPattern config c). }
  destruct Hc as [st1 ->]. cbn [mbind option_bind]. apply IH.
Qed.

(** With no fill instrument, a fill step that passes the 0.4 test reads
    [FILL_INSTRUMENTS[0]] of an empty array, finds no row under the key
    "undefined" and fails. *)
Lemma generateFill_empty_list (numSteps k : nat) :
  FILL_INSTRUMENTS config = [] ->
  "undefined"%string ∉ INSTRUMENTS config ->
  1 <= numSteps ->
  Js.gt (random k) Js.literal_0_4 = true ->
  generateFill random config numSteps k = None.
Proof.
  intros Hfill Hkey Hn Hgt. unfold generateFill.
  destruct numSteps as [| n]; [lia |].
  cbn [seq fold_left]. unfold fillStep at 2. cbn [mbind option_bind].
  rewrite Hgt, Hfill. cbn zeta.
  assert (Hundefined : forall z,
            Js.propertyKey (Js.index (@nil string) z) = "undefined"%string).
  { intros z. unfold Js.index. by destruct (z <? 0)%Z. }
  rewrite Hundefined, emptyGrid_lookup, decide_False by done.
  cbn [mbind option_bind]. apply fillStep_None.
Qed.

(** With every draw at most 0.4, a fill strikes nothing. *)
Lemma generateFill_silent (numSteps k : nat) :
  (forall j, (random j <= Js.literal_0_4)%Q) ->
  generateFill random config numSteps k
  = Some (emptyGrid (INSTRUMENTS config) numSteps, k + numSteps).
Proof.
  intros Hlow. unfold generateFill.
  generalize (emptyGrid (INSTRUMENTS config) numSteps).
  generalize 0 at 1. intros start g. revert start k.
  induction numSteps as [| n IH]; intros start k.
  - cbn. by rewrite Nat.add_0_r.
  - cbn [seq fold_left]. unfold fillStep at 2. cbn [mbind option_bind].
    rewrite (proj2 (gt_false _ _) (Hlow k)).
    rewrite IH. by rewrite Nat.add_succ_r.
Qed.

Lemma compileStep_inactive (patternData : option Pattern)
    (g : gmap string (list bool)) (tick : Z) (step k : nat) :
  (forall instrument, gridActive g instrument step = false) ->
  compileStep random ticksPerStep config patternData g tick step k = ([], k).
Proof.
  intros Hoff. unfold compileStep.
  induction (INSTRUMENTS config) as [| i l IH]; [done |].
  cbn [fold_left]. unfold compileNote at 2. by rewrite Hoff.
Qed.

Lemma compileSection_inactive (patternData : option Pattern)
    (g : gmap string (list bool)) (numSteps : nat) (st : State) :
  (forall instrument step, gridActive g instrument step = false) ->
  compileSection random ticksPerStep config patternData g numSteps st
  = {| track := track st;
       currentTick := (currentTick st + Z.of_nat numSteps * ticksPerStep)%Z;
       calls := calls st |}.
Proof.
  intros Hoff. unfold compileSection.
  assert (Hloop : forall l,
            fold_left (stepBody random ticksPerStep config patternData g) l st
            = st).
  { induction l as [| s l IH]; [done |].
    cbn [fold_left]. unfold stepBody at 2.
    rewrite compileStep_inactive by done. cbn [fst snd addEvent].
    by destruct st. }
  by rewrite Hloop.
Qed.

End SongDrumMachineTotal.

(** X6.  With [Math.random()] in [0, 1) and a non-empty list of fill
    instruments that all belong to [INSTRUMENTS], the SongDrumMachine export
    of a non-empty structure over at least one sequencer never throws: it
    ends in the download. *)
Theorem export_downloads (random : nat -> Q) (ticksPerStep : Z)
    (config : SongDrumMachineExporter.Config) :
  unitInterval random ->
  SongDrumMachineExporter.FILL_INSTRUMENTS config <> [] ->
  SongDrumMachineExporter.FILL_INSTRUMENTS config
    ⊆ SongDrumMachineExporter.INSTRUMENTS config ->
  SongDrumMachineExporter.songStructure config <> EmptyString ->
  SongDrumMachineExporter.sequencersData config <> [] ->
  exists st,
    SongDrumMachineExporter.exportSong random ticksPerStep config
    = SongDrumMachineExporter.Downloaded
        (SongDrumMachineExporter.bpm config) st.
Proof.
  intros Hunit Hne Hsub Hsong Hseq.
  unfold SongDrumMachineExporter.exportSong.
  destruct (SongDrumMachineExporter.songStructure config) eqn:Es; [done |].
  destruct (SongDrumMachineExporter.sequencersData config) eqn:Ed; [done |].
  cbn [Js.truthyString negb orb length Nat.eqb].
  unfold SongDrumMachineExporter.compileSong. rewrite Es.
  destruct (exportFrom_returns random ticksPerStep config
              (Js.spread (String a s)) (Js.spread (String a s)) 0
              SongDrumMachineExporter.initial Hunit Hne Hsub) as [st ->].
  by exists st.
Qed.

Lemma export_downloads_witness :
  let config := Examples.song "9A9" [("seq-1", Examples.patternA)] true (1 # 10) in
  exists st,
    SongDrumMachineExporter.exportSong (Examples.constant (9 # 10)) 128 config
    = SongDrumMachineExporter.Downloaded 120 st.
Proof.
  intros config.
  apply (export_downloads (Examples.constant (9 # 10)) 128 config).
  - apply constant_unitInterval; [discriminate | reflexivity].
  - discriminate.
  - apply subseteq_decide. vm_compute. reflexivity.
  - discriminate.
  - discriminate.
Defined.

(** X7.  With an empty list of fill instruments and no instrument named
    "undefined", a fill whose first draw exceeds the literal 0.4 throws: the
    token fails and so does the rest of the loop. *)
Theorem fill_without_instruments_throws (random : nat -> Q)
    (ticksPerStep : Z) (config : SongDrumMachineExporter.Config)
    (structureArray rest : list ascii) (index : nat) (d : ascii)
    (st : SongDrumMachineExporter.State) :
  SongDrumMachineExporter.FILL_INSTRUMENTS config = [] ->
  "undefined"%string ∉ SongDrumMachineExporter.INSTRUMENTS config ->
  Js.isFillDigit d = true ->
  (Js.literal_0_4 < random (SongDrumMachineExporter.calls st))%Q ->
  SongDrumMachineExporter.exportSection random ticksPerStep config
    structureArray st index d = None
  /\ SongDrumMachineExporter.exportFrom random ticksPerStep config
       structureArray index (d :: rest) st = None.
Proof.
  intros Hfill Hkey Hd Hgt.
  assert (H : SongDrumMachineExporter.exportSection random ticksPerStep
                config structureArray st index d = None).
  { unfold SongDrumMachineExporter.exportSection. rewrite Hd.
    rewrite generateFill_empty_list; [done | done | done | |].
    - by apply isFillDigit_parseInt.
    - by apply gt_spec. }
  split; [exact H |].
  cbn [SongDrumMachineExporter.exportFrom]. by rewrite H.
Qed.

Lemma fill_without_instruments_throws_witness :
  let config := songWith "2" [("seq-1", Examples.patternA)] [] false 0 0 in
  SongDrumMachineExporter.FILL_INSTRUMENTS config = []
  /\ ("undefined"%string ∉ SongDrumMachineExporter.INSTRUMENTS config)
  /\ SongDrumMachineExporter.exportSong (Examples.constant (9 # 10)) 128 config
     = SongDrumMachineExporter.Thrown.
Proof.
  intros config.
  assert (Hkey : "undefined"%string
                   ∉ SongDrumMachineExporter.INSTRUMENTS config).
  { apply (proj1 (bool_decide_eq_false _)). vm_compute. reflexivity. }
  split; [reflexivity |]. split; [exact Hkey |].
  destruct (fill_without_instruments_throws (Examples.constant (9 # 10)) 128
              config (Js.spread "2") [] 0 "2"
              SongDrumMachineExporter.initial eq_refl Hkey eq_refl eq_refl)
    as [_ H].
  unfold SongDrumMachineExporter.exportSong,
    SongDrumMachineExporter.compileSong.
  cbn [SongDrumMachineExporter.songStructure config songWith Js.spread
       list_ascii_of_string].
  change (SongDrumMachineExporter.exportFrom (Examples.constant (9 # 10)) 128
            config ["2"%char] 0 ["2"%char] SongDrumMachineExporter.initial)
    with (SongDrumMachineExporter.exportFrom (Examples.constant (9 # 10)) 128
            config (Js.spread "2") 0 ["2"%char]
            SongDrumMachineExporter.initial).
  rewrite H. reflexivity.
Defined.

(** X8.  When every draw of [Math.random()] is at most the number that the
    literal 0.4 denotes, a fill of the SongDrumMachine exporter strikes
    nothing: the token adds no batch, makes one draw per step and still
    advances the cursor by its steps. *)
Theorem silent_fill (random : nat -> Q) (ticksPerStep : Z)
    (config : SongDrumMachineExporter.Config) (structureArray : list ascii)
    (index : nat) (d : ascii) (st : SongDrumMachineExporter.State) :
  (forall j, (random j <= Js.literal_0_4)%Q) ->
  Js.isFillDigit d = true ->
  SongDrumMachineExporter.exportSection random ticksPerStep config
    structureArray st index d
  = Some {| SongDrumMachineExporter.track := SongDrumMachineExporter.track st;
            SongDrumMachineExporter.currentTick :=
              (SongDrumMachineExporter.currentTick st
               + Z.of_nat (Js.parseInt d) * ticksPerStep)%Z;
            SongDrumMachineExporter.calls :=
              SongDrumMachineExporter.calls st + Js.parseInt d |}.
Proof.
  intros Hlow Hd. unfold SongDrumMachineExporter.exportSection.
  rewrite Hd, generateFill_silent by done. cbn [mbind option_bind].
  rewrite compileSection_inactive; [done |].
  intros instrument step. apply gridActive_emptyGrid.
Qed.

Lemma silent_fill_witness :
  let config := Examples.song "3" [("seq-1", Examples.patternA)] true (1 # 10) in
  (forall j, (Examples.constant Js.literal_0_4 j <= Js.literal_0_4)%Q)
  /\ SongDrumMachineExporter.exportSection
       (Examples.constant Js.literal_0_4) 128
       config (Js.spread "3") SongDrumMachineExporter.initial 0 "3"
     = Some {| SongDrumMachineExporter.track := [];
               SongDrumMachineExporter.currentTick := 384;
               SongDrumMachineExporter.calls := 3 |}.
Proof.
  intros config.
  assert (Hlow : forall j,
            (Examples.constant Js.literal_0_4 j <= Js.literal_0_4)%Q)
    by (intros j; apply Qle_refl).
  split; [exact Hlow |].
  exact (silent_fill (Examples.constant Js.literal_0_4) 128 config
           (Js.spread "3")
           0 "3" SongDrumMachineExporter.initial Hlow eq_refl).
Defined.

Section SongDrumMachineRandom.

Import SongDrumMachineExporter.

Variables random1 random2 : nat -> Q.
Variable ticksPerStep : Z.
Variable config : Config.
Hypothesis humanize_is_off : isHumanizeOn config = false.

Lemma compileNote_random (patternData : option Pattern)
    (g : gmap string (list bool)) (tick : Z) (step : nat)
    (instrument : string) (k : nat) :
  compileNote random1 ticksPerStep config patternData g tick step instrument k
  = compileNote random2 ticksPerStep config patternData g tick step
      instrument k.
Proof.
  unfold compileNote.
  by rewrite !velocityVariation_off, !timingVariation_off.
Qed.

Lemma compileSection_random (patternData : option Pattern)
    (g : gmap string (list bool)) (numSteps : nat) (st : State) :
  compileSection random1 ticksPerStep config patternData g numSteps st
  = compileSection random2 ticksPerStep config patternData g numSteps st.
Proof.
  unfold compileSection.
  rewrite (fold_left_ext_eq
             (stepBody random1 ticksPerStep config patternData g)
             (stepBody random2 ticksPerStep config patternData g)); [done |].
  intros s step. unfold stepBody, compileStep.
  rewrite (fold_left_ext_eq
             (fun acc instrument =>
                match compileNote random1 ticksPerStep config patternData g
                        (currentTick s) step instrument acc.2 with
                | (Some n, k') => (acc.1 ++ [n], k')
                | (None, k') => (acc.1, k')
                end)
             (fun acc instrument =>
                match compileNote random2 ticksPerStep config patternData g
                        (currentTick s) step instrument acc.2 with
                | (Some n, k') => (acc.1 ++ [n], k')
                | (None, k') => (acc.1, k')
                end)); [done |].
  intros acc i. by rewrite compileNote_random.
Qed.

Lemma exportFrom_random (structureArray rest : list ascii) (index : nat)
    (st : State) :
  Forall (fun c => Js.isFillDigit c = false) rest ->
  exportFrom random1 ticksPerStep config structureArray index rest st
  = exportFrom random2 ticksPerStep config structureArray index rest st.
Proof.
  revert index st. induction rest as [| c rest IH]; intros index st Hrest;
    [done |].
  apply Forall_cons in Hrest as [Hc Hrest].
  cbn [exportFrom]. unfold exportSection. rewrite Hc.
  destruct (findPattern config c) as [entry |]; cbn [mbind option_bind].
  - rewrite compileSection_random. by apply IH.
  - by apply IH.
Qed.

End SongDrumMachineRandom.

(** X9.  With the humanize toggle off and no fill digit in the song
    structure, the SongDrumMachine export does not depend on
    [Math.random()]. *)
Theorem export_without_randomness (random1 random2 : nat -> Q)
    (ticksPerStep : Z) (config : SongDrumMachineExporter.Config) :
  SongDrumMachineExporter.isHumanizeOn config = false ->
  Forall (fun c => Js.isFillDigit c = false)
    (Js.spread (SongDrumMachineExporter.songStructure config)) ->
  SongDrumMachineExporter.exportSong random1 ticksPerStep config
  = SongDrumMachineExporter.exportSong random2 ticksPerStep config.
Proof.
  intros Hoff Hsong.
  unfold SongDrumMachineExporter.exportSong,
    SongDrumMachineExporter.compileSong.
  by rewrite (exportFrom_random random1 random2 ticksPerStep config Hoff).
Qed.

Lemma export_without_randomness_witness :
  let patterns := [("seq-1", Examples.patternA); ("seq-2", Examples.patternB)] in
  let config := Examples.song "ABxA" patterns false (1 # 10) in
  SongDrumMachineExporter.exportSong (Examples.constant 0) 128 config
  = SongDrumMachineExporter.exportSong (Examples.constant (9 # 10)) 128 config.
Proof.
  intros patterns config.
  apply (export_without_randomness (Examples.constant 0)
           (Examples.constant (9 # 10)) 128 config).
  - reflexivity.
  - repeat constructor.
Defined.

Lemma velocityVariation_range (random : nat -> Q)
    (config : SongDrumMachineExporter.Config) (k : nat) :
  unitInterval random ->
  (0 <= SongDrumMachineExporter.velocityHumanizeAmount config)%Q ->
  (SongDrumMachineExporter.velocityHumanizeAmount config <= 1)%Q ->
  (-20 <= (SongDrumMachineExporter.velocityVariation random config k).1
   <= 20)%Z.
Proof.
  intros Hunit Ha0 Ha1. unfold SongDrumMachineExporter.velocityVariation.
  destruct (SongDrumMachineExporter.isHumanizeOn config
            && Js.gt (SongDrumMachineExporter.velocityHumanizeAmount config) 0);
    cbn [fst]; [| lia].
  destruct (Hunit k) as [Hr0 Hr1].
  set (a := SongDrumMachineExporter.velocityHumanizeAmount config) in *.
  set (r := random k) in *.
  assert (Hra : (0 <= r * a)%Q) by nra.
  assert (Hra1 : (r * a <= a)%Q) by nra.
  split.
  - apply (Math_round_mono (-20)). nra.
  - apply (Math_round_mono _ 20). nra.
Qed.

Lemma timingVariation_upper (random : nat -> Q) (ticksPerStep : Z)
    (config : SongDrumMachineExporter.Config) (k : nat) :
  unitInterval random -> (0 <= ticksPerStep)%Z ->
  (0 <= SongDrumMachineExporter.timingHumanizeAmount config)%Q ->
  ((SongDrumMachineExporter.timingVariation random ticksPerStep config k).1
   <= Js.Math_round (inject_Z ticksPerStep * (1 # 4)
                     * SongDrumMachineExporter.timingHumanizeAmount config))%Z.
Proof.
  intros Hunit Ht Ha. unfold SongDrumMachineExporter.timingVariation.
  rewrite Zle_Qle in Ht. change (inject_Z 0) with 0%Q in Ht.
  set (T := (inject_Z ticksPerStep * (1 # 4))%Q).
  assert (HT : (0 <= T)%Q) by (subst T; lra).
  assert (HTa : (0 <= T * SongDrumMachineExporter.timingHumanizeAmount config)%Q)
    by nra.
  destruct (SongDrumMachineExporter.isHumanizeOn config
            && Js.gt (SongDrumMachineExporter.timingHumanizeAmount config) 0);
    cbn [fst].
  - apply Math_round_mono. destruct (Hunit k) as [_ Hr]. nra.
  - by apply Math_round_nonneg.
Qed.

Lemma swingDelay_upper (ticksPerStep : Z)
    (config : SongDrumMachineExporter.Config) (step : nat) :
  (0 <= ticksPerStep)%Z ->
  (SongDrumMachineExporter.swingAmount config <= 1 # 4)%Q ->
  (SongDrumMachineExporter.swingDelay ticksPerStep config step
   <= Js.Math_round (inject_Z ticksPerStep * (1 # 2)))%Z.
Proof.
  intros Ht Hs. unfold SongDrumMachineExporter.swingDelay.
  rewrite Zle_Qle in Ht. change (inject_Z 0) with 0%Q in Ht.
  destruct (Js.gt (SongDrumMachineExporter.swingAmount config) 0
            && Nat.odd step).
  - apply Math_round_mono. nra.
  - apply Math_round_nonneg. lra.
Qed.

(** X10.  Under the input contract, with [Math.random()] in [0, 1) and a
    non-negative ticksPerStep, a note starts no earlier than its grid
    position less the rounding of a quarter step times the timing amount,
    and no later than its grid position plus the roundings of that quarter
    step and of half a step (the largest swing); its velocity, when a
    number, is within 20 of the base velocity before the clamp; and a note
    costs at most two random draws. *)
Theorem humanization_bounds (random : nat -> Q) (ticksPerStep : Z)
    (config : SongDrumMachineExporter.Config) (patternData : option Pattern)
    (g : gmap string (list bool)) (tick : Z) (step : nat)
    (instrument : string) (k k' : nat) (n : Note) :
  unitInterval random -> (0 <= ticksPerStep)%Z -> inputContract config ->
  SongDrumMachineExporter.compileNote random ticksPerStep config patternData
    g tick step instrument k = (Some n, k') ->
  let position := (tick + Z.of_nat step * ticksPerStep)%Z in
  (position + timingFloor ticksPerStep config <= startTick n
   <= position
      + Js.Math_round (inject_Z ticksPerStep * (1 # 4)
                       * SongDrumMachineExporter.timingHumanizeAmount config)
      + Js.Math_round (inject_Z ticksPerStep * (1 # 2)))%Z
  /\ (exists dv,
        (-20 <= dv <= 20)%Z
        /\ velocity n
           = (fun b => SongDrumMachineExporter.clampVelocity (b + dv))
               <$> SongDrumMachineExporter.baseVelocity patternData
                     instrument step)
  /\ k <= k' <= k + 2.
Proof.
  intros Hunit Ht ([Hs0 Hs1] & [Ha0 Ha1] & [Hv0 Hv1]) Hn position.
  destruct (compileNote_Some _ _ _ _ _ _ _ _ _ _ _ Hn)
    as (_ & _ & Hstart & Hvel & _ & _ & Hk).
  pose proof (compileNote_calls random ticksPerStep config patternData g
                tick step instrument k) as Hcalls.
  rewrite Hn in Hcalls. cbn [snd] in Hcalls.
  pose proof (timingVariation_lower random ticksPerStep config
                (SongDrumMachineExporter.velocityVariation random config k).2
                Hunit Ht Ha0) as Hlow.
  pose proof (timingVariation_upper random ticksPerStep config
                (SongDrumMachineExporter.velocityVariation random config k).2
                Hunit Ht Ha0) as Hup.
  pose proof (swingDelay_nonneg ticksPerStep config step Ht) as Hsw0.
  pose proof (swingDelay_upper ticksPerStep config step Ht Hs1) as Hsw1.
  split_and!.
  - subst position. lia.
  - subst position. lia.
  - exists (SongDrumMachineExporter.velocityVariation random config k).1.
    split; [by apply velocityVariation_range | exact Hvel].
  - lia.
  - lia.
Qed.

Lemma humanization_bounds_witness :
  let config := Examples.song "A" [("seq-1", Examples.patternA)] true (1 # 4) in
  exists n k',
    SongDrumMachineExporter.compileNote (Examples.constant (9 # 10)) 128
      config (Some Examples.patternA) (grid Examples.patternA) 0 1 "snare" 0
    = (Some n, k')
    /\ (128 - 32 <= startTick n <= 128 + 32 + 64)%Z
    /\ k' <= 2.
Proof.
  intros config.
  eassert (E : SongDrumMachineExporter.compileNote
                 (Examples.constant (9 # 10)) 128 config
                 (Some Examples.patternA) (grid Examples.patternA) 0 1
                 "snare" 0 = (Some _, _))
    by (vm_compute; reflexivity).
  eexists _, _. split; [exact E |].
  destruct (humanization_bounds (Examples.constant (9 # 10)) 128 config
              _ _ _ _ _ _ _ _
              (constant_unitInterval (9 # 10) ltac:(discriminate) eq_refl)
              ltac:(lia)
              ltac:(unfold inputContract; cbn; split_and!; discriminate)
              E) as (Hstart & _ & Hk).
  split; [exact Hstart | exact (proj2 Hk)].
Defined.

(** ** Further properties: the RockForge exporters *)

Lemma fold_left_bind_fails {A B} (f : A -> B -> option A) (l : list B)
    (x : B) (init : option A) :
  x ∈ l -> (forall a, f a x = None) ->
  fold_left (fun acc y => acc ≫= fun a => f a y) l init = None.
Proof.
  intros Hin Hfail. revert init.
  induction l as [| y l IH]; intros init; [by apply elem_of_nil in Hin |].
  cbn [fold_left]. destruct init as [a |]; [| apply fold_left_bind_None].
  cbn [mbind option_bind].
  apply elem_of_cons in Hin as [<- | Hin].
  - rewrite Hfail. apply fold_left_bind_None.
  - by apply IH.
Qed.

Section RockForgeSteps.

Import RockForgeExporter.

Variable params : Params.

Lemma sequencer_elem_of (sd : list (string * Pattern)) (id : string)
    (data : Pattern) :
  sequencer sd id = Some data -> exists entry, entry ∈ sd /\ entry.2 = data.
Proof.
  unfold sequencer.
  destruct (find (fun entry => String.eqb entry.1 id) sd) as [entry |] eqn:E;
    [| done].
  intros [= <-]. apply find_some in E as [Hin _].
  exists entry. split; [by apply list_elem_of_In | done].
Qed.

Lemma findSequencerId_sequencer (sd : list (string * Pattern)) (c : ascii)
    (id : string) :
  findSequencerId sd c = Some id -> is_Some (sequencer sd id).
Proof.
  unfold findSequencerId. intros H. apply find_some in H as [_ H].
  by destruct (sequencer sd id).
Qed.

Lemma head_sequencer (sd : list (string * Pattern)) (id : string) :
  head (map fst sd) = Some id -> is_Some (sequencer sd id).
Proof.
  destruct sd as [| [id0 p] sd]; [done |]. cbn. intros [= ->].
  unfold sequencer. cbn [find fst]. by rewrite String.eqb_refl.
Qed.

Lemma truthyId_Some (id : option string) (s : string) :
  truthyId id = Some s -> id = Some s.
Proof.
  destruct id as [s0 |]; [| done]. cbn.
  destruct (Js.truthyString s0); [| done]. by intros [= ->].
Qed.

(** The notes of a step, with the instruments they come from. *)
Lemma notesForStep_Forall (P : Note -> Prop) (g : gmap string (list bool))
    (data : Pattern) (ticks : Z) (step : nat) (notes : list Note) :
  (forall instrument n,
     instrument ∈ INSTRUMENTS params ->
     noteEvent params g data ticks step instrument = Some (Some n) -> P n) ->
  notesForStep params g data ticks step = Some notes -> Forall P notes.
Proof.
  unfold notesForStep.
  set (body := fun (acc : option (list Note)) (instrument : string) =>
                 acc ≫= fun collected =>
                   noteEvent params g data ticks step instrument ≫=
                     fun e => Some (match e with
                                    | Some n => collected ++ [n]
                                    | None => collected
                                    end)).
  assert (Hloop : forall l acc,
            (forall instrument n,
               instrument ∈ l ->
               noteEvent params g data ticks step instrument = Some (Some n)
               -> P n) ->
            Forall P acc ->
            fold_left body l (Some acc) = Some notes -> Forall P notes).
  { induction l as [| i l IH]; intros acc HP Hacc.
    - by intros [= <-].
    - cbn [fold_left]. unfold body at 2. cbn [mbind option_bind].
      destruct (noteEvent params g data ticks step i) as [e |] eqn:E.
      + cbn [mbind option_bind]. apply IH.
        * intros instrument n Hin. apply HP. by right.
        * destruct e as [n |]; [| done].
          apply Forall_app. split; [done |].
          constructor; [| constructor]. eapply HP; [by left | exact E].
      + cbn [mbind option_bind]. intros Hnone. exfalso. revert Hnone.
        clear. induction l as [| j l IHl]; [done | exact IHl]. }
  intros HP. apply Hloop; [exact HP | constructor].
Qed.

Lemma noteEvent_Some (g : gmap string (list bool)) (data : Pattern)
    (ticks : Z) (step : nat) (instrument : string) (n : Note) :
  noteEvent params g data ticks step instrument = Some (Some n) ->
  gridActive g instrument step = true
  /\ truthyNote (INSTRUMENT_MIDI_NOTES params) instrument = Some (pitch n)
  /\ (exists row,
        velocities data !! instrument = Some row
        /\ velocity n = rescaleAt row step)
  /\ startTick n = (ticks + Z.of_nat step * ticksPerStep)%Z
  /\ duration n = "16"%string /\ channel n = 10%Z.
Proof.
  unfold noteEvent.
  destruct (gridActive g instrument step); [| done].
  destruct (truthyNote (INSTRUMENT_MIDI_NOTES params) instrument); [| done].
  destruct (velocities data !! instrument) as [row |]; [| done].
  cbn [mbind option_bind]. intros [= <-]. cbn.
  split_and!; try done. by exists row.
Qed.

(** The batches of [compileSteps], one per step that sounds, in the order
    of the steps. *)
Lemma compileSteps_batches (B : list Note -> Prop)
    (g : gmap string (list bool)) (data : Pattern) (numSteps : nat)
    (st st' : State) :
  (forall step notes,
     step < numSteps ->
     notesForStep params g data (totalTicks st) step = Some notes ->
     notes <> [] -> B notes) ->
  compileSteps params g data numSteps st = Some st' ->
  exists stepsOf new,
    track st' = track st ++ new
    /\ Forall2
         (fun step batch =>
            batchAt (totalTicks st + Z.of_nat step * ticksPerStep)%Z batch
            /\ B batch)
         stepsOf new
    /\ StronglySorted lt stepsOf
    /\ Forall (fun step => step < numSteps) stepsOf
    /\ totalTicks st' = (totalTicks st + Z.of_nat numSteps * ticksPerStep)%Z
    /\ calls st' = calls st.
Proof.
  intros HB. unfold compileSteps.
  set (body := fun (acc : option (list (list Note))) (step : nat) =>
                 acc ≫= fun t =>
                   notesForStep params g data (totalTicks st) step ≫=
                     fun notes => Some (addEvent notes t)).
  assert (Hloop : forall m t,
            m <= numSteps ->
            fold_left body (seq 0 m) (Some (track st)) = Some t ->
            exists stepsOf new,
              t = track st ++ new
              /\ Forall2
                   (fun step batch =>
                      batchAt
                        (totalTicks st + Z.of_nat step * ticksPerStep)%Z batch
                      /\ B batch)
                   stepsOf new
              /\ StronglySorted lt stepsOf
              /\ Forall (fun step => step < m) stepsOf).
  { induction m as [| m IH]; intros t Hm.
    - intros [= <-]. exists [], []. rewrite app_nil_r.
      split_and!; [done | constructor | constructor | constructor].
    - rewrite seq_S, fold_left_app. cbn [fold_left Nat.add].
      destruct (fold_left body (seq 0 m) (Some (track st))) as [t1 |] eqn:E1;
        [| done].
      unfold body at 1. cbn [mbind option_bind].
      destruct (notesForStep params g data (totalTicks st) m)
        as [notes |] eqn:En; [| done].
      cbn [mbind option_bind]. intros [= <-].
      destruct (IH t1 ltac:(lia) eq_refl) as (stepsOf & new & -> & H2 & Hs & Hlt).
      assert (Hlt' : Forall (fun step => step < S m) stepsOf).
      { eapply Forall_impl; [exact Hlt |]. intros x Hx. cbn in Hx. lia. }
      destruct notes as [| n notes]; cbn [addEvent].
      + by exists stepsOf, new.
      + exists (stepsOf ++ [m]), (new ++ [n :: notes]). split_and!.
        * by rewrite app_assoc.
        * apply Forall2_app; [done |]. constructor; [| constructor].
          split.
          -- split; [done |].
             apply (notesForStep_Forall _ g data (totalTicks st) m);
               [| exact En].
             intros instrument n0 _ Hn0.
             by destruct (noteEvent_Some _ _ _ _ _ _ Hn0)
               as (_ & _ & _ & Hstart & _).
          -- apply (HB m); [lia | exact En | done].
        * apply StronglySorted_app_2.
          -- intros x1 x2 Hx1 Hx2.
             apply list_elem_of_singleton in Hx2 as ->.
             rewrite Forall_forall in Hlt. by apply Hlt.
          -- done.
          -- repeat constructor.
        * apply Forall_app. split; [done |].
          constructor; [lia | constructor]. }
  destruct (fold_left body (seq 0 numSteps) (Some (track st)))
    as [t |] eqn:E; [| done].
  cbn [mbind option_bind]. intros [= <-]. cbn [track totalTicks calls].
  destruct (Hloop numSteps t (le_n _) E) as (stepsOf & new & -> & H2 & Hs & Hlt).
  exists stepsOf, new. by split_and!.
Qed.

End RockForgeSteps.

Lemma rescale_range (v : Z) :
  (0 <= v <= 127)%Z -> (0 <= rescale v <= 100)%Z.
Proof.
  intros Hv.
  assert (H0 : rescale 0 = 0%Z) by reflexivity.
  assert (H127 : rescale 127 = 100%Z) by reflexivity.
  split.
  - rewrite <- H0. apply rescale_mono. lia.
  - rewrite <- H127. apply rescale_mono. lia.
Qed.

(** A property of the loop state that the change of the draw count and
    [compileSteps] over a pattern of [sequencersData] keep is kept by both
    RockForge loops. *)
Section RockForgeInvariant.

Import RockForgeExporter.

Variable random : nat -> Q.
Variable params : Params.
Variable I : State -> Prop.
Hypothesis I_calls :
  forall st k,
    I st ->
    I {| track := track st; totalTicks := totalTicks st; calls := k |}.
Hypothesis I_steps :
  forall g entry numSteps st st',
    entry ∈ sequencersData params -> I st ->
    compileSteps params g entry.2 numSteps st = Some st' -> I st'.

Lemma compileSteps_inv (g : gmap string (list bool)) (id : string)
    (data : Pattern) (numSteps : nat) (st st' : State) :
  sequencer (sequencersData params) id = Some data -> I st ->
  compileSteps params g data numSteps st = Some st' -> I st'.
Proof.
  intros Hseq HI Hsteps.
  destruct (sequencer_elem_of _ _ _ Hseq) as (entry & Hin & <-).
  by eapply I_steps.
Qed.

Lemma exportItem_inv (st st' : State) (item : ascii) :
  I st -> exportItem random params st item = Some st' -> I st'.
Proof.
  intros HI. unfold exportItem.
  destruct (Js.isUpperLetter item).
  - destruct (truthyId (findSequencerId (sequencersData params) item))
      as [id |]; [| by intros [= <-]].
    destruct (sequencer (sequencersData params) id) as [data |] eqn:Hseq;
      [| done].
    cbn [mbind option_bind]. by apply (compileSteps_inv _ id).
  - destruct (Js.isFillDigit item); [| by intros [= <-]].
    destruct (_generateFillPattern random (Js.parseInt item)
                (FILL_INSTRUMENTS params) (calls st)) as [[g k] |]; [| done].
    cbn [mbind option_bind].
    destruct (truthyId (head (map fst (sequencersData params)))) as [id |].
    + destruct (sequencer (sequencersData params) id) as [data |] eqn:Hseq;
        [| done].
      cbn [mbind option_bind]. apply (compileSteps_inv _ id); [done |].
      by apply I_calls.
    + intros [= <-]. by apply I_calls.
Qed.

Lemma compileSong_inv (st : State) :
  I initial -> compileSong random params = Some st -> I st.
Proof.
  unfold compileSong. generalize initial.
  induction (Js.spread (songStructure params)) as [| c l IH]; intros st0 HI.
  - by intros [= <-].
  - cbn [fold_left mbind option_bind].
    destruct (exportItem random params st0 c) as [st1 |] eqn:E.
    + apply IH. by apply (exportItem_inv st0 st1 c).
    + by rewrite fold_left_bind_None.
Qed.

Lemma revised_exportItem_inv (ls ls' : RockForgeExporterRevised.LoopState)
    (item : ascii) :
  I (RockForgeExporterRevised.base ls) ->
  RockForgeExporterRevised.exportItem random params ls item = Some ls' ->
  I (RockForgeExporterRevised.base ls').
Proof.
  intros HI. unfold RockForgeExporterRevised.exportItem.
  destruct (Js.isUpperLetter item).
  - destruct (truthyId (findSequencerId (sequencersData params) item))
      as [id |]; [| by intros [= <-]].
    destruct (sequencer (sequencersData params) id) as [data |] eqn:Hseq;
      [| done].
    cbn [mbind option_bind].
    destruct (compileSteps params (grid data) data (steps data)
                (RockForgeExporterRevised.base ls)) as [st1 |] eqn:E;
      [| done].
    cbn [mbind option_bind]. intros [= <-]. cbn.
    by apply (compileSteps_inv _ id _ _ _ _ Hseq HI E).
  - destruct (Js.isFillDigit item); [| by intros [= <-]].
    destruct (_generateFillPattern random (Js.parseInt item)
                (FILL_INSTRUMENTS params)
                (calls (RockForgeExporterRevised.base ls)))
      as [[g k] |]; [| done].
    cbn [mbind option_bind].
    destruct (RockForgeExporterRevised.sequencerIdForFillSounds params
                (RockForgeExporterRevised.lastValidSequencerId ls))
      as [id |].
    + destruct (sequencer (sequencersData params) id) as [data |] eqn:Hseq;
        [| done].
      cbn [mbind option_bind].
      destruct (compileSteps params g data (Js.parseInt item) _)
        as [st1 |] eqn:E; [| done].
      cbn [mbind option_bind]. intros [= <-]. cbn.
      apply (compileSteps_inv _ id _ _ _ _ Hseq (I_calls _ k HI) E).
    + intros [= <-]. cbn. by apply I_calls.
Qed.

Lemma revised_compileSong_inv (ls : RockForgeExporterRevised.LoopState) :
  I initial ->
  RockForgeExporterRevised.compileSong random params = Some ls ->
  I (RockForgeExporterRevised.base ls).
Proof.
  unfold RockForgeExporterRevised.compileSong.
  change initial
    with (RockForgeExporterRevised.base RockForgeExporterRevised.initial).
  generalize RockForgeExporterRevised.initial.
  induction (Js.spread (songStructure params)) as [| c l IH]; intros ls0 HI.
  - by intros [= <-].
  - cbn [fold_left mbind option_bind].
    destruct (RockForgeExporterRevised.exportItem random params ls0 c)
      as [ls1 |] eqn:E.
    + apply IH. by apply (revised_exportItem_inv ls0 ls1 c).
    + by rewrite fold_left_bind_None.
Qed.

End RockForgeInvariant.

Lemma compileSteps_ordered (params : RockForgeExporter.Params)
    (g : gmap string (list bool)) (data : Pattern) (numSteps : nat)
    (st st' : RockForgeExporter.State) :
  (0 <= RockForgeExporter.totalTicks st)%Z ->
  (128 | RockForgeExporter.totalTicks st)%Z ->
  orderedTrack (RockForgeExporter.totalTicks st) (RockForgeExporter.track st) ->
  RockForgeExporter.compileSteps params g data numSteps st = Some st' ->
  (0 <= RockForgeExporter.totalTicks st')%Z
  /\ (128 | RockForgeExporter.totalTicks st')%Z
  /\ orderedTrack (RockForgeExporter.totalTicks st')
       (RockForgeExporter.track st').
Proof.
  intros Hpos Hdiv (ticks & Hat & Hsorted & Hrange) Hsteps.
  destruct (compileSteps_batches params (fun _ => True) g data numSteps st st'
              ltac:(done) Hsteps)
    as (stepsOf & new & Htrack & Hnew & Hs & Hlt & Hticks & _).
  unfold RockForgeExporter.ticksPerStep in *.
  set (base := RockForgeExporter.totalTicks st) in *.
  set (tickOf := fun step : nat => (base + Z.of_nat step * 128)%Z).
  split_and!.
  - rewrite Hticks. lia.
  - rewrite Hticks. apply Z.divide_add_r; [done |]. apply Z.divide_factor_r.
  - exists (ticks ++ (tickOf <$> stepsOf)). split_and!.
    + rewrite Htrack. apply Forall2_app; [done |].
      apply Forall2_fmap_l. eapply Forall2_impl; [exact Hnew |].
      intros step batch [Hb _]. exact Hb.
    + apply StronglySorted_app_2.
      * intros x1 x2 Hx1 Hx2.
        rewrite Forall_forall in Hrange. destruct (Hrange x1 Hx1) as [Hx _].
        apply list_elem_of_fmap in Hx2 as (step & -> & _).
        subst tickOf. cbv beta in *. lia.
      * done.
      * eapply StronglySorted_fmap; [| exact Hs].
        intros x y Hxy. subst tickOf. cbv beta in *. lia.
    + apply Forall_app. split.
      * eapply Forall_impl; [exact Hrange |].
        intros x [Hx Hd]. cbv beta. split; [| done]. rewrite Hticks. lia.
      * apply Forall_fmap. eapply Forall_impl; [exact Hlt |].
        intros step Hstep. subst tickOf. cbv beta in *.
        unfold compose. split.
        -- rewrite Hticks. lia.
        -- apply Z.divide_add_r; [done |]. apply Z.divide_factor_r.
Qed.

(** X11.  In both RockForge exporters the batches of the exported track
    start at strictly increasing ticks, every one a multiple of 128 that
    lies from 0 up to, and not including, the final [totalTicks]; every
    batch is non-empty and its notes all start at the tick of the batch. *)
Theorem rockforge_track_ordered (random : nat -> Q)
    (params : RockForgeExporter.Params) :
  (forall st,
     RockForgeExporter.compileSong random params = Some st ->
     orderedTrack (RockForgeExporter.totalTicks st)
       (RockForgeExporter.track st))
  /\ (forall ls,
        RockForgeExporterRevised.compileSong random params = Some ls ->
        orderedTrack
          (RockForgeExporter.totalTicks (RockForgeExporterRevised.base ls))
          (RockForgeExporter.track (RockForgeExporterRevised.base ls))).
Proof.
  set (I := fun st : RockForgeExporter.State =>
              (0 <= RockForgeExporter.totalTicks st)%Z
              /\ (128 | RockForgeExporter.totalTicks st)%Z
              /\ orderedTrack (RockForgeExporter.totalTicks st)
                   (RockForgeExporter.track st)).
  assert (Hcalls : forall st k,
            I st ->
            I {| RockForgeExporter.track := RockForgeExporter.track st;
                 RockForgeExporter.totalTicks :=
                   RockForgeExporter.totalTicks st;
                 RockForgeExporter.calls := k |}) by done.
  assert (Hsteps : forall g (entry : string * Pattern) numSteps st st',
            entry ∈ RockForgeExporter.sequencersData params -> I st ->
            RockForgeExporter.compileSteps params g entry.2 numSteps st
              = Some st' -> I st').
  { intros g entry numSteps st st' _ (Hpos & Hdiv & Hord) Hst.
    by apply (compileSteps_ordered params g entry.2 numSteps st). }
  assert (Hinit : I RockForgeExporter.initial).
  { split_and!; [done | apply Z.divide_0_r |].
    exists []. split_and!; constructor. }
  split.
  - intros st Hsong.
    by destruct (compileSong_inv random params I Hcalls Hsteps st Hinit Hsong)
      as (_ & _ & H).
  - intros ls Hsong.
    by destruct (revised_compileSong_inv random params I Hcalls Hsteps ls
                   Hinit Hsong) as (_ & _ & H).
Qed.

Lemma rockforge_track_ordered_witness :
  let params := Examples.rockForge "A2B"
                  [("seq-1", Examples.patternA); ("seq-2", Examples.patternB)]
                  Examples.notes in
  exists st,
    RockForgeExporter.compileSong (Examples.constant (9 # 10)) params = Some st
    /\ RockForgeExporter.totalTicks st = 1024%Z
    /\ orderedTrack 1024 (RockForgeExporter.track st).
Proof.
  intros params.
  eassert (E : RockForgeExporter.compileSong (Examples.constant (9 # 10))
                 params = Some _) by (vm_compute; reflexivity).
  eexists. split; [exact E |]. split; [reflexivity |].
  exact (proj1 (rockforge_track_ordered (Examples.constant (9 # 10)) params)
           _ E).
Defined.

(** X12.  In both RockForge exporters, when every stored velocity of every
    pattern lies in 0..127, a velocity of the exported track that is a
    number lies in 0..100: the rescaled value is not clamped, so a stored 0
    is exported as velocity 0. *)
Theorem rockforge_velocity_range (random : nat -> Q)
    (params : RockForgeExporter.Params) :
  velocitiesInRange (RockForgeExporter.sequencersData params) ->
  (forall st,
     RockForgeExporter.compileSong random params = Some st ->
     Forall (Forall (fun n =>
               forall v, velocity n = Some v -> (0 <= v <= 100)%Z))
       (RockForgeExporter.track st))
  /\ (forall ls,
        RockForgeExporterRevised.compileSong random params = Some ls ->
        Forall (Forall (fun n =>
                  forall v, velocity n = Some v -> (0 <= v <= 100)%Z))
          (RockForgeExporter.track (RockForgeExporterRevised.base ls))).
Proof.
  intros Hrange.
  set (P := fun n : Note => forall v, velocity n = Some v -> (0 <= v <= 100)%Z).
  set (I := fun st : RockForgeExporter.State =>
              Forall (Forall P) (RockForgeExporter.track st)).
  assert (Hcalls : forall st k,
            I st ->
            I {| RockForgeExporter.track := RockForgeExporter.track st;
                 RockForgeExporter.totalTicks :=
                   RockForgeExporter.totalTicks st;
                 RockForgeExporter.calls := k |}) by done.
  assert (Hsteps : forall g (entry : string * Pattern) numSteps st st',
            entry ∈ RockForgeExporter.sequencersData params -> I st ->
            RockForgeExporter.compileSteps params g entry.2 numSteps st
              = Some st' -> I st').
  { intros g entry numSteps st st' Hentry HI Hst.
    destruct (compileSteps_batches params (Forall P) g entry.2 numSteps st st')
      as (stepsOf & new & Htrack & Hnew & _); [| exact Hst |].
    - intros step notes _ Hnotes _.
      apply (notesForStep_Forall params P g entry.2
               (RockForgeExporter.totalTicks st) step); [| exact Hnotes].
      intros instrument n _ Hn.
      destruct (noteEvent_Some _ _ _ _ _ _ _ Hn)
        as (_ & _ & (row & Hrow & Hvel) & _).
      intros v Hv. rewrite Hvel in Hv. unfold rescaleAt in Hv.
      destruct (row !! step) as [stored |] eqn:Hstored; [| done].
      injection Hv as <-. apply rescale_range.
      apply (Hrange entry instrument row stored Hentry Hrow).
      apply list_elem_of_lookup. by exists step.
    - unfold I. rewrite Htrack. apply Forall_app. split; [done |].
      apply (Forall2_Forall_r _ _ _ _ Hnew).
      apply Forall_forall. intros step _ batch [_ Hb]. exact Hb. }
  assert (Hinit : I RockForgeExporter.initial) by constructor.
  split.
  - intros st Hsong.
    exact (compileSong_inv random params I Hcalls Hsteps st Hinit Hsong).
  - intros ls Hsong.
    exact (revised_compileSong_inv random params I Hcalls Hsteps ls Hinit
             Hsong).
Qed.

(** A test of [velocitiesInRange] that computes on explicit patterns. *)
Lemma velocitiesInRange_decide (sd : list (string * Pattern)) :
  bool_decide
    (Forall (fun entry : string * Pattern =>
               map_Forall (fun _ row =>
                             Forall (fun v => (0 <= v <= 127)%Z) row)
                 (velocities entry.2)) sd) = true ->
  velocitiesInRange sd.
Proof.
  intros H%bool_decide_eq_true entry instrument row v Hentry Hrow Hv.
  rewrite Forall_forall in H. specialize (H entry Hentry).
  specialize (H instrument row Hrow). cbn in H.
  rewrite Forall_forall in H. by apply H.
Qed.

Lemma rockforge_velocity_range_witness :
  let patterns := [("seq-1", patternD)] in
  let params := Examples.rockForge "D" patterns Examples.notes in
  velocitiesInRange patterns
  /\ exists st n,
       RockForgeExporter.compileSong (Examples.constant (9 # 10)) params
       = Some st
       /\ head (RockForgeExporter.track st) = Some [n]
       /\ velocity n = Some 0%Z
       /\ Forall (Forall (fun n =>
                    forall v, velocity n = Some v -> (0 <= v <= 100)%Z))
            (RockForgeExporter.track st).
Proof.
  intros patterns params.
  assert (Hrange : velocitiesInRange patterns)
    by (apply velocitiesInRange_decide; vm_compute; reflexivity).
  split; [exact Hrange |].
  eassert (E : RockForgeExporter.compileSong (Examples.constant (9 # 10))
                 params = Some _) by (vm_compute; reflexivity).
  eexists _, _. split; [exact E |]. split; [reflexivity |].
  split; [reflexivity |].
  exact (proj1 (rockforge_velocity_range (Examples.constant (9 # 10)) params
                  Hrange) _ E).
Defined.

Section RockForgeTotal.

Import RockForgeExporter.

Variable random : nat -> Q.
Variable params : Params.

Lemma compileSteps_returns (g : gmap string (list bool)) (data : Pattern)
    (numSteps : nat) (st : State) :
  (forall instrument,
     instrument ∈ INSTRUMENTS params ->
     is_Some (velocities data !! instrument)) ->
  is_Some (compileSteps params g data numSteps st).
Proof.
  intros Hrows.
  assert (Hnotes : forall step,
            is_Some (notesForStep params g data (totalTicks st) step)).
  { intros step. unfold notesForStep.
    generalize (@nil Note) at 2. revert Hrows.
    induction (INSTRUMENTS params) as [| i l IH]; intros Hrows acc; [done |].
    cbn [fold_left mbind option_bind].
    assert (He : is_Some (noteEvent params g data (totalTicks st) step i)).
    { unfold noteEvent. destruct (gridActive g i step); [| done].
      destruct (truthyNote (INSTRUMENT_MIDI_NOTES params) i); [| done].
      destruct (Hrows i ltac:(by left)) as [row ->]. done. }
    destruct He as [e ->]. cbn [mbind option_bind].
    apply IH. intros instrument Hin. apply Hrows. by right. }
  unfold compileSteps.
  assert (Hloop : forall l t,
            is_Some
              (fold_left
                 (fun acc step =>
                    acc ≫= fun t =>
                      notesForStep params g data (totalTicks st) step ≫=
                        fun notes => Some (addEvent notes t))
                 l (Some t))).
  { induction l as [| s l IH]; intros t; [done |].
    cbn [fold_left mbind option_bind].
    destruct (Hnotes s) as [notes ->]. cbn [mbind option_bind]. apply IH. }
  destruct (Hloop (seq 0 numSteps) (track st)) as [t ->]. done.
Qed.

Lemma generateFillPattern_returns (numSteps k : nat) :
  unitInterval random ->
  FILL_INSTRUMENTS params <> [] ->
  FILL_INSTRUMENTS params ⊆ allInstruments ->
  is_Some (_generateFillPattern random numSteps (FILL_INSTRUMENTS params) k).
Proof.
  intros Hunit Hne Hsub.
  destruct (RockForge_fill_loop random Hunit (FILL_INSTRUMENTS params)
              numSteps k numSteps Hne Hsub (le_n _)) as (g & Hg & _).
  unfold _generateFillPattern. by rewrite Hg.
Qed.

(** With no fill instrument, the first step of a fill reads
    [fillInstruments[0]] of an empty array and fails, whatever is drawn. *)
Lemma generateFillPattern_empty_list (numSteps k : nat) :
  1 <= numSteps -> _generateFillPattern random numSteps [] k = None.
Proof.
  intros Hn. unfold _generateFillPattern.
  destruct numSteps as [| n]; [lia |].
  cbn [seq fold_left]. unfold fillStep at 2. cbn [mbind option_bind].
  unfold Js.index. destruct (_ <? 0)%Z; cbn [mbind option_bind].
  - induction (seq 1 n) as [| j l IHl]; [done | exact IHl].
  - induction (seq 1 n) as [| j l IHl]; [done | exact IHl].
Qed.

Hypothesis random_unit : unitInterval random.
Hypothesis fill_nonempty : FILL_INSTRUMENTS params <> [].
Hypothesis fill_subset : FILL_INSTRUMENTS params ⊆ allInstruments.
Hypothesis rows :
  velocityRowsFor (INSTRUMENTS params) (sequencersData params).

Lemma compileSteps_of_sequencer (g : gmap string (list bool)) (id : string)
    (data : Pattern) (numSteps : nat) (st : State) :
  sequencer (sequencersData params) id = Some data ->
  is_Some (compileSteps params g data numSteps st).
Proof.
  intros Hseq. destruct (sequencer_elem_of _ _ _ Hseq) as (entry & Hin & <-).
  apply compileSteps_returns. intros instrument Hi. by apply rows.
Qed.

Lemma exportItem_returns (st : State) (item : ascii) :
  is_Some (exportItem random params st item).
Proof.
  unfold exportItem. destruct (Js.isUpperLetter item).
  - destruct (truthyId (findSequencerId (sequencersData params) item))
      as [id |] eqn:Hid; [| done].
    apply truthyId_Some, findSequencerId_sequencer in Hid as [data Hdata].
    rewrite Hdata. cbn [mbind option_bind].
    by apply (compileSteps_of_sequencer _ id).
  - destruct (Js.isFillDigit item); [| done].
    destruct (generateFillPattern_returns (Js.parseInt item) (calls st)
                random_unit fill_nonempty fill_subset) as [[g k] ->].
    cbn [mbind option_bind].
    destruct (truthyId (head (map fst (sequencersData params))))
      as [id |] eqn:Hid; [| done].
    apply truthyId_Some, head_sequencer in Hid as [data Hdata].
    rewrite Hdata. cbn [mbind option_bind].
    by apply (compileSteps_of_sequencer _ id).
Qed.

Lemma compileSong_returns : is_Some (compileSong random params).
Proof.
  unfold compileSong. generalize initial.
  induction (Js.spread (songStructure params)) as [| c l IH]; intros st;
    [done |].
  cbn [fold_left mbind option_bind].
  destruct (exportItem_returns st c) as [st1 ->]. apply IH.
Qed.

(** The last valid sequencer of the revised loop is a key of
    [sequencersData]. *)
Lemma revised_exportItem_returns (ls : RockForgeExporterRevised.LoopState)
    (item : ascii) :
  (forall id,
     RockForgeExporterRevised.lastValidSequencerId ls = Some id ->
     is_Some (sequencer (sequencersData params) id)) ->
  exists ls',
    RockForgeExporterRevised.exportItem random params ls item = Some ls'
    /\ forall id,
         RockForgeExporterRevised.lastValidSequencerId ls' = Some id ->
         is_Some (sequencer (sequencersData params) id).
Proof.
  intros Hlast. unfold RockForgeExporterRevised.exportItem.
  destruct (Js.isUpperLetter item).
  - destruct (truthyId (findSequencerId (sequencersData params) item))
      as [id |] eqn:Hid; [| by exists ls].
    apply truthyId_Some, findSequencerId_sequencer in Hid as [data Hdata].
    rewrite Hdata. cbn [mbind option_bind].
    destruct (compileSteps_of_sequencer (grid data) id data (steps data)
                (RockForgeExporterRevised.base ls) Hdata) as [st1 ->].
    cbn [mbind option_bind]. eexists. split; [done |].
    cbn. intros id' [= <-]. by exists data.
  - destruct (Js.isFillDigit item); [| by exists ls].
    destruct (generateFillPattern_returns (Js.parseInt item)
                (calls (RockForgeExporterRevised.base ls))
                random_unit fill_nonempty fill_subset) as [[g k] ->].
    cbn [mbind option_bind].
    destruct (RockForgeExporterRevised.sequencerIdForFillSounds params
                (RockForgeExporterRevised.lastValidSequencerId ls))
      as [id |] eqn:Hid; [| by eexists].
    assert (Hdata : is_Some (sequencer (sequencersData params) id)).
    { unfold RockForgeExporterRevised.sequencerIdForFillSounds in Hid.
      destruct (truthyId (RockForgeExporterRevised.lastValidSequencerId ls))
        as [id0 |] eqn:Hl.
      - injection Hid as ->. apply truthyId_Some in Hl. by apply Hlast.
      - by apply truthyId_Some, head_sequencer in Hid. }
    destruct Hdata as [data Hdata]. rewrite Hdata. cbn [mbind option_bind].
    destruct (compileSteps_of_sequencer g id data (Js.parseInt item)
                {| track := track (RockForgeExporterRevised.base ls);
                   totalTicks := totalTicks (RockForgeExporterRevised.base ls);
                   calls := k |} Hdata) as [st1 ->].
    cbn [mbind option_bind]. by eexists.
Qed.

Lemma revised_compileSong_returns :
  is_Some (RockForgeExporterRevised.compileSong random params).
Proof.
  unfold RockForgeExporterRevised.compileSong.
  assert (H0 : forall id,
            RockForgeExporterRevised.lastValidSequencerId
              RockForgeExporterRevised.initial = Some id ->
            is_Some (sequencer (sequencersData params) id)) by done.
  revert H0. generalize RockForgeExporterRevised.initial.
  induction (Js.spread (songStructure params)) as [| c l IH]; intros ls Hls;
    [done |].
  cbn [fold_left mbind option_bind].
  destruct (revised_exportItem_returns ls c Hls) as (ls1 & -> & Hls1).
  by apply IH.
Qed.

End RockForgeTotal.

(** X13.  With [Math.random()] in [0, 1), a non-empty list of fill
    instruments taken from the twelve instruments of the fill generator,
    and a velocity row for every instrument of [INSTRUMENTS] in every
    pattern, both RockForge exports of a non-empty structure end in the
    download: nothing throws. *)
Theorem rockforge_export_downloads (random : nat -> Q)
    (params : RockForgeExporter.Params) :
  unitInterval random ->
  RockForgeExporter.FILL_INSTRUMENTS params <> [] ->
  RockForgeExporter.FILL_INSTRUMENTS params
    ⊆ RockForgeExporter.allInstruments ->
  velocityRowsFor (RockForgeExporter.INSTRUMENTS params)
    (RockForgeExporter.sequencersData params) ->
  RockForgeExporter.songStructure params <> EmptyString ->
  (exists st,
     RockForgeExporter.exportSong random params true
     = RockForgeExporter.Downloaded (RockForgeExporter.bpm params) st)
  /\ (exists st,
        RockForgeExporterRevised.exportSong random params true
        = RockForgeExporter.Downloaded (RockForgeExporter.bpm params) st).
Proof.
  intros Hunit Hne Hsub Hrows Hsong.
  unfold RockForgeExporter.exportSong, RockForgeExporterRevised.exportSong.
  destruct (RockForgeExporter.songStructure params) eqn:Es; [done |].
  cbn [negb Js.truthyString]. split.
  - destruct (compileSong_returns random params Hunit Hne Hsub Hrows)
      as [st ->].
    by exists st.
  - destruct (revised_compileSong_returns random params Hunit Hne Hsub Hrows)
      as [ls ->].
    by eexists.
Qed.

(** A test of [velocityRowsFor] that computes on explicit patterns. *)
Lemma velocityRowsFor_decide (instruments : list string)
    (sd : list (string * Pattern)) :
  bool_decide
    (Forall (fun entry : string * Pattern =>
               Forall (fun instrument =>
                         is_Some (velocities entry.2 !! instrument))
                 instruments) sd) = true ->
  velocityRowsFor instruments sd.
Proof.
  intros H%bool_decide_eq_true entry instrument Hentry Hin.
  rewrite Forall_forall in H. specialize (H entry Hentry).
  rewrite Forall_forall in H. by apply H.
Qed.

Lemma rockforge_export_downloads_witness :
  let patterns := [("seq-1", Examples.patternA); ("seq-2", Examples.patternB)] in
  let params := Examples.rockForge "3AB2" patterns Examples.notes in
  (exists st,
     RockForgeExporter.exportSong (Examples.constant (9 # 10)) params true
     = RockForgeExporter.Downloaded 120 st)
  /\ (exists st,
        RockForgeExporterRevised.exportSong (Examples.constant (9 # 10))
          params true
        = RockForgeExporter.Downloaded 120 st).
Proof.
  intros patterns params.
  apply (rockforge_export_downloads (Examples.constant (9 # 10)) params).
  - apply constant_unitInterval; [discriminate | reflexivity].
  - discriminate.
  - apply subseteq_decide. vm_compute. reflexivity.
  - apply velocityRowsFor_decide. vm_compute. reflexivity.
  - discriminate.
Defined.

(** X14.  With no sequencer at all, the RockForge exporters skip every
    token: whatever the song structure, a run that does not throw leaves
    the track empty and [totalTicks] at 0, and that empty track is what is
    downloaded. *)
Theorem rockforge_no_sequencer (random : nat -> Q)
    (params : RockForgeExporter.Params) :
  RockForgeExporter.sequencersData params = [] ->
  (forall st,
     RockForgeExporter.compileSong random params = Some st ->
     RockForgeExporter.track st = []
     /\ RockForgeExporter.totalTicks st = 0%Z)
  /\ (forall ls,
        RockForgeExporterRevised.compileSong random params = Some ls ->
        RockForgeExporter.track (RockForgeExporterRevised.base ls) = []
        /\ RockForgeExporter.totalTicks (RockForgeExporterRevised.base ls)
           = 0%Z).
Proof.
  intros Hnone.
  set (I := fun st : RockForgeExporter.State =>
              RockForgeExporter.track st = []
              /\ RockForgeExporter.totalTicks st = 0%Z).
  assert (Hcalls : forall st k,
            I st ->
            I {| RockForgeExporter.track := RockForgeExporter.track st;
                 RockForgeExporter.totalTicks :=
                   RockForgeExporter.totalTicks st;
                 RockForgeExporter.calls := k |}) by done.
  assert (Hsteps : forall g (entry : string * Pattern) numSteps st st',
            entry ∈ RockForgeExporter.sequencersData params -> I st ->
            RockForgeExporter.compileSteps params g entry.2 numSteps st
              = Some st' -> I st').
  { intros g entry numSteps st st' Hentry. rewrite Hnone in Hentry.
    by apply elem_of_nil in Hentry. }
  assert (Hinit : I RockForgeExporter.initial) by done.
  split.
  - intros st Hsong.
    exact (compileSong_inv random params I Hcalls Hsteps st Hinit Hsong).
  - intros ls Hsong.
    exact (revised_compileSong_inv random params I Hcalls Hsteps ls Hinit
             Hsong).
Qed.

Lemma rockforge_no_sequencer_witness :
  let params := Examples.rockForge "A2B" [] Examples.notes in
  exists calls,
    RockForgeExporter.exportSong (Examples.constant (9 # 10)) params true
    = RockForgeExporter.Downloaded 120
        {| RockForgeExporter.track := [];
           RockForgeExporter.totalTicks := 0;
           RockForgeExporter.calls := calls |}.
Proof.
  intros params.
  eassert (E : RockForgeExporter.compileSong (Examples.constant (9 # 10))
                 params = Some _) by (vm_compute; reflexivity).
  destruct (proj1 (rockforge_no_sequencer (Examples.constant (9 # 10)) params
                     eq_refl) _ E) as [Ht Hc].
  exists 2. unfold RockForgeExporter.exportSong.
  cbn [negb Js.truthyString RockForgeExporter.songStructure params
       Examples.rockForge].
  rewrite E. reflexivity.
Defined.

Section RockForgeFailures.

Import RockForgeExporter.

Variable random : nat -> Q.
Variable params : Params.

Lemma notesForStep_fails (g : gmap string (list bool)) (data : Pattern)
    (ticks : Z) (step : nat) (instrument : string) :
  instrument ∈ INSTRUMENTS params ->
  noteEvent params g data ticks step instrument = None ->
  notesForStep params g data ticks step = None.
Proof.
  intros Hin Hnone. unfold notesForStep.
  apply (fold_left_bind_fails
           (fun (collected : list Note) (i : string) =>
              noteEvent params g data ticks step i ≫=
                fun e => Some (match e with
                               | Some n => collected ++ [n]
                               | None => collected
                               end))
           (INSTRUMENTS params) instrument (Some [])); [done |].
  intros a. by rewrite Hnone.
Qed.

Lemma compileSteps_fails (g : gmap string (list bool)) (data : Pattern)
    (numSteps step : nat) (st : State) :
  step < numSteps ->
  notesForStep params g data (totalTicks st) step = None ->
  compileSteps params g data numSteps st = None.
Proof.
  intros Hstep Hnone. unfold compileSteps.
  rewrite (fold_left_bind_fails
             (fun (t : list (list Note)) (s : nat) =>
                notesForStep params g data (totalTicks st) s ≫=
                  fun notes => Some (addEvent notes t))
             (seq 0 numSteps) step (Some (track st))); [done | |].
  - apply elem_of_seq. lia.
  - intros a. by rewrite Hnone.
Qed.

Lemma exportItem_empty_fill (st : State) (d : ascii) :
  FILL_INSTRUMENTS params = [] -> Js.isFillDigit d = true ->
  exportItem random params st d = None.
Proof.
  intros Hfill Hd. unfold exportItem.
  rewrite (isFillDigit_not_upper _ Hd), Hd, Hfill.
  rewrite generateFillPattern_empty_list; [done |].
  by apply isFillDigit_parseInt.
Qed.

Lemma revised_exportItem_empty_fill
    (ls : RockForgeExporterRevised.LoopState) (d : ascii) :
  FILL_INSTRUMENTS params = [] -> Js.isFillDigit d = true ->
  RockForgeExporterRevised.exportItem random params ls d = None.
Proof.
  intros Hfill Hd. unfold RockForgeExporterRevised.exportItem.
  rewrite (isFillDigit_not_upper _ Hd), Hd, Hfill.
  rewrite generateFillPattern_empty_list; [done |].
  by apply isFillDigit_parseInt.
Qed.

End RockForgeFailures.

(** X15.  In the RockForge exporters a struck instrument of [INSTRUMENTS]
    that has a truthy note but no velocity row in the sequencer that gives
    the sounds makes [compileSteps] throw, which fails the whole section;
    the SongDrumMachine exporter gives such a note the base velocity 100
    instead. *)
Theorem missing_velocity_row_throws (params : RockForgeExporter.Params)
    (g : gmap string (list bool)) (data : Pattern) (numSteps step : nat)
    (instrument : string) (st : RockForgeExporter.State) :
  instrument ∈ RockForgeExporter.INSTRUMENTS params ->
  step < numSteps ->
  gridActive g instrument step = true ->
  is_Some (truthyNote (RockForgeExporter.INSTRUMENT_MIDI_NOTES params)
             instrument) ->
  velocities data !! instrument = None ->
  RockForgeExporter.compileSteps params g data numSteps st = None
  /\ SongDrumMachineExporter.baseVelocity (Some data) instrument step
     = Some 100%Z.
Proof.
  intros Hin Hstep Hactive [m Hm] Hrow. split.
  - apply (compileSteps_fails params g data numSteps step st Hstep).
    apply (notesForStep_fails params g data _ step instrument Hin).
    unfold RockForgeExporter.noteEvent. by rewrite Hactive, Hm, Hrow.
  - unfold SongDrumMachineExporter.baseVelocity. by rewrite Hrow.
Qed.

Lemma missing_velocity_row_throws_witness :
  let params := Examples.rockForge "C" [("seq-1", patternC)] Examples.notes in
  velocities patternC !! "snare" = None
  /\ RockForgeExporter.compileSteps params (grid patternC) patternC 2
       RockForgeExporter.initial = None
  /\ RockForgeExporter.exportSong (Examples.constant (9 # 10)) params true
     = RockForgeExporter.Caught.
Proof.
  intros params.
  assert (Hrow : velocities patternC !! "snare" = None) by reflexivity.
  split; [exact Hrow |]. split.
  - apply (missing_velocity_row_throws params (grid patternC) patternC 2 1
             "snare" RockForgeExporter.initial).
    + apply subseteq_decide with (l1 := ["snare"]);
        [vm_compute; reflexivity | by left].
    + lia.
    + reflexivity.
    + by eexists.
    + exact Hrow.
  - vm_compute. reflexivity.
Defined.

(** X16.  With an empty list of fill instruments, a RockForge song
    structure that holds a fill digit is never downloaded: the fill
    generator throws at its first step, whatever [Math.random()] returns,
    and the export ends in the error alert. *)
Theorem rockforge_fill_without_instruments (random : nat -> Q)
    (params : RockForgeExporter.Params) (d : ascii) :
  RockForgeExporter.FILL_INSTRUMENTS params = [] ->
  Js.isFillDigit d = true ->
  d ∈ Js.spread (RockForgeExporter.songStructure params) ->
  RockForgeExporter.exportSong random params true = RockForgeExporter.Caught
  /\ RockForgeExporterRevised.exportSong random params true
     = RockForgeExporter.Caught.
Proof.
  intros Hfill Hd Hin.
  unfold RockForgeExporter.exportSong, RockForgeExporterRevised.exportSong,
    RockForgeExporter.compileSong, RockForgeExporterRevised.compileSong.
  destruct (RockForgeExporter.songStructure params) eqn:Es;
    [by apply elem_of_nil in Hin |].
  cbn [negb Js.truthyString]. split.
  - rewrite (fold_left_bind_fails (RockForgeExporter.exportItem random params)
               _ d _ Hin); [done |].
    intros st. by apply exportItem_empty_fill.
  - rewrite (fold_left_bind_fails
               (RockForgeExporterRevised.exportItem random params)
               _ d _ Hin); [done |].
    intros ls. by apply revised_exportItem_empty_fill.
Qed.

Lemma rockforge_fill_without_instruments_witness :
  let params := rockForgeWith "A1" [("seq-1", Examples.patternA)] [] in
  RockForgeExporter.exportSong (Examples.constant 0) params true
  = RockForgeExporter.Caught
  /\ RockForgeExporterRevised.exportSong (Examples.constant 0) params true
     = RockForgeExporter.Caught.
Proof.
  intros params.
  apply (rockforge_fill_without_instruments (Examples.constant 0) params "1").
  - reflexivity.
  - reflexivity.
  - change ("1"%char ∈ ["A"%char; "1"%char]). right. left.
Defined.

Section RockForgeRevisions.

Import RockForgeExporter.

Variable random : nat -> Q.
Variable params : Params.

Lemma revised_exportItem_base (ls : RockForgeExporterRevised.LoopState)
    (item : ascii) :
  Js.isFillDigit item = false ->
  RockForgeExporterRevised.base
    <$> RockForgeExporterRevised.exportItem random params ls item
  = exportItem random params (RockForgeExporterRevised.base ls) item.
Proof.
  intros Hd.
  unfold RockForgeExporterRevised.exportItem, exportItem. rewrite Hd.
  destruct (Js.isUpperLetter item); [| done].
  destruct (truthyId (findSequencerId (sequencersData params) item))
    as [id |]; [| done].
  destruct (sequencer (sequencersData params) id) as [data |]; [| done].
  cbn [mbind option_bind].
  by destruct (compileSteps params (grid data) data (steps data)
                 (RockForgeExporterRevised.base ls)).
Qed.

Lemma revised_fold_base (l : list ascii)
    (ls : RockForgeExporterRevised.LoopState) :
  Forall (fun c => Js.isFillDigit c = false) l ->
  RockForgeExporterRevised.base
    <$> fold_left
          (fun acc item =>
             acc ≫= fun ls =>
               RockForgeExporterRevised.exportItem random params ls item)
          l (Some ls)
  = fold_left (fun acc item => acc ≫= fun st => exportItem random params st item)
      l (Some (RockForgeExporterRevised.base ls)).
Proof.
  revert ls. induction l as [| c l IH]; intros ls Hl; [done |].
  apply Forall_cons in Hl as [Hc Hl].
  cbn [fold_left mbind option_bind].
  rewrite <- (revised_exportItem_base ls c Hc).
  destruct (RockForgeExporterRevised.exportItem random params ls c)
    as [ls1 |]; cbn [fmap option_fmap option_map].
  - by apply IH.
  - by rewrite !fold_left_bind_None.
Qed.

End RockForgeRevisions.

(** X17.  The two RockForge exporters differ in the sounds of fills only:
    on a song structure without a fill digit they export the same. *)
Theorem rockforge_revisions_agree (random : nat -> Q)
    (params : RockForgeExporter.Params) (midiWriterDefined : bool) :
  Forall (fun c => Js.isFillDigit c = false)
    (Js.spread (RockForgeExporter.songStructure params)) ->
  RockForgeExporterRevised.exportSong random params midiWriterDefined
  = RockForgeExporter.exportSong random params midiWriterDefined.
Proof.
  intros Hsong.
  unfold RockForgeExporterRevised.exportSong, RockForgeExporter.exportSong,
    RockForgeExporterRevised.compileSong, RockForgeExporter.compileSong.
  pose proof (revised_fold_base random params _
                RockForgeExporterRevised.initial Hsong) as H.
  change (RockForgeExporterRevised.base RockForgeExporterRevised.initial)
    with RockForgeExporter.initial in H.
  rewrite <- H.
  by destruct (fold_left _ _ (Some RockForgeExporterRevised.initial)).
Qed.

Lemma rockforge_revisions_agree_witness :
  let patterns := [("seq-1", Examples.patternA); ("seq-2", Examples.patternB)] in
  let params := Examples.rockForge "BxAB" patterns Examples.notes in
  RockForgeExporterRevised.exportSong (Examples.constant 0) params true
  = RockForgeExporter.exportSong (Examples.constant 0) params true.
Proof.
  intros patterns params.
  apply (rockforge_revisions_agree (Examples.constant 0) params true).
  repeat constructor.
Defined.

(** On "AB1" the two exporters differ: the fill takes the velocities of B
    in the revised exporter and those of A in the first one. *)
Example rockforge_revisions_differ :
  let patterns := [("seq-1", Examples.patternA); ("seq-2", Examples.patternB)] in
  let params := Examples.rockForge "AB1" patterns Examples.notes in
  RockForgeExporterRevised.exportSong (Examples.constant 0) params true
  <> RockForgeExporter.exportSong (Examples.constant 0) params true.
Proof. intros patterns params. vm_compute. discriminate. Qed.

(** X18.  With the humanize toggle off, the batch of a step holds, in the
    order of [INSTRUMENTS], exactly one note for every instrument that the
    grid marks at the step and that has a truthy note, and no other note;
    making it draws no random number. *)
Theorem plain_step (random : nat -> Q) (ticksPerStep : Z)
    (config : SongDrumMachineExporter.Config) (patternData : option Pattern)
    (g : gmap string (list bool)) (tick : Z) (step k : nat) :
  SongDrumMachineExporter.isHumanizeOn config = false ->
  SongDrumMachineExporter.compileStep random ticksPerStep config patternData
    g tick step k
  = (omap (plainNote ticksPerStep config patternData g tick step)
       (SongDrumMachineExporter.INSTRUMENTS config), k).
Proof.
  intros Hoff. unfold SongDrumMachineExporter.compileStep.
  assert (Hnote : forall instrument k0,
            SongDrumMachineExporter.compileNote random ticksPerStep config
              patternData g tick step instrument k0
            = (plainNote ticksPerStep config patternData g tick step
                 instrument, k0)).
  { intros instrument k0.
    unfold SongDrumMachineExporter.compileNote, plainNote.
    destruct (gridActive g instrument step); [| done].
    destruct (truthyNote _ instrument); [| done].
    rewrite velocityVariation_off, timingVariation_off by done.
    cbn [mbind option_bind]. rewrite Z.add_0_l.
    assert (Hv : (fun b => SongDrumMachineExporter.clampVelocity (b + 0))
                   <$> SongDrumMachineExporter.baseVelocity patternData
                         instrument step
                 = SongDrumMachineExporter.clampVelocity
                     <$> SongDrumMachineExporter.baseVelocity patternData
                           instrument step).
    { destruct (SongDrumMachineExporter.baseVelocity patternData instrument
                  step); [| done].
      cbn. by rewrite Z.add_0_r. }
    by rewrite Hv. }
  assert (Hloop : forall l acc,
            fold_left
              (fun (acc : list Note * nat) instrument =>
                 match SongDrumMachineExporter.compileNote random
                         ticksPerStep config patternData g tick step
                         instrument acc.2 with
                 | (Some n, k') => (acc.1 ++ [n], k')
                 | (None, k') => (acc.1, k')
                 end) l acc
            = (acc.1
               ++ omap (plainNote ticksPerStep config patternData g tick step)
                    l, acc.2)).
  { induction l as [| i l IH]; intros [notes k0].
    - cbn. by rewrite app_nil_r.
    - cbn [fold_left fst snd]. rewrite Hnote. csimpl.
      destruct (plainNote ticksPerStep config patternData g tick step i);
        rewrite IH; cbn [fst snd]; [| done].
      by rewrite <- app_assoc. }
  by rewrite Hloop.
Qed.

Lemma plain_step_witness :
  let config := Examples.song "A" [("seq-1", Examples.patternA)] false (1 # 10) in
  SongDrumMachineExporter.compileStep (Examples.constant (9 # 10)) 128 config
    (Some Examples.patternA) (grid Examples.patternA) 0 3 5
  = ([ {| pitch := 36; duration := "16"; startTick := 410;
          velocity := Some 79%Z; channel := 10 |};
       {| pitch := 38; duration := "16"; startTick := 410;
          velocity := Some 50%Z; channel := 10 |} ], 5).
Proof.
  intros config.
  exact (plain_step (Examples.constant (9 # 10)) 128 config
           (Some Examples.patternA) (grid Examples.patternA) 0 3 5 eq_refl).
Defined.

Section SongDrumMachineFills.

Import SongDrumMachineExporter.

Variable random : nat -> Q.
Variable ticksPerStep : Z.
Variable config : Config.

(** The batches a run of steps adds do not depend on the track so far. *)
Lemma steps_track_app (patternData : option Pattern)
    (g : gmap string (list bool)) (l : list nat) (st : State) :
  let fresh := {| track := []; currentTick := currentTick st;
                  calls := calls st |} in
  let r := fold_left (stepBody random ticksPerStep config patternData g)
             l fresh in
  fold_left (stepBody random ticksPerStep config patternData g) l st
  = {| track := track st ++ track r; currentTick := currentTick r;
       calls := calls r |}.
Proof.
  revert st. induction l as [| s l IH]; intros st; cbn zeta.
  - cbn. rewrite app_nil_r. by destruct st.
  - cbn [fold_left]. rewrite IH. cbn zeta.
    rewrite (IH (stepBody random ticksPerStep config patternData g
                   {| track := []; currentTick := currentTick st;
                      calls := calls st |} s)).
    cbn zeta. cbn [stepBody track currentTick calls].
    rewrite (addEvent_app _ (track st)), (addEvent_app _ []).
    cbn [app]. by rewrite <- app_assoc.
Qed.

Lemma steps_length (patternData : option Pattern)
    (g : gmap string (list bool)) (l : list nat) (st : State) :
  length (track (fold_left (stepBody random ticksPerStep config patternData g)
                   l st))
  <= length (track st) + length l.
Proof.
  revert st. induction l as [| s l IH]; intros st; cbn [fold_left length];
    [lia |].
  etrans; [apply IH |]. cbn [stepBody track]. rewrite addEvent_app.
  rewrite length_app.
  destruct (compileStep random ticksPerStep config patternData g
              (currentTick st) s (calls st)).1; cbn; lia.
Qed.

End SongDrumMachineFills.

(** X19.  A fill of the SongDrumMachine exporter, with [Math.random()] in
    [0, 1) and a non-empty list of fill instruments taken from
    [INSTRUMENTS], adds at most one batch per step of the fill after the
    batches already on the track, and every note it adds has the pitch that
    [INSTRUMENT_MIDI_NOTES] gives to a fill instrument. *)
Theorem fill_section_notes (random : nat -> Q) (ticksPerStep : Z)
    (config : SongDrumMachineExporter.Config) (structureArray : list ascii)
    (index : nat) (d : ascii) (st : SongDrumMachineExporter.State) :
  unitInterval random ->
  SongDrumMachineExporter.FILL_INSTRUMENTS config <> [] ->
  SongDrumMachineExporter.FILL_INSTRUMENTS config
    ⊆ SongDrumMachineExporter.INSTRUMENTS config ->
  Js.isFillDigit d = true ->
  exists st' new,
    SongDrumMachineExporter.exportSection random ticksPerStep config
      structureArray st index d = Some st'
    /\ SongDrumMachineExporter.track st'
       = SongDrumMachineExporter.track st ++ new
    /\ length new <= Js.parseInt d
    /\ Forall (Forall (fun n =>
                 exists instrument,
                   instrument
                     ∈ SongDrumMachineExporter.FILL_INSTRUMENTS config
                   /\ SongDrumMachineExporter.INSTRUMENT_MIDI_NOTES config
                        !! instrument = Some (pitch n)))
         new.
Proof.
  intros Hunit Hne Hsub Hd.
  destruct (generateFill_returns random Hunit config (Js.parseInt d)
              (SongDrumMachineExporter.calls st) Hne Hsub)
    as (g & k & Hg & Hinv).
  unfold SongDrumMachineExporter.exportSection. rewrite Hd, Hg.
  cbn [mbind option_bind].
  set (fresh := {| SongDrumMachineExporter.track := [];
                   SongDrumMachineExporter.currentTick :=
                     SongDrumMachineExporter.currentTick st;
                   SongDrumMachineExporter.calls := k |}).
  set (r := fold_left
              (SongDrumMachineExporter.stepBody random ticksPerStep config
                 None g)
              (seq 0 (Js.parseInt d)) fresh).
  exists (SongDrumMachineExporter.compileSection random ticksPerStep config
            None g (Js.parseInt d)
            {| SongDrumMachineExporter.track :=
                 SongDrumMachineExporter.track st;
               SongDrumMachineExporter.currentTick :=
                 SongDrumMachineExporter.currentTick st;
               SongDrumMachineExporter.calls := k |}),
    (SongDrumMachineExporter.track r).
  split_and!.
  - done.
  - unfold SongDrumMachineExporter.compileSection.
    cbn [SongDrumMachineExporter.track].
    by rewrite steps_track_app.
  - pose proof (steps_length random ticksPerStep config None g
                  (seq 0 (Js.parseInt d)) fresh) as Hlen.
    rewrite length_seq in Hlen. exact Hlen.
  - subst r. apply steps_Forall; [| constructor].
    intros step instrument k0 k1 n Hn.
    destruct (compileNote_Some _ _ _ _ _ _ _ _ _ _ _ Hn)
      as (Hactive & Hpitch & _).
    destruct (inv_domain _ _ _ _ _ Hinv instrument step Hactive) as [Hin _].
    apply truthyNote_Some in Hpitch as [Hlookup _].
    by exists instrument.
Qed.

Lemma fill_section_notes_witness :
  let config := Examples.song "A3" [("seq-1", Examples.patternA)] true (1 # 10) in
  let st := {| SongDrumMachineExporter.track := [[]];
               SongDrumMachineExporter.currentTick := 128;
               SongDrumMachineExporter.calls := 0 |} in
  exists st' new,
    SongDrumMachineExporter.exportSection (Examples.constant (9 # 10)) 128
      config (Js.spread "A3") st 1 "3" = Some st'
    /\ SongDrumMachineExporter.track st' = [[]] ++ new
    /\ length new <= 3
    /\ Forall (Forall (fun n => pitch n = 38%Z)) new.
Proof.
  intros config st.
  destruct (fill_section_notes (Examples.constant (9 # 10)) 128 config
              (Js.spread "A3") 1 "3" st)
    as (st' & new & Hst & Htrack & Hlen & Hnotes).
  - apply constant_unitInterval; [discriminate | reflexivity].
  - discriminate.
  - apply subseteq_decide. vm_compute. reflexivity.
  - reflexivity.
  - exists st', new. split; [exact Hst |]. split; [exact Htrack |].
    split; [exact Hlen |].
    eapply Forall_impl; [exact Hnotes |].
    intros batch Hbatch. eapply Forall_impl; [exact Hbatch |].
    intros n (instrument & Hin & Hlookup).
    apply list_elem_of_singleton in Hin as ->.
    assert (Hsnare : SongDrumMachineExporter.INSTRUMENT_MIDI_NOTES config
                       !! "snare" = Some 38%Z) by reflexivity.
    rewrite Hsnare in Hlookup. by injection Hlookup.
Defined.
